(** * Flat-file e-commerce backend: cart, checkout, catalog and order listing

    A shallow embedding of the request handlers of the shop backend
    (routes for orders, cart and products, and the flat-file helpers) and
    the properties of the checkout flow, the catalog pagination, the order
    listing and the cart operations.

    Conventions of the embedding.
    - A JS number that holds money (price, subtotal, tax, ...) is an IEEE-754
      binary64 value: Rocq's primitive [float], whose operations are the
      ones JS performs.
    - A count that the store or the session holds (stock, the quantity of a
      cart line or an order item) is an integer [Z], and so are a page and
      a page size once the catalog query has parsed them.
    - What a cart request carries as [productId] and [quantity] is any JSON
      value, a [JS.Value]: the handlers compare it and hand it to
      [parseInt] unchecked, and both are modelled as JS defines them.
    - A string is the sequence of its UTF-16 code units, each below 256
      (the Latin-1 range): an [ascii] is a code unit, not a byte of UTF-8.
    - A timestamp ([getTimestamp()], [createdAt]) is the time value of the
      date in milliseconds, a [Z]; the clock is read once per request.
    - [readData]/[writeData] act on a [Disk] that holds the two collections;
      a missing or unreadable file is the empty collection, and a write
      either replaces the collection and returns [true] or changes nothing
      and returns [false].  Every call of [writeData] is recorded in a
      journal with the data it was given. *)

From Stdlib Require Import ZArith List Bool Lia Permutation Sorted Ascii String.
From Stdlib Require Import PrimFloat SpecFloat FloatOps FloatAxioms.
From stdpp Require Import gmap strings list.

Set Warnings "-inexact-float,-register-all,-clear-no-such-hyp".
Local Open Scope string_scope.
Local Open Scope list_scope.
Local Open Scope Z_scope.

(** ** Strings: white space *)

Module Text.

(** White space and line terminators, for code units below 256: tab, line
    feed, vertical tab, form feed, carriage return, space and no-break
    space.  This is the class [\s], and what [trim] and the conversions of
    a string to a number skip. *)
Definition is_space (c : ascii) : bool :=
  let n := N_of_ascii c in
  (((9 <=? n) && (n <=? 13)) || (n =? 32) || (n =? 160))%N.

Fixpoint trimStart (s : string) : string :=
  match s with
  | EmptyString => EmptyString
  | String c s' => if is_space c then trimStart s' else s
  end.

Fixpoint trimEnd (s : string) : string :=
  match s with
  | EmptyString => EmptyString
  | String c s' =>
      match trimEnd s' with
      | EmptyString => if is_space c then EmptyString else String c EmptyString
      | rest => String c rest
      end
  end.

(** [String.prototype.trim] *)
Definition trim (s : string) : string := trimEnd (trimStart s).

End Text.

(** ** Host functions (the JS built-ins the handlers call) *)

Module JS.

(** The Number value of a mathematical integer (round to nearest even). *)
Definition Z2float (z : Z) : float :=
  SF2Prim (binary_normalize prec emax z 0 false).

(** [Math.round]: the integer closest to [x], ties towards +infinity;
    NaN and the infinities are returned unchanged, and a result of zero
    keeps the sign of [x].  A finite float is [±m * 2^e]; for [e < 0] the
    result is [floor ((±2m + 2^-e) / 2^(1-e))], computed exactly. *)
Definition Math_round (x : float) : float :=
  match Prim2SF x with
  | S754_finite s m e =>
      if 0 <=? e then x
      else
        let sm := if s then Z.neg m else Z.pos m in
        let n := (2 * sm + 2 ^ (- e)) / 2 ^ (1 - e) in
        if n =? 0 then (if s then (-0)%float else 0%float) else Z2float n
  | _ => x
  end.

(** [Math.round(x * 100) / 100] *)
Definition round2 (x : float) : float :=
  (Math_round (x * 100) / 100)%float.

(** [Math.ceil(a / b)] on integers; [None] is a non-finite result
    (division by zero), which [res.json] prints as [null]. *)
Definition Math_ceil_div (a b : Z) : option Z :=
  if b =? 0 then None else Some (- ((- a) / b)).

(** [Array.prototype.find] and [findIndex] ([None] is [undefined] / [-1]). *)
Definition Array_find {A} (f : A → bool) (l : list A) : option A :=
  List.find f l.

Fixpoint Array_findIndex {A} (f : A → bool) (l : list A) : option nat :=
  match l with
  | [] => None
  | x :: l' => if f x then Some 0%nat else S <$> Array_findIndex f l'
  end.

(** Assignment through the reference that [find] returned: the first
    element that satisfies [f] is replaced by its image under [g]. *)
Fixpoint Array_update_found {A} (f : A → bool) (g : A → A) (l : list A) : list A :=
  match l with
  | [] => []
  | x :: l' => if f x then g x :: l' else x :: Array_update_found f g l'
  end.

(** [Array.prototype.slice(start, end)], negative indices included. *)
Definition slice_index (len i : Z) : Z :=
  if i <? 0 then Z.max (len + i) 0 else Z.min i len.

Definition Array_slice {A} (l : list A) (start stop : Z) : list A :=
  let len := Z.of_nat (length l) in
  let k := slice_index len start in
  let final := slice_index len stop in
  take (Z.to_nat (final - k)) (drop (Z.to_nat k) l).

(** [Array.prototype.sort(cmp)], a stable sort; [before a b] stands for
    [cmp(a, b) < 0]. *)
Fixpoint sort_insert {A} (before : A → A → bool) (x : A) (l : list A) : list A :=
  match l with
  | [] => [x]
  | y :: l' => if before y x then y :: sort_insert before x l' else x :: y :: l'
  end.

Fixpoint Array_sort {A} (before : A → A → bool) (l : list A) : list A :=
  match l with
  | [] => []
  | x :: l' => sort_insert before x (Array_sort before l')
  end.

(** [Number.prototype.toString(36)] of a non-negative integer. *)
Definition digit36 (d : N) : ascii :=
  if (d <? 10)%N then ascii_of_N (48 + d) else ascii_of_N (97 + (d - 10)).

Fixpoint toString36_aux (fuel : nat) (n : N) (acc : string) : string :=
  match fuel with
  | O => acc
  | S fuel' =>
      let acc' := String (digit36 (n mod 36)) acc in
      if (n / 36 =? 0)%N then acc' else toString36_aux fuel' (n / 36) acc'
  end.

Definition toString36 (n : Z) : string :=
  toString36_aux (S (N.to_nat (N.log2 (Z.to_N n)))) (Z.to_N n) "".

(** [String.prototype.toUpperCase], which the handlers apply to the output
    of [toString(36)] only: digits and the letters a to z. *)
Definition upper_ascii (c : ascii) : ascii :=
  let n := N_of_ascii c in
  if ((97 <=? n) && (n <=? 122))%N then ascii_of_N (n - 32) else c.

(** [String.prototype.toLowerCase], for code units below 256.  The capital
    letters there are A to Z and, in Latin-1, À to Þ (192 to 222) without
    the sign × (215); the small letter of each is 32 places on, and no
    other code unit changes. *)
Definition lower_unit (c : ascii) : ascii :=
  let n := N_of_ascii c in
  if (((65 <=? n) && (n <=? 90)) ||
      ((192 <=? n) && (n <=? 222) && negb (n =? 215)))%N
  then ascii_of_N (n + 32) else c.

Fixpoint map_string (f : ascii → ascii) (s : string) : string :=
  match s with
  | EmptyString => EmptyString
  | String c s' => String (f c) (map_string f s')
  end.

Definition toUpperCase := map_string upper_ascii.
Definition toLowerCase := map_string lower_unit.

(** [String.prototype.includes] *)
Fixpoint includes (s sub : string) : bool :=
  String.prefix sub s ||
  match s with
  | EmptyString => false
  | String _ s' => includes s' sub
  end.

(** Truthiness of a string: [!s] holds of the empty string. *)
Definition truthy (s : string) : bool := negb (String.eqb s "").

(** *** Values and their conversions *)

(** What a field of a JSON request body can hold.  [Undefined] is a key the
    body lacks.  [Object] is an array or an object: the handlers do nothing
    with one but convert it to a primitive, which gives the string that its
    [toString] returns (the elements joined by commas, or
    ["[object Object]"]) or throws a TypeError, when a key ["toString"] of
    its own hides the method: [None]. *)
Inductive Value :=
| Undefined
| Null
| Bool (b : bool)
| Num (x : float)
| Str (s : string)
| Object (primitive : option string).

(** A Number read exactly: a finite one is the fraction [num / den], with
    [den] a power of two. *)
Inductive Exact :=
| ENaN
| EInfinity (negative : bool)
| EFraction (num den : Z).

Definition exact (x : float) : Exact :=
  match Prim2SF x with
  | S754_nan => ENaN
  | S754_infinity s => EInfinity s
  | S754_zero _ => EFraction 0 1
  | S754_finite s m e =>
      let n := if s then Z.neg m else Z.pos m in
      if 0 <=? e then EFraction (n * 2 ^ e) 1 else EFraction n (2 ^ (- e))
  end.

(** The integer a Number is, if it is one. *)
Definition integer_of (x : float) : option Z :=
  match exact x with
  | EFraction num den => if num mod den =? 0 then Some (num / den) else None
  | _ => None
  end.

(** A Number against an integer: [None] when the Number is NaN, which makes
    every comparison false. *)
Definition compare_Z (x : float) (k : Z) : option comparison :=
  match exact x with
  | ENaN => None
  | EInfinity negative => Some (if negative then Lt else Gt)
  | EFraction num den => Some (num ?= k * den)
  end.

(** [x <= k] and [x > k] (which is also [k < x]). *)
Definition le_Z (x : float) (k : Z) : bool :=
  match compare_Z x k with
  | Some Lt | Some Eq => true
  | _ => false
  end.

Definition gt_Z (x : float) (k : Z) : bool :=
  match compare_Z x k with
  | Some Gt => true
  | _ => false
  end.

(** The Number nearest to the fraction [num / den], ties to even.  The
    quotient is taken to 64 bits or more, with one more bit that records
    whether anything was cut off, and rounded from there. *)
Definition Q2float (num den : Z) : float :=
  if num =? 0 then 0%float
  else
    let k := Z.max 0 (Z.log2 den - Z.log2 (Z.abs num) + 64) in
    let scaled := Z.abs num * 2 ^ k in
    let sticky := if scaled mod den =? 0 then 0 else 1 in
    let m := 2 * (scaled / den) + sticky in
    SF2Prim (binary_normalize prec emax (Z.sgn num * m) (- k - 1) false).

(** A destructuring default, [{ key = otherwise }]: it stands in for a key
    that is [undefined], and for no other value. *)
Definition with_default (v otherwise : Value) : Value :=
  match v with
  | Undefined => otherwise
  | _ => v
  end.

(** [ToBoolean] *)
Definition ToBoolean (v : Value) : bool :=
  match v with
  | Undefined | Null => false
  | Bool b => b
  | Num x =>
      match exact x with
      | ENaN | EFraction 0 _ => false
      | _ => true
      end
  | Str s => truthy s
  | Object _ => true
  end.

(** The digit a character is in a radix. *)
Definition digit_of (radix : Z) (c : ascii) : option Z :=
  let n := Z.of_N (N_of_ascii c) in
  let d :=
    if (48 <=? n) && (n <=? 57) then n - 48
    else if (97 <=? n) && (n <=? 122) then n - 87
    else if (65 <=? n) && (n <=? 90) then n - 55
    else radix in
  if d <? radix then Some d else None.

(** The longest run of digits at the head of [s]: the integer they spell
    after [value], their number after [count], and what follows them. *)
Fixpoint digits (radix : Z) (s : string) (value : Z) (count : nat) : Z * nat * string :=
  match s with
  | EmptyString => (value, count, s)
  | String c s' =>
      match digit_of radix c with
      | Some d => digits radix s' (value * radix + d) (S count)
      | None => (value, count, s)
      end
  end.

Definition sign_of (s : string) : bool * string :=
  match s with
  | String "-" s' => (true, s')
  | String "+" s' => (false, s')
  | _ => (false, s)
  end.

(** The Number of the decimal [mant * 10^e10], where [mant] is written
    with [len] digits.  Beyond 10^400 lies only Infinity and below 10^-400
    only zero. *)
Definition decimal (negative : bool) (mant e10 len : Z) : float :=
  let signed (x : float) := if negative then (- x)%float else x in
  if mant =? 0 then signed 0%float
  else if 400 <? e10 then signed infinity
  else if e10 + len <? -400 then signed 0%float
  else if 0 <=? e10 then signed (Q2float (mant * 10 ^ e10) 1)
  else signed (Q2float mant (10 ^ (- e10))).

(** A literal in radix 2, 8 or 16, after its prefix. *)
Definition radix_literal (radix : Z) (s : string) : float :=
  match digits radix s 0 0 with
  | (value, S _, EmptyString) => Z2float value
  | _ => nan
  end.

(** A decimal literal: sign, digits with an optional point, and an
    optional exponent; or a signed [Infinity]. *)
Definition decimal_literal (s : string) : float :=
  let '(negative, s) := sign_of s in
  if String.eqb s "Infinity" then (if negative then neg_infinity else infinity)
  else
    let '(whole, whole_count, rest) := digits 10 s 0 0 in
    let '(mant, frac_count, rest) :=
      match rest with
      | String "." rest' => digits 10 rest' whole 0
      | _ => (whole, 0%nat, rest)
      end in
    match (whole_count + frac_count)%nat with
    | O => nan
    | S _ =>
        let exponent :=
          match rest with
          | EmptyString => Some 0
          | String "e" rest' | String "E" rest' =>
              let '(negative_exponent, rest') := sign_of rest' in
              match digits 10 rest' 0 0 with
              | (value, S _, EmptyString) =>
                  Some (if negative_exponent then - value else value)
              | _ => None
              end
          | _ => None
          end in
        match exponent with
        | Some e =>
            decimal negative mant (e - Z.of_nat frac_count)
              (Z.of_nat (whole_count + frac_count))
        | None => nan
        end
    end.

(** [ToNumber] of a string: white space around a numeric literal; the empty
    string is 0 and anything that is no literal is NaN. *)
Definition StringToNumber (s : string) : float :=
  match Text.trim s with
  | EmptyString => 0%float
  | String "0" (String "x" s') | String "0" (String "X" s') => radix_literal 16 s'
  | String "0" (String "o" s') | String "0" (String "O" s') => radix_literal 8 s'
  | String "0" (String "b" s') | String "0" (String "B" s') => radix_literal 2 s'
  | literal => decimal_literal literal
  end.

(** [ToNumber], as the relational operators apply it to an operand when the
    other one is a Number; [None] is the TypeError. *)
Definition ToNumber (v : Value) : option float :=
  match v with
  | Undefined => Some nan
  | Null => Some 0%float
  | Bool b => Some (if b then 1%float else 0%float)
  | Num x => Some x
  | Str s => Some (StringToNumber s)
  | Object primitive => StringToNumber <$> primitive
  end.

(** A Number that is an integer or not finite: what [parseInt] returns. *)
Inductive Integral :=
| NaN
| Infinity (negative : bool)
| Finite (n : Z).

(** The Number nearest to an integer, ties to even: the integer itself up
    to 2^53, and one of 53 significant bits beyond. *)
Definition round_int (z : Z) : Integral :=
  let a := Z.abs z in
  let k := Z.log2 a - 52 in
  if k <=? 0 then Finite z
  else
    let q := a / 2 ^ k in
    let r := a mod 2 ^ k in
    let half := 2 ^ (k - 1) in
    let q' := if (r <? half) || ((r =? half) && Z.even q) then q else q + 1 in
    if 2 ^ 1024 <=? q' * 2 ^ k then Infinity (z <? 0)
    else Finite (Z.sgn z * (q' * 2 ^ k)).

(** [a + b] for an integer Number [a]. *)
Definition plus (a : Z) (b : Integral) : Integral :=
  match b with
  | Finite n => round_int (a + n)
  | _ => b
  end.

(** [a > k] *)
Definition exceeds (a : Integral) (k : Z) : bool :=
  match a with
  | NaN => false
  | Infinity negative => negb negative
  | Finite n => k <? n
  end.

(** The decade of a positive fraction: the [n] with
    [10^(n-1) <= num / den < 10^n], looked for from [n] upwards. *)
Definition below_pow10 (num den n : Z) : bool :=
  if 0 <=? n then num <? den * 10 ^ n else num * 10 ^ (- n) <? den.

Fixpoint decade (fuel : nat) (num den n : Z) : Z :=
  match fuel with
  | O => n
  | S fuel' => if below_pow10 num den n then n else decade fuel' num den (n + 1)
  end.

(** The first digit of [ToString(x)] for a finite [x] other than 0, whose
    magnitude is [num / den]: the first digit [d] of the shortest decimal
    that reads back as [x].  That is the first digit of [num / den] itself,
    unless the one-digit decimal above it already reads back as [x]. *)
Definition leading_digit (x : float) (num den : Z) : Z :=
  let n := decade 700 num den (-330) in
  let d :=
    if 0 <=? n - 1 then num / (den * 10 ^ (n - 1)) else num * 10 ^ (1 - n) / den in
  let above :=
    if 0 <=? n - 1 then Q2float ((d + 1) * 10 ^ (n - 1)) 1
    else Q2float (d + 1) (10 ^ (1 - n)) in
  if (above =? abs x)%float then (if d =? 9 then 1 else d + 1) else d.

(** [parseInt] of a Number reads [ToString] of it.  From 1e21 on and below
    1e-6 that string is in exponent notation, ["d.ddde+21"], of which
    [parseInt] reads the first digit; otherwise the digits before the
    point are those of the Number cut off at the point.  The Number 1e-6 is
    4722366482869645 / 2^72. *)
Definition exponent_notation (num den : Z) : bool :=
  (10 ^ 21 * den <=? Z.abs num) || (Z.abs num * 2 ^ 72 <? 4722366482869645 * den).

Definition parseInt_number (x : float) : Integral :=
  match exact x with
  | EFraction num den =>
      if num =? 0 then Finite 0
      else if exponent_notation num den
      then Finite (Z.sgn num * leading_digit x (Z.abs num) den)
      else Finite (Z.quot num den)
  | _ => NaN
  end.

(** [parseInt] of a string: white space, a sign, [0x] for radix 16, and the
    digits up to the first character that is none. *)
Definition parseInt_string (inputString : string) : Integral :=
  let '(negative, s) := sign_of (Text.trimStart inputString) in
  let '(radix, s) :=
    match s with
    | String "0" (String "x" s') | String "0" (String "X" s') => (16, s')
    | _ => (10, s)
    end in
  match digits radix s 0 0 with
  | (_, O, _) => NaN
  | (mathInt, S _, _) => round_int (if negative then - mathInt else mathInt)
  end.

(** [parseInt(v)]: [parseInt] of [ToString(v)]; [None] is the TypeError. *)
Definition parseInt (v : Value) : option Integral :=
  match v with
  | Undefined | Null | Bool _ => Some NaN
  | Num x => Some (parseInt_number x)
  | Str s => Some (parseInt_string s)
  | Object primitive => parseInt_string <$> primitive
  end.

End JS.

Arguments JS.exact : simpl never.
Arguments JS.integer_of : simpl never.
Arguments JS.compare_Z : simpl never.
Arguments JS.le_Z : simpl never.
Arguments JS.gt_Z : simpl never.
Arguments JS.Q2float : simpl never.
Arguments JS.StringToNumber : simpl never.
Arguments JS.ToNumber : simpl never.
Arguments JS.round_int : simpl never.
Arguments JS.plus : simpl never.
Arguments JS.exceeds : simpl never.
Arguments JS.parseInt_number : simpl never.
Arguments JS.parseInt_string : simpl never.
Arguments JS.parseInt : simpl never.

(** ** Data model *)

Record Product := {
  product_id : string;
  product_name : string;
  product_description : string;
  product_price : float;
  product_originalPrice : float;
  product_category : string;
  product_subcategory : string;
  product_brand : string;
  product_images : list string;
  product_stock : Z;
  product_rating : float;
  product_featured : bool;
  product_tags : list string;
  product_createdAt : Z
}.

Definition with_stock (p : Product) (s : Z) : Product :=
  {| product_id := product_id p; product_name := product_name p;
     product_description := product_description p;
     product_price := product_price p;
     product_originalPrice := product_originalPrice p;
     product_category := product_category p;
     product_subcategory := product_subcategory p;
     product_brand := product_brand p; product_images := product_images p;
     product_stock := s; product_rating := product_rating p;
     product_featured := product_featured p; product_tags := product_tags p;
     product_createdAt := product_createdAt p |}.

Record CartItem := {
  item_productId : string;
  item_quantity : Z;
  item_addedAt : Z
}.

Record SessionUser := {
  user_id : string;
  user_name : string;
  user_email : string;
  user_role : string
}.

(** [req.session]: the logged-in user and the cart, either of which may be
    [undefined]. *)
Record Session := {
  session_user : option SessionUser;
  session_cart : option (list CartItem)
}.

Record Address := {
  street : string;
  city : string;
  state : string;
  zipCode : string;
  country : string
}.

Record OrderItem := {
  oi_productId : string;
  oi_name : string;
  oi_price : float;
  oi_quantity : Z;
  oi_image : string
}.

Record StatusEntry := {
  se_status : string;
  se_timestamp : Z;
  se_note : string
}.

Record Order := {
  order_id : string;
  order_orderNumber : string;
  order_userId : string;
  order_customerName : string;
  order_customerEmail : string;
  order_items : list OrderItem;
  order_shippingAddress : Address;
  order_paymentMethod : string;
  order_subtotal : float;
  order_shipping : float;
  order_tax : float;
  order_total : float;
  order_status : string;
  order_statusHistory : list StatusEntry;
  order_createdAt : Z;
  order_updatedAt : Z
}.

Record ErrorBody := { error : string; message : string }.

(** ** The flat-file store *)

Module Helpers.

Inductive WriteCall :=
| WroteProducts (data : list Product) (ok : bool)
| WroteOrders (data : list Order) (ok : bool).

Record Disk := {
  products_json : list Product;
  orders_json : list Order;
  journal : list WriteCall
}.

(** What a request cannot control: the clock, the random suffix of a
    generated id, and whether writing a file succeeds. *)
Record Env := {
  now : Z;
  random_suffix : string;
  write_ok : string → bool
}.

(** The two collections, each with the type of its records and the name of
    its file. *)
Inductive Collection : Type → Type :=
| PRODUCTS_FILE : Collection Product
| ORDERS_FILE : Collection Order.

Definition filename {A} (file : Collection A) : string :=
  match file with
  | PRODUCTS_FILE => "products.json"
  | ORDERS_FILE => "orders.json"
  end.

Definition readData {A} (file : Collection A) (d : Disk) : list A :=
  match file in Collection A return list A with
  | PRODUCTS_FILE => products_json d
  | ORDERS_FILE => orders_json d
  end.

Definition writeData {A} (env : Env) (file : Collection A) : list A → Disk → bool * Disk :=
  let ok := write_ok env (filename file) in
  match file in Collection A return list A → Disk → bool * Disk with
  | PRODUCTS_FILE => fun data d =>
      (ok, {| products_json := if ok then data else products_json d;
              orders_json := orders_json d;
              journal := journal d ++ [WroteProducts data ok] |})
  | ORDERS_FILE => fun data d =>
      (ok, {| products_json := products_json d;
              orders_json := if ok then data else orders_json d;
              journal := journal d ++ [WroteOrders data ok] |})
  end.

Definition generateId (env : Env) : string :=
  (JS.toString36 (now env) ++ random_suffix env)%string.

Definition getTimestamp (env : Env) : Z := now env.

End Helpers.

(** ** Requests, responses and the middleware *)

Record EnrichedProduct := {
  ep_id : string;
  ep_name : string;
  ep_price : float;
  ep_originalPrice : float;
  ep_image : string;
  ep_stock : Z
}.

(** A cart line with the product details the cart page shows. *)
Record EnrichedItem := {
  ei_item : CartItem;
  ei_product : EnrichedProduct
}.

Record Summary := {
  itemCount : Z;
  sum_subtotal : float;
  sum_shipping : float;
  sum_tax : float;
  sum_total : float
}.

Record Pagination := {
  pg_total : Z;
  pg_page : Z;
  pg_pageSize : Z;
  pg_totalPages : option Z
}.

(** The JSON bodies the handlers send. *)
Inductive Body :=
| BError (e : ErrorBody)
| BOrderPlaced (msg id orderNumber : string) (total : float) (status : string)
| BOrders (orders : list Order)
| BCart (items : list EnrichedItem) (summary : Summary)
| BCartCount (msg : string) (cartCount : Z)
| BMessage (msg : string)
| BProducts (products : list Product) (pagination : Pagination).

Record Response := { status : Z; body : Body }.

(** What a handler leaves behind: the response, the session and the disk. *)
Record Result := {
  reply : Response;
  session_after : Session;
  disk_after : Helpers.Disk
}.

Definition fail (code : Z) (err msg : string) : Response :=
  {| status := code; body := BError {| error := err; message := msg |} |}.

Module Auth.

Definition requireAuth (next : SessionUser → Session → Helpers.Disk → Result)
    (sess : Session) (d : Helpers.Disk) : Result :=
  match session_user sess with
  | None =>
      {| reply := fail 401 "Authentication required"
                    "Please login to access this resource";
         session_after := sess; disk_after := d |}
  | Some u => next u sess d
  end.

End Auth.

(** ** Orders: checkout and listing *)

Module Orders.
Import Helpers.

Record CheckoutBody := {
  shippingAddress : option Address;
  paymentMethod : option string
}.

Definition has_id (pid : string) (p : Product) : bool :=
  String.eqb (product_id p) pid.

(** [!shippingAddress || !street || !city || !state || !zipCode] *)
Definition address_missing (a : option Address) : bool :=
  match a with
  | None => true
  | Some a =>
      negb (JS.truthy (street a)) || negb (JS.truthy (city a)) ||
      negb (JS.truthy (state a)) || negb (JS.truthy (zipCode a))
  end.

Definition order_line (product : Product) (cartItem : CartItem) : OrderItem :=
  {| oi_productId := product_id product;
     oi_name := product_name product;
     oi_price := product_price product;
     oi_quantity := item_quantity cartItem;
     oi_image := match product_images product with
                 | [] => ""
                 | img :: _ => img
                 end |}.

(** The loop over the cart.  [products] is the array read from disk and
    mutated in place: the stock of the product a line resolves to is
    decremented as soon as the line passes its two checks. *)
Fixpoint walk_cart (cart : list CartItem) (products : list Product)
    (orderItems : list OrderItem) (subtotal : float)
    : ErrorBody + (list Product * list OrderItem * float) :=
  match cart with
  | [] => inr (products, orderItems, subtotal)
  | cartItem :: rest =>
      match JS.Array_find (has_id (item_productId cartItem)) products with
      | None =>
          inl {| error := "Product not found";
                 message := ("Product " ++ item_productId cartItem ++ " no longer exists")%string |}
      | Some product =>
          if product_stock product <? item_quantity cartItem then
            inl {| error := "Insufficient stock";
                   message := ("Not enough stock for " ++ product_name product)%string |}
          else
            walk_cart rest
              (JS.Array_update_found (has_id (item_productId cartItem))
                 (fun p => with_stock p (product_stock p - item_quantity cartItem))
                 products)
              (orderItems ++ [order_line product cartItem])
              (subtotal + product_price product * JS.Z2float (item_quantity cartItem))%float
      end
  end.

Definition shipping_of (subtotal : float) : float :=
  if (100 <? subtotal)%float then 0%float else 9.99%float.

Definition tax_of (subtotal : float) : float := (subtotal * 0.08)%float.

Definition new_order (env : Env) (user : SessionUser) (address : Address)
    (paymentMethod : string) (orderItems : list OrderItem) (subtotal : float) : Order :=
  let shipping := shipping_of subtotal in
  let tax := tax_of subtotal in
  let total := (subtotal + shipping + tax)%float in
  {| order_id := generateId env;
     order_orderNumber := ("ORD-" ++ JS.toUpperCase (JS.toString36 (now env)))%string;
     order_userId := user_id user;
     order_customerName := user_name user;
     order_customerEmail := user_email user;
     order_items := orderItems;
     order_shippingAddress := address;
     order_paymentMethod := paymentMethod;
     order_subtotal := JS.round2 subtotal;
     order_shipping := JS.round2 shipping;
     order_tax := JS.round2 tax;
     order_total := JS.round2 total;
     order_status := "pending";
     order_statusHistory :=
       [ {| se_status := "pending"; se_timestamp := getTimestamp env;
            se_note := "Order placed" |} ];
     order_createdAt := getTimestamp env;
     order_updatedAt := getTimestamp env |}.

Definition with_cart (sess : Session) (cart : list CartItem) : Session :=
  {| session_user := session_user sess; session_cart := Some cart |}.

Definition rejected (r : Response) (sess : Session) (d : Disk) : Result :=
  {| reply := r; session_after := sess; disk_after := d |}.

(** POST /api/orders, after [requireAuth]. *)
Definition checkout (env : Env) (req : CheckoutBody) (user : SessionUser)
    (sess : Session) (d : Disk) : Result :=
  match session_cart sess with
  | None | Some [] => rejected (fail 400 "Empty cart" "Your cart is empty") sess d
  | Some cart =>
      match shippingAddress req with
      | None =>
          rejected (fail 400 "Invalid address"
                      "Please provide complete shipping address") sess d
      | Some address =>
          if address_missing (Some address) then
            rejected (fail 400 "Invalid address"
                        "Please provide complete shipping address") sess d
          else
            let products := readData PRODUCTS_FILE d in
            let orders := readData ORDERS_FILE d in
            match walk_cart cart products [] 0%float with
            | inl e => rejected {| status := 400; body := BError e |} sess d
            | inr (products', orderItems, subtotal) =>
                let d1 := snd (writeData env PRODUCTS_FILE products' d) in
                let order :=
                  new_order env user address
                    (default "card" (paymentMethod req)) orderItems subtotal in
                let d2 := snd (writeData env ORDERS_FILE (orders ++ [order]) d1) in
                {| reply :=
                     {| status := 201;
                        body := BOrderPlaced "Order placed successfully"
                                  (order_id order) (order_orderNumber order)
                                  (order_total order) (order_status order) |};
                   session_after := with_cart sess [];
                   disk_after := d2 |}
            end
      end
  end.

Definition post_orders (env : Env) (req : CheckoutBody) : Session → Disk → Result :=
  Auth.requireAuth (checkout env req).

(** GET /api/orders, after [requireAuth]; [status] is the query parameter. *)
Definition newer (a b : Order) : bool := order_createdAt b <? order_createdAt a.

Definition list_orders (status : option string) (user : SessionUser) (d : Disk)
    : list Order :=
  let orders := readData ORDERS_FILE d in
  let orders :=
    if negb (String.eqb (user_role user) "admin")
    then List.filter (fun o => String.eqb (order_userId o) (user_id user)) orders
    else orders in
  let orders := JS.Array_sort newer orders in
  match status with
  | Some s =>
      if JS.truthy s
      then List.filter (fun o => String.eqb (order_status o) s) orders
      else orders
  | None => orders
  end.

Definition get_orders (status : option string) (user : SessionUser)
    (sess : Session) (d : Disk) : Result :=
  {| reply := {| status := 200; body := BOrders (list_orders status user d) |};
     session_after := sess; disk_after := d |}.

End Orders.

(** ** Cart *)

Module Cart.
Import Helpers.

Definition has_id := Orders.has_id.
Definition with_cart := Orders.with_cart.

Definition in_line (pid : string) (item : CartItem) : bool :=
  String.eqb (item_productId item) pid.

Definition with_quantity (item : CartItem) (q : Z) : CartItem :=
  {| item_productId := item_productId item; item_quantity := q;
     item_addedAt := item_addedAt item |}.

(** [cart.reduce((sum, item) => sum + item.quantity, 0)] *)
Definition cartCount (cart : list CartItem) : Z :=
  fold_left (fun sum item => sum + item_quantity item) cart 0.

Definition ok (r : Response) (sess : Session) (d : Disk) : Result :=
  {| reply := r; session_after := sess; disk_after := d |}.

(** The callback of [cart.map]: [None] is the [null] of a line whose
    product is gone. *)
Definition enrich (products : list Product) (item : CartItem) : option EnrichedItem :=
  match JS.Array_find (has_id (item_productId item)) products with
  | None => None
  | Some product =>
      Some {| ei_item := item;
              ei_product :=
                {| ep_id := product_id product;
                   ep_name := product_name product;
                   ep_price := product_price product;
                   ep_originalPrice := product_originalPrice product;
                   ep_image := match product_images product with
                               | [] => ""
                               | img :: _ => img
                               end;
                   ep_stock := product_stock product |} |}
  end.

Definition summarize (cartItems : list EnrichedItem) : Summary :=
  let subtotal :=
    fold_left
      (fun sum item =>
         (sum + ep_price (ei_product item) * JS.Z2float (item_quantity (ei_item item)))%float)
      cartItems 0%float in
  let shipping := if (100 <? subtotal)%float then 0%float else 9.99%float in
  let tax := (subtotal * 0.08)%float in
  let total := (subtotal + shipping + tax)%float in
  {| itemCount := fold_left (fun sum item => sum + item_quantity (ei_item item)) cartItems 0;
     sum_subtotal := JS.round2 subtotal;
     sum_shipping := JS.round2 shipping;
     sum_tax := JS.round2 tax;
     sum_total := JS.round2 total |}.

(** GET /api/cart *)
Definition get_cart (sess : Session) (d : Disk) : Result :=
  let cart := default [] (session_cart sess) in
  let products := readData PRODUCTS_FILE d in
  let cartItems := omap (enrich products) cart in
  ok {| status := 200; body := BCart cartItems (summarize cartItems) |} sess d.

(** What a handler that stores a quantity leaves behind.  The quantity it
    stores is what [parseInt] returns, and a line of the session cart can
    hold that as long as it is an integer: [Done].  When it is NaN or an
    infinity (the quantity ["abc"], or [null]), the handler stores it all
    the same and answers 200, with the disk untouched; the cart is then none
    that [CartItem] describes, and [StoredNonInteger] names the line and
    what it now holds. *)
Inductive Outcome :=
| Done (r : Result)
| StoredNonInteger (productId : string) (quantity : JS.Integral).

(** The status of the response. *)
Definition answered (o : Outcome) : Z :=
  match o with
  | Done r => status (reply r)
  | StoredNonInteger _ _ => 200
  end.

(** The body of a cart request: [productId] and [quantity], each any JSON
    value, or [Undefined] when the body has no such key. *)
Record AddBody := { add_productId : JS.Value; add_quantity : JS.Value }.

(** POST /api/cart/add.  The ids of the products are strings, so a
    [productId] that is no string is [===] to none of them: it is either
    falsy or the id of no product. *)
Definition add_to_cart (env : Env) (req : AddBody) (sess : Session) (d : Disk) : Outcome :=
  let quantity := JS.with_default (add_quantity req) (JS.Num 1) in
  match add_productId req with
  | JS.Str productId =>
      if negb (JS.truthy productId) then
        Done (ok (fail 400 "Missing product" "Product ID is required") sess d)
      else
        match JS.Array_find (has_id productId) (readData PRODUCTS_FILE d) with
        | None => Done (ok (fail 404 "Not found" "Product not found") sess d)
        | Some product =>
            match JS.ToNumber quantity with
            | None =>
                Done (ok (fail 500 "Server error" "Failed to add item to cart") sess d)
            | Some requested =>
                if JS.gt_Z requested (product_stock product) then
                  Done (ok (fail 400 "Out of stock" "Not enough stock available") sess d)
                else
                  let cart := default [] (session_cart sess) in
                  match JS.parseInt quantity with
                  | None =>
                      Done (ok (fail 500 "Server error" "Failed to add item to cart")
                              (with_cart sess cart) d)
                  | Some parsed =>
                      match JS.Array_findIndex (in_line productId) cart with
                      | Some existingIndex =>
                          let newQuantity :=
                            JS.plus (from_option item_quantity 0 (cart !! existingIndex))
                              parsed in
                          if JS.exceeds newQuantity (product_stock product) then
                            Done (ok (fail 400 "Stock limit"
                                        "Cannot add more than available stock")
                                    (with_cart sess cart) d)
                          else
                            match newQuantity with
                            | JS.Finite n =>
                                let cart' :=
                                  alter (fun item => with_quantity item n)
                                    existingIndex cart in
                                Done (ok {| status := 200;
                                            body := BCartCount "Item added to cart"
                                                      (cartCount cart') |}
                                        (with_cart sess cart') d)
                            | _ => StoredNonInteger productId newQuantity
                            end
                      | None =>
                          match parsed with
                          | JS.Finite n =>
                              let cart' :=
                                cart ++ [ {| item_productId := productId;
                                             item_quantity := n;
                                             item_addedAt := now env |} ] in
                              Done (ok {| status := 200;
                                          body := BCartCount "Item added to cart"
                                                    (cartCount cart') |}
                                      (with_cart sess cart') d)
                          | _ => StoredNonInteger productId parsed
                          end
                      end
                  end
            end
        end
  | productId =>
      if negb (JS.ToBoolean productId) then
        Done (ok (fail 400 "Missing product" "Product ID is required") sess d)
      else Done (ok (fail 404 "Not found" "Product not found") sess d)
  end.

Record UpdateBody := { upd_productId : JS.Value; upd_quantity : JS.Value }.

Definition is_undefined (v : JS.Value) : bool :=
  match v with
  | JS.Undefined => true
  | _ => false
  end.

(** PUT /api/cart/update.  The cart lines were stored with the ids of
    products, which are strings, so a [productId] that is no string is
    that of no line. *)
Definition update_cart (req : UpdateBody) (sess : Session) (d : Disk) : Outcome :=
  let quantity := upd_quantity req in
  if negb (JS.ToBoolean (upd_productId req)) || is_undefined quantity then
    Done (ok (fail 400 "Missing fields" "Product ID and quantity are required") sess d)
  else
    match session_cart sess with
    | None => Done (ok (fail 404 "Empty cart" "Cart is empty") sess d)
    | Some cart =>
        match upd_productId req with
        | JS.Str productId =>
            match JS.Array_findIndex (in_line productId) cart with
            | None => Done (ok (fail 404 "Not in cart" "Item not found in cart") sess d)
            | Some itemIndex =>
                match JS.ToNumber quantity with
                | None =>
                    Done (ok (fail 500 "Server error" "Failed to update cart") sess d)
                | Some requested =>
                    if JS.le_Z requested 0 then
                      let cart' := delete itemIndex cart in
                      Done (ok {| status := 200;
                                  body := BCartCount "Cart updated" (cartCount cart') |}
                              (with_cart sess cart') d)
                    else
                      let exceeds :=
                        match JS.Array_find (has_id productId)
                                (readData PRODUCTS_FILE d) with
                        | Some product => JS.gt_Z requested (product_stock product)
                        | None => false
                        end in
                      if exceeds then
                        Done (ok (fail 400 "Stock limit" "Quantity exceeds available stock")
                                sess d)
                      else
                        match JS.parseInt quantity with
                        | None =>
                            Done (ok (fail 500 "Server error" "Failed to update cart")
                                    sess d)
                        | Some (JS.Finite n) =>
                            let cart' :=
                              alter (fun item => with_quantity item n) itemIndex cart in
                            Done (ok {| status := 200;
                                        body := BCartCount "Cart updated" (cartCount cart') |}
                                    (with_cart sess cart') d)
                        | Some parsed => StoredNonInteger productId parsed
                        end
                end
            end
        | _ => Done (ok (fail 404 "Not in cart" "Item not found in cart") sess d)
        end
    end.

(** DELETE /api/cart/remove/:productId *)
Definition remove_from_cart (productId : string) (sess : Session) (d : Disk) : Result :=
  match session_cart sess with
  | None => ok (fail 404 "Empty cart" "Cart is empty") sess d
  | Some cart =>
      match JS.Array_findIndex (in_line productId) cart with
      | None => ok (fail 404 "Not in cart" "Item not found in cart") sess d
      | Some itemIndex =>
          let cart' := delete itemIndex cart in
          ok {| status := 200;
                body := BCartCount "Item removed from cart" (cartCount cart') |}
            (with_cart sess cart') d
      end
  end.

(** DELETE /api/cart/clear *)
Definition clear_cart (sess : Session) (d : Disk) : Result :=
  ok {| status := 200; body := BMessage "Cart cleared" |} (with_cart sess []) d.

End Cart.

(** ** Products: the catalog query *)

Module Products.
Import Helpers.

(** The query string of GET /api/products.  A parameter is [None] when it
    is absent or empty (falsy); [minPrice]/[maxPrice] carry the result of
    [parseFloat], [limit]/[page] the result of [parseInt]. *)
Record Query := {
  q_search : option string;
  q_category : option string;
  q_subcategory : option string;
  q_brand : option string;
  q_minPrice : option float;
  q_maxPrice : option float;
  q_sort : option string;
  q_featured : option string;
  q_limit : option Z;
  q_page : option Z
}.

Definition filter_if {A B} (param : option B) (keep : B → A → bool) (l : list A) : list A :=
  match param with
  | Some v => List.filter (keep v) l
  | None => l
  end.

Definition same_ci (a b : string) : bool :=
  String.eqb (JS.toLowerCase a) (JS.toLowerCase b).

Definition matches_search (search : string) (p : Product) : bool :=
  let searchLower := JS.toLowerCase search in
  JS.includes (JS.toLowerCase (product_name p)) searchLower ||
  JS.includes (JS.toLowerCase (product_description p)) searchLower ||
  existsb (fun t => JS.includes (JS.toLowerCase t) searchLower) (product_tags p).

Section Collation.

(** [a.localeCompare(b)]: the collation of the host's locale. *)
Variable localeCompare : string → string → Z.

Definition sort_products (sort : option string) (products : list Product) : list Product :=
  match sort with
  | Some "price-asc" =>
      JS.Array_sort (fun a b => (product_price a - product_price b <? 0)%float) products
  | Some "price-desc" =>
      JS.Array_sort (fun a b => (product_price b - product_price a <? 0)%float) products
  | Some "name-asc" =>
      JS.Array_sort (fun a b => localeCompare (product_name a) (product_name b) <? 0) products
  | Some "name-desc" =>
      JS.Array_sort (fun a b => localeCompare (product_name b) (product_name a) <? 0) products
  | Some "rating" =>
      JS.Array_sort (fun a b => (product_rating b - product_rating a <? 0)%float) products
  | Some "newest" =>
      JS.Array_sort (fun a b => product_createdAt b - product_createdAt a <? 0) products
  | _ => products
  end.

(** The filters, which compose by conjunction. *)
Definition filter_products (q : Query) (products : list Product) : list Product :=
  let products := filter_if (q_search q) matches_search products in
  let products :=
    filter_if (q_category q) (fun c p => same_ci (product_category p) c) products in
  let products :=
    filter_if (q_subcategory q) (fun c p => same_ci (product_subcategory p) c) products in
  let products :=
    filter_if (q_brand q) (fun c p => same_ci (product_brand p) c) products in
  let products :=
    filter_if (q_minPrice q) (fun m p => (m <=? product_price p)%float) products in
  let products :=
    filter_if (q_maxPrice q) (fun m p => (product_price p <=? m)%float) products in
  match q_featured q with
  | Some "true" => List.filter product_featured products
  | _ => products
  end.

(** The filters and the sort, before pagination. *)
Definition select_products (q : Query) (products : list Product) : list Product :=
  sort_products (q_sort q) (filter_products q products).

(** GET /api/products *)
Definition get_products (q : Query) (sess : Session) (d : Disk) : Result :=
  let products := select_products q (readData PRODUCTS_FILE d) in
  let totalProducts := Z.of_nat (length products) in
  let pageSize := default 12 (q_limit q) in
  let pageNum := default 1 (q_page q) in
  let startIndex := (pageNum - 1) * pageSize in
  let paginatedProducts := JS.Array_slice products startIndex (startIndex + pageSize) in
  {| reply :=
       {| status := 200;
          body := BProducts paginatedProducts
                    {| pg_total := totalProducts; pg_page := pageNum;
                       pg_pageSize := pageSize;
                       pg_totalPages := JS.Math_ceil_div totalProducts pageSize |} |};
     session_after := sess; disk_after := d |}.

End Collation.

End Products.

(** ** Products: the admin update

    PUT /api/products/:id spreads whatever keys the request body has over
    the stored record, so here a product is the JSON object itself: a finite
    map from keys to values.  A key whose value is [undefined] is the same
    as an absent key (neither is written to the file nor sent). *)

Module ProductAdmin.

Inductive Json :=
| JNull
| JBool (b : bool)
| JNum (x : float)
| JStr (s : string)
| JTimestamp (t : Z)   (* the ISO-8601 string of a date, by its time value *)
| JArr (l : list Json)
| JObj (fields : list (string * Json)).

Record ObjDisk := {
  products_file : list (gmap string Json);
  write_log : list (list (gmap string Json) * bool)
}.

Inductive AdminBody :=
| AError (e : ErrorBody)
| AUpdated (msg : string) (product : gmap string Json).

Record AdminResult := {
  a_status : Z;
  a_body : AdminBody;
  a_disk : ObjDisk
}.

Definition writeData (env : Helpers.Env) (data : list (gmap string Json)) (d : ObjDisk)
    : bool * ObjDisk :=
  let ok := Helpers.write_ok env (Helpers.filename Helpers.PRODUCTS_FILE) in
  (ok, {| products_file := if ok then data else products_file d;
          write_log := write_log d ++ [(data, ok)] |}).

(** [p.id === req.params.id] *)
Definition id_is (id : string) (p : gmap string Json) : bool :=
  match p !! "id" with
  | Some (JStr s) => String.eqb s id
  | _ => false
  end.

(** [{ ...o, key: v }] where [v] may be [undefined]. *)
Definition set_key (key : string) (v : option Json) (o : gmap string Json)
    : gmap string Json :=
  match v with
  | Some x => <[key := x]> o
  | None => delete key o
  end.

Definition a_fail (code : Z) (err msg : string) (d : ObjDisk) : AdminResult :=
  {| a_status := code; a_body := AError {| error := err; message := msg |};
     a_disk := d |}.

(** PUT /api/products/:id, after [requireAdmin]. *)
Definition update_product (env : Helpers.Env) (id : string)
    (reqBody : gmap string Json) (d : ObjDisk) : AdminResult :=
  let products := products_file d in
  match JS.Array_findIndex (id_is id) products with
  | None => a_fail 404 "Not found" "Product not found" d
  | Some index =>
      match products !! index with
      | None => a_fail 500 "Server error" "Failed to update product" d
      | Some stored =>
          let updatedProduct :=
            <["updatedAt" := JTimestamp (Helpers.getTimestamp env)]>
              (set_key "createdAt" (stored !! "createdAt")
                 (set_key "id" (stored !! "id") (reqBody ∪ stored))) in
          let products' := <[index := updatedProduct]> products in
          {| a_status := 200;
             a_body := AUpdated "Product updated successfully" updatedProduct;
             a_disk := snd (writeData env products' d) |}
      end
  end.

Definition requireAdmin (next : ObjDisk → AdminResult) (sess : Session) (d : ObjDisk)
    : AdminResult :=
  match session_user sess with
  | None => a_fail 401 "Authentication required" "Please login to access this resource" d
  | Some u =>
      if negb (String.eqb (user_role u) "admin")
      then a_fail 403 "Access denied" "Admin privileges required" d
      else next d
  end.

Definition put_product (env : Helpers.Env) (id : string) (reqBody : gmap string Json)
    : Session → ObjDisk → AdminResult :=
  requireAdmin (update_product env id reqBody).

End ProductAdmin.

(** ** Vocabulary of the properties *)

(** A cart line fails validation against a product collection when its
    product is gone or has less stock than the line asks for. *)
Definition line_fails (products : list Product) (line : CartItem) : Prop :=
  match JS.Array_find (Orders.has_id (item_productId line)) products with
  | None => True
  | Some product => product_stock product < item_quantity line
  end.

(** A request asks for [n] of a product when its quantity is a Number that
    is the integer [n], of a magnitude below 10^21 (from where on the
    decimal digits of a Number are no longer written out in full). *)
Definition asks_for (quantity : JS.Value) (n : Z) : Prop :=
  ∃ x, quantity = JS.Num x ∧ JS.integer_of x = Some n ∧ Z.abs n < 10 ^ 21.

(** The cart handlers keep at most one line per product. *)
Definition distinct_lines (cart : list CartItem) : Prop :=
  NoDup (item_productId <$> cart).

(** The subtotal as the specification words it: the sum, in cart order and
    starting from 0, of price times quantity, with the prices of the product
    collection as read. *)
Definition price_of (products : list Product) (line : CartItem) : float :=
  from_option product_price 0%float
    (JS.Array_find (Orders.has_id (item_productId line)) products).

Definition cart_subtotal_from (start : float) (products : list Product)
    (cart : list CartItem) : float :=
  fold_left
    (fun sum line => (sum + price_of products line * JS.Z2float (item_quantity line))%float)
    cart start.

Definition cart_subtotal := cart_subtotal_from 0%float.

Definition cart_invariant (sess : Session) : Prop :=
  from_option distinct_lines True (session_cart sess).

(** A cart line resolves when the catalog has a product with its id; a
    line that does not is dangling. *)
Definition resolves (products : list Product) (line : CartItem) : bool :=
  match JS.Array_find (Orders.has_id (item_productId line)) products with
  | Some _ => true
  | None => false
  end.

(** A list of orders runs from the newest to the oldest. *)
Definition newest_first (orders : list Order) : Prop :=
  StronglySorted (fun a b => order_createdAt b ≤ order_createdAt a) orders.

(** The same query for another page. *)
Definition with_page (q : Products.Query) (page : Z) : Products.Query :=
  {| Products.q_search := Products.q_search q;
     Products.q_category := Products.q_category q;
     Products.q_subcategory := Products.q_subcategory q;
     Products.q_brand := Products.q_brand q;
     Products.q_minPrice := Products.q_minPrice q;
     Products.q_maxPrice := Products.q_maxPrice q;
     Products.q_sort := Products.q_sort q;
     Products.q_featured := Products.q_featured q;
     Products.q_limit := Products.q_limit q;
     Products.q_page := Some page |}.

(** ** Sample data *)

Module Sample.
Import Helpers.

Definition product (id : string) (price : float) (stock : Z) : Product :=
  {| product_id := id; product_name := ("Item " ++ id)%string; product_description := "";
     product_price := price; product_originalPrice := price;
     product_category := "misc"; product_subcategory := ""; product_brand := "";
     product_images := []; product_stock := stock; product_rating := 0%float;
     product_featured := false; product_tags := []; product_createdAt := 0 |}.

Definition line (id : string) (quantity : Z) : CartItem :=
  {| item_productId := id; item_quantity := quantity; item_addedAt := 0 |}.

Definition env (products_ok orders_ok : bool) : Env :=
  {| now := 1700000000000; random_suffix := "k3x9";
     write_ok := fun file => if String.eqb file "products.json" then products_ok
                             else orders_ok |}.

Definition ann : SessionUser :=
  {| user_id := "u1"; user_name := "Ann"; user_email := "ann@example.org";
     user_role := "customer" |}.

Definition home : Address :=
  {| street := "1 Main St"; city := "Springfield"; state := "IL";
     zipCode := "62701"; country := "US" |}.

Definition request : Orders.CheckoutBody :=
  {| Orders.shippingAddress := Some home; Orders.paymentMethod := None |}.

Definition session (cart : list CartItem) : Session :=
  {| session_user := Some ann; session_cart := Some cart |}.

Definition disk (products : list Product) : Disk :=
  {| products_json := products; orders_json := []; journal := [] |}.

Definition collate (a b : string) : Z :=
  match String.compare a b with
  | Lt => -1
  | Eq => 0
  | Gt => 1
  end.

Definition query (sort : option string) (limit page : option Z) : Products.Query :=
  {| Products.q_search := None; Products.q_category := Some "MISC";
     Products.q_subcategory := None; Products.q_brand := None;
     Products.q_minPrice := Some 10%float; Products.q_maxPrice := None;
     Products.q_sort := sort; Products.q_featured := None;
     Products.q_limit := limit; Products.q_page := page |}.

Definition order (id userId status : string) (createdAt : Z) : Order :=
  {| order_id := id; order_orderNumber := ("ORD-" ++ id)%string; order_userId := userId;
     order_customerName := ""; order_customerEmail := ""; order_items := [];
     order_shippingAddress := home; order_paymentMethod := "card";
     order_subtotal := 0%float; order_shipping := 9.99%float; order_tax := 0%float;
     order_total := 9.99%float; order_status := status; order_statusHistory := [];
     order_createdAt := createdAt; order_updatedAt := createdAt |}.

Definition catalog : list Product :=
  [product "A" 19.99 5; product "B" 45.5 2; product "C" 5 1; product "D" 12 0;
   product "E" 99 7].

(** The words CAFÉ and café: É is the code unit 201 and é the code unit
    233. *)
Definition CAFE : string := ("CAF" ++ String "201" "")%string.
Definition cafe : string := ("caf" ++ String "233" "")%string.

End Sample.

(** ** More vocabulary *)

(** A product with its stock left out of the picture: what checkout must
    not change. *)
Definition sans_stock (p : Product) : Product := with_stock p 0.

Definition stock_nonnegative (products : list Product) : Prop :=
  Forall (fun p => 0 ≤ product_stock p) products.

(** The products of a catalog reply. *)
Definition page_products (r : Result) : list Product :=
  match body (reply r) with
  | BProducts products _ => products
  | _ => []
  end.

(** A list of products runs from the newest to the oldest. *)
Definition newest_product_first (products : list Product) : Prop :=
  StronglySorted (fun a b => product_createdAt b ≤ product_createdAt a) products.

Definition known_sorts : list string :=
  ["price-asc"; "price-desc"; "name-asc"; "name-desc"; "rating"; "newest"].

(** ** Orders: one order, and its status *)

Module OrderRoutes.
Import Helpers.

Inductive OrderBody :=
| OError (e : ErrorBody)
| OOrder (order : Order)
| OUpdated (msg : string) (order : option Order).

Record OrderResult := {
  o_status : Z;
  o_body : OrderBody;
  o_disk : Disk
}.

Definition o_fail (code : Z) (err msg : string) (d : Disk) : OrderResult :=
  {| o_status := code; o_body := OError {| error := err; message := msg |}; o_disk := d |}.

Definition has_order_id (id : string) (o : Order) : bool := String.eqb (order_id o) id.

(** GET /api/orders/:id, after [requireAuth]. *)
Definition get_order (id : string) (user : SessionUser) (d : Disk) : OrderResult :=
  match JS.Array_find (has_order_id id) (readData ORDERS_FILE d) with
  | None => o_fail 404 "Not found" "Order not found" d
  | Some order =>
      if negb (String.eqb (order_userId order) (user_id user)) &&
         negb (String.eqb (user_role user) "admin")
      then o_fail 403 "Access denied" "You cannot view this order" d
      else {| o_status := 200; o_body := OOrder order; o_disk := d |}
  end.

Definition get_order_route (id : string) (sess : Session) (d : Disk) : OrderResult :=
  match session_user sess with
  | None => o_fail 401 "Authentication required" "Please login to access this resource" d
  | Some user => get_order id user d
  end.

Record StatusBody := { sb_status : option string; sb_note : option string }.

Definition validStatuses : list string :=
  ["pending"; "confirmed"; "processing"; "shipped"; "delivered"; "cancelled"].

(** [validStatuses.includes(status)] *)
Definition is_valid_status (status : string) : bool :=
  existsb (String.eqb status) validStatuses.

(** [validStatuses.join(', ')] *)
Definition join_statuses : string := String.concat ", " validStatuses.

(** The three assignments to [orders[orderIndex]]. *)
Definition with_new_status (status : string) (entry : StatusEntry) (updatedAt : Z)
    (o : Order) : Order :=
  {| order_id := order_id o; order_orderNumber := order_orderNumber o;
     order_userId := order_userId o; order_customerName := order_customerName o;
     order_customerEmail := order_customerEmail o; order_items := order_items o;
     order_shippingAddress := order_shippingAddress o;
     order_paymentMethod := order_paymentMethod o;
     order_subtotal := order_subtotal o; order_shipping := order_shipping o;
     order_tax := order_tax o; order_total := order_total o;
     order_status := status;
     order_statusHistory := order_statusHistory o ++ [entry];
     order_createdAt := order_createdAt o;
     order_updatedAt := updatedAt |}.

(** [note || `Status updated to ${status}`] *)
Definition note_or_default (note : option string) (status : string) : string :=
  match note with
  | Some n => if JS.truthy n then n else ("Status updated to " ++ status)%string
  | None => ("Status updated to " ++ status)%string
  end.

(** PUT /api/orders/:id/status, after [requireAdmin]. *)
Definition update_status (env : Env) (id : string) (req : StatusBody) (d : Disk)
    : OrderResult :=
  let invalid :=
    o_fail 400 "Invalid status" ("Status must be one of: " ++ join_statuses)%string d in
  match sb_status req with
  | None => invalid
  | Some status =>
      if negb (is_valid_status status) then invalid
      else
        let orders := readData ORDERS_FILE d in
        match JS.Array_findIndex (has_order_id id) orders with
        | None => o_fail 404 "Not found" "Order not found" d
        | Some orderIndex =>
            let entry :=
              {| se_status := status; se_timestamp := getTimestamp env;
                 se_note := note_or_default (sb_note req) status |} in
            let orders' :=
              alter (with_new_status status entry (getTimestamp env)) orderIndex orders in
            {| o_status := 200;
               o_body := OUpdated "Order status updated" (orders' !! orderIndex);
               o_disk := snd (writeData env ORDERS_FILE orders' d) |}
        end
  end.

(** [requireAdmin] in front of a handler of this module. *)
Definition requireAdmin (next : Disk → OrderResult) (sess : Session) (d : Disk)
    : OrderResult :=
  match session_user sess with
  | None => o_fail 401 "Authentication required" "Please login to access this resource" d
  | Some u =>
      if negb (String.eqb (user_role u) "admin")
      then o_fail 403 "Access denied" "Admin privileges required" d
      else next d
  end.

Definition put_status (env : Env) (id : string) (req : StatusBody)
    : Session → Disk → OrderResult :=
  requireAdmin (update_status env id req).

End OrderRoutes.

(** ** Products: categories, one product, and deletion *)

Module CatalogRoutes.
Import Helpers.

(** [[...new Set(values)]]: the distinct values, each at its first
    occurrence. *)
Definition Set_values (values : list string) : list string :=
  fold_left
    (fun seen v => if existsb (String.eqb v) seen then seen else seen ++ [v])
    values [].

Record Categories := {
  categories : list string;
  subcategories : list string;
  brands : list string
}.

(** GET /api/products/categories *)
Definition get_categories (d : Disk) : Categories :=
  let products := readData PRODUCTS_FILE d in
  {| categories := Set_values (product_category <$> products);
     subcategories := Set_values (product_subcategory <$> products);
     brands := Set_values (product_brand <$> products) |}.

Inductive ProductBody :=
| PError (e : ErrorBody)
| PProduct (product : Product) (relatedProducts : list Product).

Record ProductResult := { p_status : Z; p_body : ProductBody }.

(** GET /api/products/:id *)
Definition get_product (id : string) (d : Disk) : ProductResult :=
  let products := readData PRODUCTS_FILE d in
  match JS.Array_find (Orders.has_id id) products with
  | None =>
      {| p_status := 404;
         p_body := PError {| error := "Not found"; message := "Product not found" |} |}
  | Some product =>
      let relatedProducts :=
        JS.Array_slice
          (List.filter
             (fun p => String.eqb (product_category p) (product_category product) &&
                       negb (String.eqb (product_id p) (product_id product)))
             products)
          0 4 in
      {| p_status := 200; p_body := PProduct product relatedProducts |}
  end.

End CatalogRoutes.

Module ProductDelete.
Import ProductAdmin.

Record DeleteResult := {
  del_status : Z;
  del_body : ErrorBody + string;
  del_disk : ObjDisk
}.

(** DELETE /api/products/:id, after [requireAdmin]. *)
Definition delete_product (env : Helpers.Env) (id : string) (d : ObjDisk) : DeleteResult :=
  let products := products_file d in
  match JS.Array_findIndex (id_is id) products with
  | None =>
      {| del_status := 404;
         del_body := inl {| error := "Not found"; message := "Product not found" |};
         del_disk := d |}
  | Some index =>
      {| del_status := 200;
         del_body := inr "Product deleted successfully";
         del_disk := snd (writeData env (delete index products) d) |}
  end.

Definition delete_route (env : Helpers.Env) (id : string) (sess : Session) (d : ObjDisk)
    : DeleteResult :=
  match session_user sess with
  | None =>
      {| del_status := 401;
         del_body := inl {| error := "Authentication required";
                            message := "Please login to access this resource" |};
         del_disk := d |}
  | Some u =>
      if negb (String.eqb (user_role u) "admin")
      then {| del_status := 403;
              del_body := inl {| error := "Access denied";
                                 message := "Admin privileges required" |};
              del_disk := d |}
      else delete_product env id d
  end.

End ProductDelete.

(** No two products of the collection carry the same id. *)
Definition distinct_ids (products : list (gmap string ProductAdmin.Json)) : Prop :=
  NoDup ((fun p => p !! "id") <$> products).

(** ** Regular expressions, whitespace and trimming (host functions)

    A string is read as its sequence of code units, here below 256. *)

Module Regex.

Inductive t :=
| Empty                       (* matches nothing *)
| Eps                         (* the empty string *)
| Class (p : ascii → bool)    (* one character of a class *)
| Cat (r s : t)
| Alt (r s : t)
| Star (r : t).

Definition Chr (c : ascii) : t := Class (Ascii.eqb c).
Definition Plus (r : t) : t := Cat r (Star r).

Fixpoint nullable (r : t) : bool :=
  match r with
  | Empty => false
  | Eps => true
  | Class _ => false
  | Cat r s => nullable r && nullable s
  | Alt r s => nullable r || nullable s
  | Star _ => true
  end.

(** What is left of [r] to match after the character [c]. *)
Fixpoint deriv (c : ascii) (r : t) : t :=
  match r with
  | Empty => Empty
  | Eps => Empty
  | Class p => if p c then Eps else Empty
  | Cat r s =>
      if nullable r then Alt (Cat (deriv c r) s) (deriv c s) else Cat (deriv c r) s
  | Alt r s => Alt (deriv c r) (deriv c s)
  | Star r => Cat (deriv c r) (Star r)
  end.

(** [/^r$/.test(s)] *)
Fixpoint test (r : t) (s : list ascii) : bool :=
  match s with
  | [] => nullable r
  | c :: s' => test (deriv c r) s'
  end.

(** The strings a regular expression denotes. *)
Inductive lang : t → list ascii → Prop :=
| lang_eps : lang Eps []
| lang_class p c : p c = true → lang (Class p) [c]
| lang_cat r s u v : lang r u → lang s v → lang (Cat r s) (u ++ v)
| lang_alt_l r s u : lang r u → lang (Alt r s) u
| lang_alt_r r s u : lang s u → lang (Alt r s) u
| lang_star_nil r : lang (Star r) []
| lang_star_more r u v : lang r u → lang (Star r) v → lang (Star r) (u ++ v).

End Regex.

(** ** Registration and login *)

Module AuthRoutes.
Import Helpers.

(** [[^\s@]] *)
Definition not_space_or_at (c : ascii) : bool :=
  negb (Text.is_space c) && negb (Ascii.eqb c "@").

(** [/^[^\s@]+@[^\s@]+\.[^\s@]+$/] *)
Definition emailRegex : Regex.t :=
  Regex.Cat (Regex.Plus (Regex.Class not_space_or_at))
    (Regex.Cat (Regex.Chr "@")
       (Regex.Cat (Regex.Plus (Regex.Class not_space_or_at))
          (Regex.Cat (Regex.Chr ".")
             (Regex.Plus (Regex.Class not_space_or_at))))).

Definition isValidEmail (email : string) : bool :=
  Regex.test emailRegex (list_ascii_of_string email).

Record User := {
  u_id : string;
  u_name : string;
  u_email : string;
  u_password : string;
  u_role : string;
  u_avatar : option string;
  u_phone : string;
  u_address : Address;
  u_createdAt : Z;
  u_updatedAt : Z
}.

Record UserDisk := {
  users_json : list User;
  users_journal : list (list User * bool)
}.

Definition USERS_FILE : string := "users.json".

Definition writeUsers (env : Env) (data : list User) (d : UserDisk) : bool * UserDisk :=
  let ok := write_ok env USERS_FILE in
  (ok, {| users_json := if ok then data else users_json d;
          users_journal := users_journal d ++ [(data, ok)] |}).

Inductive AuthBody :=
| AuthError (e : ErrorBody)
| AuthUser (msg : string) (user : SessionUser).

Record AuthResult := {
  auth_status : Z;
  auth_body : AuthBody;
  auth_session : Session;
  auth_disk : UserDisk
}.

Definition refuse (code : Z) (err msg : string) (sess : Session) (d : UserDisk)
    : AuthResult :=
  {| auth_status := code; auth_body := AuthError {| error := err; message := msg |};
     auth_session := sess; auth_disk := d |}.

(** The user as the session holds it ([avatar], which registration leaves
    null, is not carried along). *)
Definition session_view (u : User) : SessionUser :=
  {| user_id := u_id u; user_name := u_name u; user_email := u_email u;
     user_role := u_role u |}.

Definition same_email (email : string) (u : User) : bool :=
  String.eqb (JS.toLowerCase (u_email u)) (JS.toLowerCase email).

Record RegisterBody := {
  reg_name : option string;
  reg_email : option string;
  reg_password : option string;
  reg_confirmPassword : option string
}.

Record LoginBody := {
  login_email : option string;
  login_password : option string
}.

(** [!x] for a field that may be missing or empty. *)
Definition missing (x : option string) : bool :=
  match x with
  | Some s => negb (JS.truthy s)
  | None => true
  end.

Section Bcrypt.

(** The password hashing library: [bcrypt.hash(password, 10)] with the salt
    it draws for the request, and [bcrypt.compare(password, hash)]. *)
Variable bcrypt_hash : string → string.
Variable bcrypt_compare : string → string → bool.

(** POST /api/auth/register *)
Definition register (env : Env) (req : RegisterBody) (sess : Session) (d : UserDisk)
    : AuthResult :=
  if missing (reg_name req) || missing (reg_email req) || missing (reg_password req) then
    refuse 400 "Missing fields" "Name, email, and password are required" sess d
  else
    let name := default "" (reg_name req) in
    let email := default "" (reg_email req) in
    let password := default "" (reg_password req) in
    if negb (isValidEmail email) then
      refuse 400 "Invalid email" "Please provide a valid email address" sess d
    else if (String.length password <? 6)%nat then
      refuse 400 "Weak password" "Password must be at least 6 characters" sess d
    else if negb (bool_decide (reg_confirmPassword req = Some password)) then
      refuse 400 "Password mismatch" "Passwords do not match" sess d
    else
      let users := users_json d in
      match JS.Array_find (same_email email) users with
      | Some _ =>
          refuse 409 "User exists" "An account with this email already exists" sess d
      | None =>
          let hashedPassword := bcrypt_hash password in
          let newUser :=
            {| u_id := generateId env;
               u_name := Text.trim name;
               u_email := Text.trim (JS.toLowerCase email);
               u_password := hashedPassword;
               u_role := if (length users =? 0)%nat then "admin" else "customer";
               u_avatar := None;
               u_phone := "";
               u_address := {| street := ""; city := ""; state := ""; zipCode := "";
                               country := "" |};
               u_createdAt := getTimestamp env;
               u_updatedAt := getTimestamp env |} in
          {| auth_status := 201;
             auth_body := AuthUser "Registration successful" (session_view newUser);
             auth_session := {| session_user := Some (session_view newUser);
                                session_cart := Some [] |};
             auth_disk := snd (writeUsers env (users ++ [newUser]) d) |}
      end.

(** POST /api/auth/login *)
Definition login (req : LoginBody) (sess : Session) (d : UserDisk) : AuthResult :=
  if missing (login_email req) || missing (login_password req) then
    refuse 400 "Missing fields" "Email and password are required" sess d
  else
    let email := default "" (login_email req) in
    let password := default "" (login_password req) in
    match JS.Array_find (same_email email) (users_json d) with
    | None => refuse 401 "Invalid credentials" "Invalid email or password" sess d
    | Some user =>
        if negb (bcrypt_compare password (u_password user)) then
          refuse 401 "Invalid credentials" "Invalid email or password" sess d
        else
          {| auth_status := 200;
             auth_body := AuthUser "Login successful" (session_view user);
             auth_session :=
               {| session_user := Some (session_view user);
                  session_cart := Some (default [] (session_cart sess)) |};
             auth_disk := d |}
    end.

End Bcrypt.

(** No two users share an email, whatever the case of its letters. *)
Definition emails_unique (users : list User) : Prop :=
  NoDup ((fun u => JS.toLowerCase (u_email u)) <$> users).

End AuthRoutes.

(** ** More sample data *)

Module SampleAuth.
Import AuthRoutes.

(** A stand-in for the hashing library. *)
Definition hash (password : string) : string := ("$2b$10$" ++ password)%string.
Definition compare (password hashed : string) : bool := String.eqb hashed (hash password).

Definition form (name email password : string) : RegisterBody :=
  {| reg_name := Some name; reg_email := Some email; reg_password := Some password;
     reg_confirmPassword := Some password |}.

Definition user (id email role : string) : User :=
  {| u_id := id; u_name := "Someone"; u_email := email; u_password := hash "secret1";
     u_role := role; u_avatar := None; u_phone := "";
     u_address := {| street := ""; city := ""; state := ""; zipCode := ""; country := "" |};
     u_createdAt := 0; u_updatedAt := 0 |}.

Definition disk (users : list User) : UserDisk :=
  {| users_json := users; users_journal := [] |}.

Definition anonymous : Session := {| session_user := None; session_cart := None |}.

End SampleAuth.

(** * Properties *)

(** ** The host functions on known values *)

Section HostChecks.

Example Math_round_values :
  JS.Math_round 2.5 = 3%float ∧
  JS.Math_round (-2.5) = (-2)%float ∧
  JS.Math_round 2.4999 = 2%float ∧
  JS.Math_round 0.49999999999999994 = 0%float ∧
  JS.Math_round (-0.2) = (-0)%float ∧
  JS.Math_round 1107.5076 = 1108%float ∧
  JS.Math_round 9007199254740993 = 9007199254740992%float.
Proof. vm_compute. done. Qed.

Example round2_values :
  JS.round2 0.080376 = 0.08%float ∧
  JS.round2 11.075076 = 11.08%float ∧
  JS.round2 1.005 = 1%float ∧
  JS.round2 117.99 = 117.99%float.
Proof. vm_compute. done. Qed.

Example Math_ceil_div_values :
  JS.Math_ceil_div 7 2 = Some 4 ∧
  JS.Math_ceil_div 8 2 = Some 4 ∧
  JS.Math_ceil_div 0 12 = Some 0 ∧
  JS.Math_ceil_div 7 0 = None.
Proof. done. Qed.

Example Array_slice_values :
  JS.Array_slice [1; 2; 3; 4; 5] 1 3 = [2; 3] ∧
  JS.Array_slice [1; 2; 3; 4; 5] 4 8 = [5] ∧
  JS.Array_slice [1; 2; 3; 4; 5] 6 8 = [] ∧
  JS.Array_slice [1; 2; 3; 4; 5] (-2) 5 = [4; 5] ∧
  JS.Array_slice [1; 2; 3; 4; 5] 3 1 = [].
Proof. done. Qed.

(** [parseInt] as the cart handlers call it, on any value. *)
Example parseInt_values :
  JS.parseInt (JS.Num 3) = Some (JS.Finite 3) ∧
  JS.parseInt (JS.Num 2.9) = Some (JS.Finite 2) ∧
  JS.parseInt (JS.Num (-2.9)) = Some (JS.Finite (-2)) ∧
  JS.parseInt (JS.Num 0.5) = Some (JS.Finite 0) ∧
  JS.parseInt (JS.Num 9007199254740993) = Some (JS.Finite 9007199254740992) ∧
  JS.parseInt (JS.Num 123456789012345680000) = Some (JS.Finite 123456789012345683968) ∧
  JS.parseInt (JS.Num 1e21) = Some (JS.Finite 1) ∧
  JS.parseInt (JS.Num 2.5e21) = Some (JS.Finite 2) ∧
  JS.parseInt (JS.Num 1e23) = Some (JS.Finite 1) ∧
  JS.parseInt (JS.Num (-7e300)) = Some (JS.Finite (-7)) ∧
  JS.parseInt (JS.Num 0.000001) = Some (JS.Finite 0) ∧
  JS.parseInt (JS.Num 0.0000005) = Some (JS.Finite 5) ∧
  JS.parseInt (JS.Num 5e-324) = Some (JS.Finite 5) ∧
  JS.parseInt (JS.Num nan) = Some JS.NaN ∧
  JS.parseInt (JS.Num infinity) = Some JS.NaN ∧
  JS.parseInt (JS.Str "42") = Some (JS.Finite 42) ∧
  JS.parseInt (JS.Str "  -12abc") = Some (JS.Finite (-12)) ∧
  JS.parseInt (JS.Str "99x") = Some (JS.Finite 99) ∧
  JS.parseInt (JS.Str "2.9") = Some (JS.Finite 2) ∧
  JS.parseInt (JS.Str "1e3") = Some (JS.Finite 1) ∧
  JS.parseInt (JS.Str "0x1F") = Some (JS.Finite 31) ∧
  JS.parseInt (JS.Str "-0X10") = Some (JS.Finite (-16)) ∧
  JS.parseInt (JS.Str "0x") = Some JS.NaN ∧
  JS.parseInt (JS.Str "0b11") = Some (JS.Finite 0) ∧
  JS.parseInt (JS.Str "9007199254740993") = Some (JS.Finite 9007199254740992) ∧
  JS.parseInt (JS.Str "abc") = Some JS.NaN ∧
  JS.parseInt (JS.Str "") = Some JS.NaN ∧
  JS.parseInt (JS.Str "Infinity") = Some JS.NaN ∧
  JS.parseInt JS.Null = Some JS.NaN ∧
  JS.parseInt (JS.Bool true) = Some JS.NaN ∧
  JS.parseInt JS.Undefined = Some JS.NaN ∧
  JS.parseInt (JS.Object (Some "5,6")) = Some (JS.Finite 5) ∧
  JS.parseInt (JS.Object (Some "[object Object]")) = Some JS.NaN ∧
  JS.parseInt (JS.Object None) = None.
Proof. vm_compute. repeat split. Qed.

(** [ToNumber], as [<], [<=] and [>] apply it to a value they compare with
    a Number. *)
Example ToNumber_values :
  JS.ToNumber (JS.Str "42") = Some 42%float ∧
  JS.ToNumber (JS.Str "  12  ") = Some 12%float ∧
  JS.ToNumber (JS.Str "") = Some 0%float ∧
  JS.ToNumber (JS.Str "2.9") = Some 2.9%float ∧
  JS.ToNumber (JS.Str ".5") = Some 0.5%float ∧
  JS.ToNumber (JS.Str "5.") = Some 5%float ∧
  JS.ToNumber (JS.Str "-1.5e3") = Some (-1500)%float ∧
  JS.ToNumber (JS.Str "0.1") = Some 0.1%float ∧
  JS.ToNumber (JS.Str "1e-5") = Some 1e-5%float ∧
  JS.ToNumber (JS.Str "9007199254740993") = Some 9007199254740992%float ∧
  JS.ToNumber (JS.Str "1.7976931348623157e308") = Some 1.7976931348623157e308%float ∧
  JS.ToNumber (JS.Str "1.7976931348623159e308") = Some infinity ∧
  JS.ToNumber (JS.Str "4.9e-324") = Some 5e-324%float ∧
  JS.ToNumber (JS.Str "2.4e-324") = Some 0%float ∧
  JS.ToNumber (JS.Str "0x1F") = Some 31%float ∧
  JS.ToNumber (JS.Str "0b101") = Some 5%float ∧
  JS.ToNumber (JS.Str "0o17") = Some 15%float ∧
  JS.ToNumber (JS.Str "-Infinity") = Some neg_infinity ∧
  JS.ToNumber JS.Null = Some 0%float ∧
  JS.ToNumber (JS.Bool true) = Some 1%float ∧
  JS.ToNumber (JS.Object (Some "7")) = Some 7%float ∧
  JS.ToNumber (JS.Object None) = None ∧
  forallb (fun s => match JS.exact <$> JS.ToNumber (JS.Str s) with
                    | Some JS.ENaN => true
                    | _ => false
                    end)
    ["99x"; "abc"; "-0x10"; "0x"; "."; "1e"; "1e+"; "e5"; "- 5"; "1 2"; "1,5";
     "infinity"; "+-5"; "12px"] = true.
Proof. vm_compute. repeat split. Qed.

(** The comparisons of a Number with an integer, and truthiness. *)
Example comparison_values :
  JS.le_Z 0 0 = true ∧ JS.le_Z (-0) 0 = true ∧ JS.le_Z 0.5 0 = false ∧
  JS.le_Z nan 0 = false ∧ JS.le_Z neg_infinity 0 = true ∧
  JS.gt_Z 2.9 2 = true ∧ JS.gt_Z 2 2 = false ∧ JS.gt_Z nan 2 = false ∧
  JS.gt_Z infinity 2 = true ∧ JS.gt_Z 9007199254740992 9007199254740993 = false ∧
  JS.integer_of 3 = Some 3 ∧ JS.integer_of 2.5 = None ∧ JS.integer_of 1e21 = Some (10 ^ 21) ∧
  JS.integer_of nan = None ∧
  JS.ToBoolean (JS.Str "") = false ∧ JS.ToBoolean (JS.Str "0") = true ∧
  JS.ToBoolean (JS.Num 0) = false ∧ JS.ToBoolean (JS.Num nan) = false ∧
  JS.ToBoolean (JS.Num 7) = true ∧ JS.ToBoolean JS.Null = false ∧
  JS.ToBoolean (JS.Object None) = true.
Proof. vm_compute. repeat split. Qed.

(** The Number nearest to an integer, computed on integers, is the one
    that the conversion of the floating-point library yields. *)
Example round_int_values :
  forallb (fun z =>
             match JS.round_int z, JS.exact (JS.Z2float z) with
             | JS.Finite n, JS.EFraction num den => num =? n * den
             | JS.Infinity negative, JS.EInfinity negative' =>
                 Bool.eqb negative negative'
             | _, _ => false
             end)
    [0; 1; -1; 2 ^ 53; 2 ^ 53 + 1; 2 ^ 53 + 2; 2 ^ 53 + 3; - (2 ^ 53 + 3);
     2 ^ 60 + 2 ^ 7; 2 ^ 60 + 2 ^ 7 + 1; 2 ^ 60 + 3 * 2 ^ 7; 10 ^ 21; 10 ^ 22 + 1;
     123456789012345678901234567890; 2 ^ 1024 - 2 ^ 970 - 1; 2 ^ 1024 - 2 ^ 970;
     - 2 ^ 1024; 10 ^ 400] = true ∧
  JS.round_int (2 ^ 53 + 1) = JS.Finite (2 ^ 53) ∧
  JS.round_int (2 ^ 53 + 3) = JS.Finite (2 ^ 53 + 4) ∧
  JS.plus (2 ^ 53) (JS.Finite 1) = JS.Finite (2 ^ 53) ∧
  JS.plus 5 JS.NaN = JS.NaN.
Proof. vm_compute. repeat split. Qed.

(** The Numbers 1e21 and 1e-6, between which [ToString] writes a Number
    without an exponent. *)
Example exponent_notation_bounds :
  JS.exact 1e21 = JS.EFraction (10 ^ 21) 1 ∧
  JS.exact 1e-6 = JS.EFraction 4722366482869645 (2 ^ 72).
Proof. vm_compute. done. Qed.

(** É is the code unit 201 and é the code unit 233. *)
Example toLowerCase_values :
  JS.toLowerCase "Desk LAMP 42" = "desk lamp 42" ∧
  JS.toLowerCase (String "067" (String "065" (String "070" (String "201" ""))))
    = String "099" (String "097" (String "102" (String "233" ""))) ∧
  JS.lower_unit "192" = "224"%char ∧ JS.lower_unit "222" = "254"%char ∧
  JS.lower_unit "215" = "215"%char ∧ JS.lower_unit "223" = "223"%char ∧
  JS.lower_unit "247" = "247"%char ∧ JS.lower_unit "255" = "255"%char ∧
  JS.lower_unit "181" = "181"%char ∧ JS.lower_unit "064" = "064"%char ∧
  JS.lower_unit "091" = "091"%char.
Proof. vm_compute. done. Qed.

Example string_values :
  JS.toString36 0 = "0" ∧
  JS.toString36 35 = "z" ∧
  JS.toString36 36 = "10" ∧
  JS.toUpperCase (JS.toString36 1700000000000) = "LOYW3V28" ∧
  JS.toLowerCase "Desk LAMP" = "desk lamp" ∧
  JS.includes "desk lamp" "k l" = true ∧
  JS.includes "desk lamp" "lamps" = false.
Proof. vm_compute. done. Qed.

End HostChecks.

(** ** Numbers that are integers *)

Section NumberFacts.

Lemma exact_den_pos x num den : JS.exact x = JS.EFraction num den → 0 < den.
Proof.
  unfold JS.exact. destruct (Prim2SF x) as [s|s| |s m e]; try done.
  - intros [= <- <-]. lia.
  - destruct (0 <=? e) eqn:He; intros [= <- <-]; [lia|].
    apply Z.pow_pos_nonneg; lia.
Qed.

Lemma integer_of_exact x n :
  JS.integer_of x = Some n →
  ∃ den, JS.exact x = JS.EFraction (n * den) den ∧ 0 < den.
Proof.
  unfold JS.integer_of. destruct (JS.exact x) as [|s|num den] eqn:Hx; try done.
  destruct (num mod den =? 0) eqn:Hmod; [|done]. intros [= <-].
  pose proof (exact_den_pos x num den Hx) as Hden.
  apply Z.eqb_eq in Hmod. exists den. split; [|done].
  f_equal. rewrite Z.mul_comm. apply Z.div_exact; [lia|done].
Qed.

(** A Number that is the integer [n] compares as [n] does. *)
Lemma integer_compare_Z x n k :
  JS.integer_of x = Some n → JS.compare_Z x k = Some (n ?= k).
Proof.
  intros (den & Hx & Hden)%integer_of_exact. unfold JS.compare_Z. rewrite Hx.
  f_equal. symmetry. apply Zmult_compare_compat_r. lia.
Qed.


Lemma integer_gt_Z x n k : JS.integer_of x = Some n → JS.gt_Z x k = (k <? n).
Proof.
  intros Hx. unfold JS.gt_Z. rewrite (integer_compare_Z x n k Hx).
  unfold Z.ltb. rewrite (Z.compare_antisym n k). by destruct (n ?= k).
Qed.

(** [parseInt] of a Number that is an integer below 10^21 is that
    integer. *)
Lemma integer_parseInt x n :
  JS.integer_of x = Some n → Z.abs n < 10 ^ 21 →
  JS.parseInt (JS.Num x) = Some (JS.Finite n).
Proof.
  intros (den & Hx & Hden)%integer_of_exact Hn.
  unfold JS.parseInt, JS.parseInt_number. rewrite Hx. do 2 f_equal.
  destruct (n * den =? 0) eqn:Hzero.
  - apply Z.eqb_eq in Hzero. f_equal. nia.
  - apply Z.eqb_neq in Hzero.
    assert (Hplain : JS.exponent_notation (n * den) den = false).
    { unfold JS.exponent_notation. rewrite Z.abs_mul, (Z.abs_eq den) by lia.
      change (10 ^ 21) with 1000000000000000000000 in *.
      change (2 ^ 72) with 4722366482869645213696.
      assert (1 ≤ Z.abs n) by lia.
      apply orb_false_iff. split; [apply Z.leb_gt|apply Z.ltb_ge].
      - apply Z.mul_lt_mono_pos_r; lia.
      - transitivity (1 * den * 4722366482869645213696); [lia|].
        apply Z.mul_le_mono_nonneg_r; [lia|].
        apply Z.mul_le_mono_nonneg_r; lia. }
    rewrite Hplain. f_equal. apply Z.quot_mul. lia.
Qed.


Lemma digits2_pos_size p : digits2_pos p = Pos.size p.
Proof. induction p; simpl; congruence. Qed.

Lemma size_iter_xO p d : Pos.size (Pos.iter xO p d) = (Pos.size p + d)%positive.
Proof.
  induction d as [|d IH] using Pos.peano_ind.
  - simpl. lia.
  - rewrite Pos.iter_succ. simpl. rewrite IH. lia.
Qed.

Lemma pos_iter_xO p d : Z.pos (Pos.iter xO p d) = Z.pos p * 2 ^ Z.pos d.
Proof.
  induction d as [|d IH] using Pos.peano_ind.
  - simpl. lia.
  - rewrite Pos.iter_succ, Pos2Z.inj_succ, Z.pow_succ_r by lia.
    rewrite Pos2Z.inj_xO, IH. lia.
Qed.

Lemma size_bound p : Z.pos p < 2 ^ 53 → Z.pos (Pos.size p) ≤ 53.
Proof.
  intros Hp. pose proof (Pos.size_le p) as Hle.
  destruct (Z.le_gt_cases (Z.pos (Pos.size p)) 53) as [|Hgt]; [done|].
  exfalso.
  assert (2 ^ 54 ≤ 2 ^ Z.pos (Pos.size p)) by (apply Z.pow_le_mono_r; lia).
  assert (Z.pos (2 ^ Pos.size p) ≤ Z.pos p~0) by (apply Pos2Z.pos_le_pos; exact Hle).
  rewrite Pos2Z.inj_pow in *. change (Z.pos 2) with 2 in *. lia.
Qed.

Lemma shr_fexp_full m e :
  Zdigits2 (Z.pos m) = 53 → -1074 ≤ e →
  shr_fexp prec emax (Z.pos m) e loc_Exact =
    ({| shr_m := Z.pos m; shr_r := false; shr_s := false |}, e).
Proof.
  intros Hd He. unfold shr_fexp, fexp. rewrite Hd.
  replace (Z.max (53 + e - prec) emin - e) with 0
    by (unfold SpecFloat.emin, prec, emax; lia).
  reflexivity.
Qed.

(** An integer below 2^53 needs no rounding: its Number has a mantissa
    that is the integer shifted to 53 bits. *)
Lemma binary_round_small s p :
  Z.pos p < 2 ^ 53 →
  ∃ m e,
    binary_round prec emax s p 0 = S754_finite s m e ∧
    valid_binary (S754_finite s m e) = true ∧
    -52 ≤ e ≤ 0 ∧ Z.pos m = Z.pos p * 2 ^ (- e).
Proof.
  intros Hp. pose proof (size_bound p Hp) as Hsize.
  unfold binary_round. rewrite digits2_pos_size.
  assert (Hfexp : fexp prec emax (Z.pos (Pos.size p) + 0) = Z.pos (Pos.size p) - 53).
  { unfold fexp, SpecFloat.emin, prec, emax. lia. }
  rewrite Hfexp. unfold shl_align.
  assert (Hfinish : ∀ m e,
    Zdigits2 (Z.pos m) = 53 → -52 ≤ e ≤ 0 →
    binary_round_aux prec emax s (Z.pos m) e loc_Exact = S754_finite s m e ∧
    valid_binary (S754_finite s m e) = true).
  { intros m e Hd He. unfold binary_round_aux.
    rewrite (shr_fexp_full m e Hd) by lia. cbn [shr_m loc_of_shr_record round_nearest_even].
    rewrite (shr_fexp_full m e Hd) by lia. cbn [shr_m].
    assert ((e <=? emax - prec) = true) as -> by (apply Z.leb_le; unfold emax, prec; lia).
    split; [done|].
    unfold SpecFloat.valid_binary, bounded, canonical_mantissa.
    simpl in Hd. rewrite Hd. apply andb_true_iff. split.
    - apply Z.eqb_eq. unfold fexp, SpecFloat.emin, prec, emax. lia.
    - apply Z.leb_le. unfold emax, prec. lia. }
  destruct (Z.pos (Pos.size p) - 53 - 0) as [|d|d] eqn:Hshift.
  - destruct (Hfinish p 0) as [Hround Hvalid].
    + simpl. rewrite digits2_pos_size. lia.
    + lia.
    + exists p, 0. rewrite Z.mul_1_r. repeat split; try done; lia.
  - lia.
  - destruct (Hfinish (Pos.iter xO p d) (Z.pos (Pos.size p) - 53)) as [Hround Hvalid].
    + simpl. rewrite digits2_pos_size, size_iter_xO. lia.
    + lia.
    + exists (Pos.iter xO p d), (Z.pos (Pos.size p) - 53).
      split; [done|]. split; [done|]. split; [lia|].
      rewrite pos_iter_xO. f_equal. f_equal. lia.
Qed.

(** Every integer up to 2^53 in magnitude is a Number, and that Number is
    the integer. *)
Lemma Z2float_integer n : Z.abs n ≤ 2 ^ 53 → JS.integer_of (JS.Z2float n) = Some n.
Proof.
  intros Hn.
  destruct (Z.eq_dec (Z.abs n) (2 ^ 53)) as [Hmax|Hless].
  { assert (n = 2 ^ 53 ∨ n = - 2 ^ 53) as [->| ->] by lia; vm_compute; reflexivity. }
  assert (Hexact : ∀ s p, Z.pos p < 2 ^ 53 →
            JS.integer_of (SF2Prim (binary_round prec emax s p 0))
            = Some (if s then Z.neg p else Z.pos p)).
  { intros s p Hp. destruct (binary_round_small s p Hp) as (m & e & -> & Hvalid & He & Hm).
    unfold JS.integer_of, JS.exact. rewrite (Prim2SF_SF2Prim _ Hvalid).
    assert (Hsigned : (if s then Z.neg m else Z.pos m)
                      = (if s then Z.neg p else Z.pos p) * 2 ^ (- e)).
    { destruct s; [|done]. rewrite <- !Pos2Z.opp_pos, Hm. lia. }
    destruct (0 <=? e) eqn:Hsign.
    - apply Z.leb_le in Hsign. assert (e = 0) as -> by lia.
      rewrite Hsigned. simpl (2 ^ _). rewrite !Z.mul_1_r, Z.mod_1_r, Z.div_1_r. done.
    - rewrite Hsigned, Z.mod_mul, Z.div_mul by (apply Z.pow_nonzero; lia). done. }
  unfold JS.Z2float. destruct n as [|p|p]; simpl binary_normalize.
  - vm_compute. reflexivity.
  - apply (Hexact false). lia.
  - apply (Hexact true). lia.
Qed.

(** So a request whose quantity is the JSON number [n], an integer up to
    2^53 in magnitude, asks for [n]. *)
Lemma integer_asks_for n : Z.abs n ≤ 2 ^ 53 → asks_for (JS.Num (JS.Z2float n)) n.
Proof.
  intros Hn. exists (JS.Z2float n). split; [done|]. split; [by apply Z2float_integer|].
  change (10 ^ 21) with 1000000000000000000000.
  change (2 ^ 53) with 9007199254740992 in Hn. lia.
Qed.

(** A value that converts to a Number converts to a string as well. *)
Lemma parseInt_defined v x : JS.ToNumber v = Some x → ∃ parsed, JS.parseInt v = Some parsed.
Proof.
  unfold JS.ToNumber, JS.parseInt. destruct v as [| | | | |[s|]]; simpl; eauto. done.
Qed.

End NumberFacts.

(** ** Checkout: validation failures *)

Section CheckoutValidation.
Import Helpers Orders.

Lemma find_update_other pid pid' (g : Product → Product) products :
  pid ≠ pid' →
  (∀ p, product_id (g p) = product_id p) →
  JS.Array_find (has_id pid') (JS.Array_update_found (has_id pid) g products)
  = JS.Array_find (has_id pid') products.
Proof.
  intros Hne Hg. unfold JS.Array_find.
  induction products as [|p ps IH]; simpl; [done|].
  destruct (has_id pid p) eqn:Hp; simpl.
  - unfold has_id in *. rewrite Hg.
    apply String.eqb_eq in Hp.
    destruct (String.eqb_spec (product_id p) pid'); [congruence|done].
  - destruct (has_id pid' p); [done|apply IH].
Qed.

Lemma line_fails_update_other products line pid q :
  item_productId line ≠ pid →
  line_fails products line →
  line_fails
    (JS.Array_update_found (has_id pid) (fun p => with_stock p (product_stock p - q)) products)
    line.
Proof.
  intros Hne Hf. unfold line_fails in *.
  rewrite find_update_other; [done|congruence|done].
Qed.

(** With one line per product, every line meets the stock that was read
    from disk, so a line that fails against the disk stops the loop. *)
Lemma walk_cart_rejects cart : ∀ products orderItems subtotal line,
  distinct_lines cart →
  line ∈ cart →
  line_fails products line →
  ∃ e, walk_cart cart products orderItems subtotal = inl e.
Proof.
  unfold distinct_lines.
  induction cart as [|c rest IH]; intros products orderItems subtotal line Hnd Hin Hf.
  - by apply elem_of_nil in Hin.
  - rewrite fmap_cons in Hnd. apply NoDup_cons in Hnd as [Hc Hnd].
    simpl.
    destruct (JS.Array_find (has_id (item_productId c)) products) as [product|] eqn:Hfind;
      [|eauto].
    destruct (product_stock product <? item_quantity c) eqn:Hlt; [eauto|].
    apply elem_of_cons in Hin as [->|Hin].
    + unfold line_fails in Hf. rewrite Hfind in Hf.
      apply Z.ltb_ge in Hlt. lia.
    + apply (IH _ _ _ line); [done..|].
      apply line_fails_update_other; [|done].
      intros Heq. apply Hc. rewrite <- Heq.
      by apply list_elem_of_fmap_2.
Qed.

Lemma walk_cart_app pre : ∀ rest products orderItems subtotal,
  walk_cart (pre ++ rest) products orderItems subtotal =
  match walk_cart pre products orderItems subtotal with
  | inl e => inl e
  | inr (products', orderItems', subtotal') =>
      walk_cart rest products' orderItems' subtotal'
  end.
Proof.
  induction pre as [|c pre IH]; intros rest products orderItems subtotal; [done|].
  simpl. destruct (JS.Array_find _ products) as [product|]; [|done].
  destruct (product_stock product <? item_quantity c); [done|]. apply IH.
Qed.

(** The loop as it runs, for any cart at all: when the lines before [line]
    pass, and [line] fails against the products as those lines left them in
    memory, the handler answers 400 and the decrements are dropped. *)
Lemma checkout_stops_at_failing_line env req user sess d pre line post
    products_mem orderItems subtotal :
  session_cart sess = Some (pre ++ line :: post) →
  walk_cart pre (products_json d) [] 0%float = inr (products_mem, orderItems, subtotal) →
  line_fails products_mem line →
  let r := checkout env req user sess d in
  status (reply r) = 400 ∧ disk_after r = d ∧ session_after r = sess.
Proof.
  intros Hc Hpre Hf r. subst r. unfold checkout. rewrite Hc.
  destruct (pre ++ line :: post) as [|c rest] eqn:Hcart; [by destruct pre|].
  destruct (shippingAddress req) as [address|]; [|done].
  destruct (address_missing (Some address)); [done|].
  unfold readData. rewrite <- Hcart, walk_cart_app, Hpre. simpl.
  unfold line_fails in Hf.
  destruct (JS.Array_find _ products_mem) as [product|]; [|done].
  apply Z.ltb_lt in Hf. rewrite Hf. done.
Qed.

Local Ltac answered := eexists; (split; [|reflexivity]); reflexivity.

(** C1. Checkout is all-or-nothing with respect to validation failures:
    when some line of the session cart resolves to no product, or to a
    product with less stock than the line's quantity, the handler answers
    400, calls [writeData] for neither file (the journal is unchanged),
    appends no order, and leaves the persisted products, hence every
    stock, as they were; this holds also when earlier lines had been
    decremented in memory.  The session cart holds one line per product,
    which the cart handlers maintain. *)
Theorem checkout_validation_failure_writes_nothing
    env req user sess d cart line :
  session_cart sess = Some cart →
  distinct_lines cart →
  line ∈ cart →
  line_fails (products_json d) line →
  let r := checkout env req user sess d in
  status (reply r) = 400 ∧
  journal (disk_after r) = journal d ∧
  orders_json (disk_after r) = orders_json d ∧
  products_json (disk_after r) = products_json d ∧
  session_after r = sess.
Proof.
  intros Hc Hnd Hin Hf r.
  assert (Hrej : ∃ resp, status resp = 400 ∧ r = rejected resp sess d).
  { subst r. unfold checkout. rewrite Hc.
    destruct cart as [|c rest]; [by apply elem_of_nil in Hin|].
    destruct (shippingAddress req) as [address|]; [|answered].
    destruct (address_missing (Some address)); [answered|].
    destruct (walk_cart_rejects (c :: rest) (products_json d) [] 0%float line)
      as [e He]; [done..|].
    unfold readData. rewrite He. answered. }
  destruct Hrej as (resp & Hs & ->). by simpl.
Qed.

Lemma checkout_validation_failure_writes_nothing_witness :
  let cart := [Sample.line "A" 1; Sample.line "B" 9] in
  let d := Sample.disk [Sample.product "A" 20 5; Sample.product "B" 30 2] in
  let r := checkout (Sample.env true true) Sample.request Sample.ann
             (Sample.session cart) d in
  status (reply r) = 400 ∧
  journal (disk_after r) = journal d ∧
  orders_json (disk_after r) = orders_json d ∧
  products_json (disk_after r) = products_json d ∧
  session_after r = Sample.session cart.
Proof.
  apply (checkout_validation_failure_writes_nothing
           (Sample.env true true) Sample.request Sample.ann
           (Sample.session [Sample.line "A" 1; Sample.line "B" 9])
           (Sample.disk [Sample.product "A" 20 5; Sample.product "B" 30 2])
           [Sample.line "A" 1; Sample.line "B" 9] (Sample.line "B" 9)).
  - reflexivity.
  - apply (bool_decide_unpack _). vm_compute. exact I.
  - do 2 constructor.
  - vm_compute. reflexivity.
Defined.

(** The second line asks for more than is left, after the first line took
    its share in memory: 400, and the stock on disk is still 5 and 2. *)
Example checkout_rejected_after_decrement :
  let d := Sample.disk [Sample.product "A" 20 5; Sample.product "B" 30 2] in
  let r := checkout (Sample.env true true) Sample.request Sample.ann
             (Sample.session [Sample.line "A" 1; Sample.line "B" 9]) d in
  reply r = fail 400 "Insufficient stock" "Not enough stock for Item B" ∧
  disk_after r = d ∧
  product_stock <$> products_json (disk_after r) = [5; 2].
Proof. vm_compute. done. Qed.

(** Why the cart invariant is assumed in C1: with two lines for one
    product, which no sequence of cart requests produces, a first line of
    negative quantity raises the stock in memory before the second line is
    checked against it. *)
Example checkout_two_lines_for_one_product :
  let d := Sample.disk [Sample.product "A" 20 1] in
  let r := checkout (Sample.env true true) Sample.request Sample.ann
             (Sample.session [Sample.line "A" (-5); Sample.line "A" 3]) d in
  status (reply r) = 201 ∧
  product_stock <$> products_json (disk_after r) = [3].
Proof. vm_compute. done. Qed.

End CheckoutValidation.


(** Without a logged-in user the route answers 401 and does nothing. *)
Lemma post_orders_requires_login env req sess d :
  session_user sess = None →
  Orders.post_orders env req sess d =
    {| reply := fail 401 "Authentication required" "Please login to access this resource";
       session_after := sess; disk_after := d |}.
Proof. intros Hnone. unfold Orders.post_orders, Auth.requireAuth. by rewrite Hnone. Qed.

(** ** The cart keeps one line per product *)

Section CartInvariant.
Import Helpers Cart.

Lemma findIndex_None {A} (f : A → bool) l :
  JS.Array_findIndex f l = None → ∀ x, x ∈ l → f x = false.
Proof.
  induction l as [|y l IH]; simpl; intros Hnone x Hx.
  - by apply elem_of_nil in Hx.
  - destruct (f y) eqn:Hy; [done|].
    destruct (JS.Array_findIndex f l); [done|].
    apply elem_of_cons in Hx as [->|Hx]; auto.
Qed.

Lemma findIndex_Some {A} (f : A → bool) l i :
  JS.Array_findIndex f l = Some i →
  ∃ x, l !! i = Some x ∧ f x = true ∧ JS.Array_find f l = Some x.
Proof.
  revert i. induction l as [|y l IH]; simpl; intros i Hi; [done|].
  destruct (f y) eqn:Hy.
  - injection Hi as <-. eauto.
  - destruct (JS.Array_findIndex f l) as [j|]; [|done].
    injection Hi as <-. destruct (IH j eq_refl) as (x & ? & ? & ?). eauto.
Qed.

Lemma productId_alter_quantity (q : CartItem → Z) (i : nat) (cart : list CartItem) :
  item_productId <$> alter (fun item => with_quantity item (q item)) i cart
  = item_productId <$> cart.
Proof.
  revert i. induction cart as [|c cart IH]; intros [|i]; csimpl; try done.
  f_equal. apply IH.
Qed.

Lemma distinct_lines_alter q (i : nat) cart :
  distinct_lines cart →
  distinct_lines (alter (fun item => with_quantity item q) i cart).
Proof.
  unfold distinct_lines.
  by rewrite (productId_alter_quantity (fun _ => q)).
Qed.

Lemma distinct_lines_delete (i : nat) cart :
  distinct_lines cart → distinct_lines (delete i cart).
Proof.
  unfold distinct_lines. intros Hnd. rewrite list_fmap_delete.
  eapply sublist_NoDup; [done|apply sublist_delete].
Qed.

Lemma distinct_lines_push cart line :
  distinct_lines cart →
  JS.Array_findIndex (in_line (item_productId line)) cart = None →
  distinct_lines (cart ++ [line]).
Proof.
  unfold distinct_lines. intros Hnd Hnone. rewrite fmap_app. simpl.
  apply NoDup_app. split; [done|]. split; [|apply NoDup_singleton].
  intros pid Hpid Hin. apply list_elem_of_singleton in Hin as ->.
  apply list_elem_of_fmap in Hpid as (c & Hc & Hin).
  apply (findIndex_None _ _ Hnone) in Hin.
  unfold in_line in Hin. rewrite <- Hc, String.eqb_refl in Hin. done.
Qed.

Lemma add_to_cart_keeps_invariant env req sess d r :
  cart_invariant sess →
  add_to_cart env req sess d = Done r →
  cart_invariant (session_after r).
Proof.
  intros Hinv.
  assert (Hcart : distinct_lines (default [] (session_cart sess))).
  { unfold cart_invariant in Hinv. destruct (session_cart sess); [done|].
    apply NoDup_nil_2. }
  unfold add_to_cart. repeat case_match; intros [= <-]; simpl;
    first [ exact Hinv | exact Hcart
          | apply distinct_lines_alter; exact Hcart
          | apply distinct_lines_push; [exact Hcart|assumption] ].
Qed.

Lemma update_cart_keeps_invariant req sess d r :
  cart_invariant sess →
  update_cart req sess d = Done r →
  cart_invariant (session_after r).
Proof.
  intros Hinv. unfold update_cart.
  repeat case_match; intros [= <-]; simpl; try exact Hinv;
    unfold cart_invariant in Hinv;
    match goal with H : session_cart sess = Some _ |- _ => rewrite H in Hinv end;
    first [ apply distinct_lines_delete; exact Hinv
          | apply distinct_lines_alter; exact Hinv ].
Qed.

Lemma remove_from_cart_keeps_invariant productId sess d :
  cart_invariant sess →
  cart_invariant (session_after (remove_from_cart productId sess d)).
Proof.
  intros Hinv. unfold remove_from_cart.
  repeat case_match; simpl; try done.
  unfold cart_invariant in Hinv.
  match goal with H : session_cart sess = Some _ |- _ => rewrite H in Hinv end.
  by apply distinct_lines_delete.
Qed.

Lemma clear_cart_keeps_invariant sess d :
  cart_invariant (session_after (clear_cart sess d)).
Proof. apply NoDup_nil_2. Qed.

Lemma checkout_keeps_invariant env req user sess d :
  cart_invariant sess →
  cart_invariant (session_after (Orders.checkout env req user sess d)).
Proof.
  intros Hinv. unfold Orders.checkout.
  repeat case_match; simpl; try done. apply NoDup_nil_2.
Qed.

End CartInvariant.


(** ** Checkout: a request that passes validation *)

Section CheckoutSuccess.
Import Helpers Orders.

Lemma find_update_price pid pid' (g : Product → Product) products :
  (∀ p, product_id (g p) = product_id p) →
  (∀ p, product_price (g p) = product_price p) →
  product_price <$> JS.Array_find (has_id pid') (JS.Array_update_found (has_id pid) g products)
  = product_price <$> JS.Array_find (has_id pid') products.
Proof.
  intros Hid Hprice. unfold JS.Array_find.
  induction products as [|p ps IH]; simpl; [done|].
  destruct (has_id pid p); simpl.
  - unfold has_id. rewrite Hid. destruct (String.eqb (product_id p) pid'); simpl; [|done].
    by rewrite Hprice.
  - destruct (has_id pid' p); [done|apply IH].
Qed.

(** The loop adds up the prices that were read from disk: decrementing a
    stock changes no price. *)
Lemma walk_cart_subtotal cart : ∀ products0 products orderItems subtotal products' orderItems' subtotal',
  (∀ pid, product_price <$> JS.Array_find (has_id pid) products
          = product_price <$> JS.Array_find (has_id pid) products0) →
  walk_cart cart products orderItems subtotal = inr (products', orderItems', subtotal') →
  subtotal' = cart_subtotal_from subtotal products0 cart.
Proof.
  induction cart as [|c rest IH];
    intros products0 products orderItems subtotal products' orderItems' subtotal' Hsame Hw.
  - simpl in Hw. by injection Hw as _ _ <-.
  - simpl in Hw.
    destruct (JS.Array_find (has_id (item_productId c)) products) as [product|] eqn:Hfind;
      [|done].
    destruct (product_stock product <? item_quantity c); [done|].
    apply (IH products0) in Hw.
    + rewrite Hw. unfold cart_subtotal_from. simpl. do 3 f_equal.
      unfold price_of. specialize (Hsame (item_productId c)). rewrite Hfind in Hsame.
      destruct (JS.Array_find (has_id (item_productId c)) products0); simpl in *; congruence.
    + intros pid. rewrite find_update_price; done.
Qed.

(** The handler answers 400 or 201, and 201 only along the path that runs
    the loop to its end, writes both files and clears the cart. *)
Lemma checkout_cases env req user sess d :
  (∃ resp, status resp = 400 ∧ checkout env req user sess d = rejected resp sess d) ∨
  (∃ cart address products' orderItems subtotal,
     session_cart sess = Some cart ∧
     shippingAddress req = Some address ∧
     walk_cart cart (products_json d) [] 0%float = inr (products', orderItems, subtotal) ∧
     subtotal = cart_subtotal (products_json d) cart ∧
     let order :=
       new_order env user address (default "card" (paymentMethod req)) orderItems subtotal in
     checkout env req user sess d =
       {| reply :=
            {| status := 201;
               body := BOrderPlaced "Order placed successfully" (order_id order)
                         (order_orderNumber order) (order_total order) (order_status order) |};
          session_after := with_cart sess [];
          disk_after :=
            snd (writeData env ORDERS_FILE (orders_json d ++ [order])
                   (snd (writeData env PRODUCTS_FILE products' d))) |}).
Proof.
  unfold checkout.
  destruct (session_cart sess) as [[|c rest]|] eqn:Hc;
    try (left; eexists; (split; [|reflexivity]); reflexivity).
  destruct (shippingAddress req) as [address|] eqn:Ha;
    try (left; eexists; (split; [|reflexivity]); reflexivity).
  destruct (address_missing (Some address));
    try (left; eexists; (split; [|reflexivity]); reflexivity).
  unfold readData.
  destruct (walk_cart (c :: rest) (products_json d) [] 0%float)
    as [e|[[products' orderItems] subtotal]] eqn:Hw.
  - left; eexists; (split; [|reflexivity]); reflexivity.
  - right. exists (c :: rest), address, products', orderItems, subtotal.
    repeat (split; [done|]). split; [|done].
    by apply (walk_cart_subtotal _ _ _ _ _ _ _ _ (fun _ => eq_refl) Hw).
Qed.

Lemma round2_zero : JS.round2 0 = 0%float.
Proof. reflexivity. Qed.

Lemma round2_flat_rate : JS.round2 9.99 = 9.99%float.
Proof. vm_compute. reflexivity. Qed.

Lemma flat_rate_not_zero : 9.99%float ≠ 0%float.
Proof.
  intros H. apply (f_equal (fun x => (0 <? x)%float)) in H.
  vm_compute in H. discriminate.
Qed.

Lemma shipping_of_zero_iff subtotal :
  shipping_of subtotal = 0%float ↔ (100 <? subtotal)%float = true.
Proof.
  unfold shipping_of. destruct (100 <? subtotal)%float.
  - done.
  - split; [|done]. intros H. by apply flat_rate_not_zero in H.
Qed.

Lemma shipping_of_flat_iff subtotal :
  shipping_of subtotal = 9.99%float ↔ (100 <? subtotal)%float = false.
Proof.
  unfold shipping_of. destruct (100 <? subtotal)%float.
  - split; [|done]. intros H. symmetry in H. by apply flat_rate_not_zero in H.
  - done.
Qed.

Lemma round2_shipping_of subtotal :
  JS.round2 (shipping_of subtotal) = shipping_of subtotal.
Proof.
  unfold shipping_of. destruct (100 <? subtotal)%float.
  - apply round2_zero.
  - apply round2_flat_rate.
Qed.

(** C2 (as the code has it). The handler either rejects the request and
    touches nothing, or it calls [writeData] for the products and then for
    the orders with the new order appended, clears the cart and answers
    201.  The result of the orders write plays no part: the answer is 201
    and the cart is cleared whether or not the write succeeded, and after a
    failed write the persisted orders are the old ones. *)
Theorem checkout_clears_cart_after_order_write_attempt env req user sess d :
  let r := checkout env req user sess d in
  (status (reply r) = 400 ∧ session_after r = sess ∧ disk_after r = d) ∨
  (∃ products' order,
     status (reply r) = 201 ∧
     session_cart (session_after r) = Some [] ∧
     journal (disk_after r) =
       journal d ++ [WroteProducts products' (write_ok env (filename PRODUCTS_FILE));
                     WroteOrders (orders_json d ++ [order])
                       (write_ok env (filename ORDERS_FILE))] ∧
     orders_json (disk_after r) =
       if write_ok env (filename ORDERS_FILE) then orders_json d ++ [order]
       else orders_json d).
Proof.
  intros r. subst r.
  destruct (checkout_cases env req user sess d)
    as [(resp & Hs & ->)|(cart & address & products' & orderItems & subtotal
                          & _ & _ & _ & _ & ->)].
  - left. done.
  - right. eexists _, _. simpl. rewrite <- app_assoc. done.
Qed.

(** C2, the claim refuted: the write of orders.json fails, and the handler
    still answers 201 with the cart cleared and no order persisted. *)
Lemma checkout_succeeds_though_order_write_failed :
  let r := checkout (Sample.env true false) Sample.request Sample.ann
             (Sample.session [Sample.line "P1" 2])
             (Sample.disk [Sample.product "P1" 50 5]) in
  status (reply r) = 201 ∧
  session_cart (session_after r) = Some [] ∧
  orders_json (disk_after r) = [] ∧
  ∃ data, last (journal (disk_after r)) = Some (WroteOrders data false).
Proof. vm_compute. repeat split. eexists. reflexivity. Qed.

(** C3. For every checkout that passes validation, with [subtotal] the sum
    of price times quantity over the cart, the shipping charge of the order
    handed to [writeData] is 0 exactly when the subtotal is strictly greater
    than 100, and the flat rate 9.99 exactly when it is not. *)
Theorem checkout_shipping_free_iff_subtotal_above_100 env req user sess d :
  status (reply (checkout env req user sess d)) = 201 →
  ∃ cart order,
    session_cart sess = Some cart ∧
    last (journal (disk_after (checkout env req user sess d)))
      = Some (WroteOrders (orders_json d ++ [order]) (write_ok env (filename ORDERS_FILE))) ∧
    let subtotal := cart_subtotal (products_json d) cart in
    (order_shipping order = 0%float ↔ (100 <? subtotal)%float = true) ∧
    (order_shipping order = 9.99%float ↔ (100 <? subtotal)%float = false).
Proof.
  intros H201.
  destruct (checkout_cases env req user sess d)
    as [(resp & Hs & Heq)|(cart & address & products' & orderItems & subtotal
                            & Hc & Ha & Hw & Hsub & Heq)].
  - rewrite Heq in H201. simpl in H201. congruence.
  - simpl in Heq. rewrite Heq. eexists cart, _.
    split; [done|]. split; [simpl; by rewrite last_snoc|].
    simpl. rewrite round2_shipping_of, <- Hsub.
    split; [apply shipping_of_zero_iff|apply shipping_of_flat_iff].
Qed.

Lemma checkout_shipping_free_iff_subtotal_above_100_witness :
  ∃ cart order,
    session_cart (Sample.session [Sample.line "A" 3; Sample.line "B" 1]) = Some cart ∧
    last (journal (disk_after
            (checkout (Sample.env true true) Sample.request Sample.ann
               (Sample.session [Sample.line "A" 3; Sample.line "B" 1])
               (Sample.disk [Sample.product "A" 19.99 5; Sample.product "B" 45.5 2]))))
      = Some (WroteOrders ([] ++ [order]) true) ∧
    let subtotal :=
      cart_subtotal [Sample.product "A" 19.99 5; Sample.product "B" 45.5 2] cart in
    (order_shipping order = 0%float ↔ (100 <? subtotal)%float = true) ∧
    (order_shipping order = 9.99%float ↔ (100 <? subtotal)%float = false).
Proof.
  apply (checkout_shipping_free_iff_subtotal_above_100
           (Sample.env true true) Sample.request Sample.ann
           (Sample.session [Sample.line "A" 3; Sample.line "B" 1])
           (Sample.disk [Sample.product "A" 19.99 5; Sample.product "B" 45.5 2])).
  vm_compute. reflexivity.
Defined.

Lemma find_update_found {A} (f : A → bool) (g : A → A) l x :
  JS.Array_find f l = Some x →
  f (g x) = true →
  JS.Array_find f (JS.Array_update_found f g l) = Some (g x).
Proof.
  unfold JS.Array_find. intros Hfind Hg.
  induction l as [|y l IH]; simpl in *; [done|].
  destruct (f y) eqn:Hy; simpl.
  - injection Hfind as ->. by rewrite Hg.
  - rewrite Hy. by apply IH.
Qed.

(** C4 (as the code has it). Cart [{productId: "P1", quantity: 2}] with P1
    at price 50 and stock 5, whatever else the catalog holds and whoever
    orders: the answer is 201; the order has subtotal 100, shipping 9.99 (a
    subtotal of exactly 100 is not strictly greater than 100), tax 8 and
    total 117.99; in the products handed to [writeData] the stock of P1 is
    3, and these are the products on disk afterwards when that write
    succeeds: the stock of P1 on disk is then 3.  When the write fails the
    answer is 201 all the same and the products on disk are those from
    before, P1 with its stock of 5. *)
Theorem checkout_scenario_P1 env req user sess d address addedAt p1 :
  session_cart sess =
    Some [ {| item_productId := "P1"; item_quantity := 2; item_addedAt := addedAt |} ] →
  shippingAddress req = Some address →
  address_missing (Some address) = false →
  JS.Array_find (has_id "P1") (products_json d) = Some p1 →
  product_price p1 = 50%float →
  product_stock p1 = 5 →
  let r := checkout env req user sess d in
  ∃ products' order,
    status (reply r) = 201 ∧
    session_cart (session_after r) = Some [] ∧
    journal (disk_after r) =
      journal d ++ [WroteProducts products' (write_ok env (filename PRODUCTS_FILE));
                    WroteOrders (orders_json d ++ [order]) (write_ok env (filename ORDERS_FILE))] ∧
    product_stock <$> JS.Array_find (has_id "P1") products' = Some 3 ∧
    products_json (disk_after r) =
      (if write_ok env (filename PRODUCTS_FILE) then products' else products_json d) ∧
    product_stock <$> JS.Array_find (has_id "P1") (products_json (disk_after r)) =
      Some (if write_ok env (filename PRODUCTS_FILE) then 3 else 5) ∧
    orders_json (disk_after r) =
      (if write_ok env (filename ORDERS_FILE) then orders_json d ++ [order]
       else orders_json d) ∧
    order_items order =
      [ {| oi_productId := product_id p1; oi_name := product_name p1; oi_price := 50%float;
           oi_quantity := 2;
           oi_image := match product_images p1 with
                       | [] => ""
                       | img :: _ => img
                       end |} ] ∧
    order_subtotal order = 100%float ∧
    order_shipping order = 9.99%float ∧
    order_tax order = 8%float ∧
    order_total order = 117.99%float.
Proof.
  intros Hcart Haddr Hvalid Hfind Hprice Hstock r. subst r.
  unfold checkout, readData.
  rewrite Hcart, Haddr, Hvalid. cbn [walk_cart item_productId item_quantity].
  rewrite Hfind, Hstock, Hprice. simpl.
  assert (Hthree :
    product_stock <$>
      JS.Array_find (has_id "P1")
        (JS.Array_update_found (has_id "P1") (fun p => with_stock p (product_stock p - 2))
           (products_json d)) = Some 3).
  { erewrite find_update_found; [|done|].
    - simpl. by rewrite Hstock.
    - unfold has_id in *. simpl.
      apply find_some in Hfind as [_ Hid]. exact Hid. }
  eexists _, _. split; [done|]. split; [done|].
  split; [by rewrite <- app_assoc|].
  split; [exact Hthree|].
  split; [done|].
  split.
  { destruct (write_ok env "products.json"); [exact Hthree|].
    by rewrite Hfind; simpl; rewrite Hstock. }
  split; [done|].
  split; [unfold order_line; simpl; by rewrite Hprice|].
  repeat split; vm_compute; reflexivity.
Qed.

Lemma checkout_scenario_P1_witness :
  let d := Sample.disk [Sample.product "P1" 50 5] in
  let r := checkout (Sample.env true true) Sample.request Sample.ann
             (Sample.session [Sample.line "P1" 2]) d in
  ∃ products' order,
    status (reply r) = 201 ∧
    session_cart (session_after r) = Some [] ∧
    journal (disk_after r) =
      journal d ++ [WroteProducts products' true; WroteOrders (orders_json d ++ [order]) true] ∧
    product_stock <$> JS.Array_find (has_id "P1") products' = Some 3 ∧
    products_json (disk_after r) = products' ∧
    product_stock <$> JS.Array_find (has_id "P1") (products_json (disk_after r)) = Some 3 ∧
    orders_json (disk_after r) = orders_json d ++ [order] ∧
    order_items order =
      [ {| oi_productId := "P1"; oi_name := "Item P1"; oi_price := 50%float;
           oi_quantity := 2; oi_image := "" |} ] ∧
    order_subtotal order = 100%float ∧
    order_shipping order = 9.99%float ∧
    order_tax order = 8%float ∧
    order_total order = 117.99%float.
Proof.
  intros d.
  apply (checkout_scenario_P1 (Sample.env true true) Sample.request Sample.ann
           (Sample.session [Sample.line "P1" 2]) d Sample.home 0
           (Sample.product "P1" 50 5)); reflexivity.
Defined.

(** The same scenario when the products file cannot be written: the
    answer is still 201, and on disk P1 keeps its stock of 5. *)
Example checkout_scenario_P1_write_fails :
  let r := checkout (Sample.env false true) Sample.request Sample.ann
             (Sample.session [Sample.line "P1" 2])
             (Sample.disk [Sample.product "P1" 50 5]) in
  status (reply r) = 201 ∧
  product_stock <$> JS.Array_find (has_id "P1") (products_json (disk_after r)) = Some 5.
Proof. vm_compute. done. Qed.

(** C4, the claim refuted: in that scenario the order's shipping is not 0
    and its total is not 108. *)
Lemma checkout_scenario_P1_pays_shipping :
  let r := checkout (Sample.env true true) Sample.request Sample.ann
             (Sample.session [Sample.line "P1" 2])
             (Sample.disk [Sample.product "P1" 50 5]) in
  ∃ order,
    orders_json (disk_after r) = [order] ∧
    (order_shipping order =? 0)%float = false ∧
    (order_total order =? 108)%float = false ∧
    (100 <? cart_subtotal [Sample.product "P1" 50 5] [Sample.line "P1" 2])%float = false.
Proof. vm_compute. eexists. repeat split. Qed.

(** C5 (as the code has it). For every checkout that passes validation,
    the order stores the subtotal, the shipping charge, the tax and the
    total each rounded to cents on its own; the total is the rounding of
    the unrounded sum, not the sum of the rounded parts. *)
Theorem checkout_total_rounds_unrounded_sum env req user sess d :
  status (reply (checkout env req user sess d)) = 201 →
  ∃ cart order,
    session_cart sess = Some cart ∧
    last (journal (disk_after (checkout env req user sess d)))
      = Some (WroteOrders (orders_json d ++ [order]) (write_ok env (filename ORDERS_FILE))) ∧
    let subtotal := cart_subtotal (products_json d) cart in
    let shipping := shipping_of subtotal in
    let tax := (subtotal * 0.08)%float in
    order_subtotal order = JS.round2 subtotal ∧
    order_shipping order = JS.round2 shipping ∧
    order_tax order = JS.round2 tax ∧
    order_total order = JS.round2 (subtotal + shipping + tax)%float.
Proof.
  intros H201.
  destruct (checkout_cases env req user sess d)
    as [(resp & Hs & Heq)|(cart & address & products' & orderItems & subtotal
                            & Hc & Ha & Hw & Hsub & Heq)].
  - rewrite Heq in H201. simpl in H201. congruence.
  - simpl in Heq. rewrite Heq. eexists cart, _.
    split; [done|]. split; [simpl; by rewrite last_snoc|].
    simpl. rewrite <- Hsub. done.
Qed.

Lemma checkout_total_rounds_unrounded_sum_witness :
  ∃ cart order,
    session_cart (Sample.session [Sample.line "A" 3; Sample.line "B" 1]) = Some cart ∧
    last (journal (disk_after
            (checkout (Sample.env true true) Sample.request Sample.ann
               (Sample.session [Sample.line "A" 3; Sample.line "B" 1])
               (Sample.disk [Sample.product "A" 19.99 5; Sample.product "B" 45.5 2]))))
      = Some (WroteOrders ([] ++ [order]) true) ∧
    let subtotal :=
      cart_subtotal [Sample.product "A" 19.99 5; Sample.product "B" 45.5 2] cart in
    let shipping := shipping_of subtotal in
    let tax := (subtotal * 0.08)%float in
    order_subtotal order = JS.round2 subtotal ∧
    order_shipping order = JS.round2 shipping ∧
    order_tax order = JS.round2 tax ∧
    order_total order = JS.round2 (subtotal + shipping + tax)%float.
Proof.
  apply (checkout_total_rounds_unrounded_sum
           (Sample.env true true) Sample.request Sample.ann
           (Sample.session [Sample.line "A" 3; Sample.line "B" 1])
           (Sample.disk [Sample.product "A" 19.99 5; Sample.product "B" 45.5 2])).
  vm_compute. reflexivity.
Defined.

(** C5, the claim refuted: one unit at price 1.0047.  The unrounded sum
    1.0047 + 9.99 + 0.080376 rounds to 11.08, while the parts round to 1,
    9.99 and 0.08, which add up to 11.07. *)
Lemma checkout_total_is_not_sum_of_rounded_parts :
  let products := [Sample.product "P1" 1.0047 5] in
  let cart := [Sample.line "P1" 1] in
  let r := checkout (Sample.env true true) Sample.request Sample.ann
             (Sample.session cart) (Sample.disk products) in
  let subtotal := cart_subtotal products cart in
  ∃ order,
    status (reply r) = 201 ∧
    orders_json (disk_after r) = [order] ∧
    order_total order = 11.08%float ∧
    (JS.round2 subtotal + JS.round2 (shipping_of subtotal) + JS.round2 (subtotal * 0.08)
     = 11.07)%float ∧
    (order_total order
     =? JS.round2 subtotal + JS.round2 (shipping_of subtotal) + JS.round2 (subtotal * 0.08))%float
    = false.
Proof. vm_compute. eexists. repeat split. Qed.

(** The same happens, in the last binary digit, with a price in whole
    cents: one unit at 0.20 gives a stored total that is not the float sum
    of the stored parts. *)
Lemma checkout_total_drifts_for_cent_prices :
  let products := [Sample.product "P1" 0.2 5] in
  let cart := [Sample.line "P1" 1] in
  let r := checkout (Sample.env true true) Sample.request Sample.ann
             (Sample.session cart) (Sample.disk products) in
  ∃ order,
    orders_json (disk_after r) = [order] ∧
    (order_total order =? order_subtotal order + order_shipping order + order_tax order)%float
    = false.
Proof. vm_compute. eexists. repeat split. Qed.

End CheckoutSuccess.


(** ** Catalog pagination *)

Section Pagination.
Import Helpers Products.

Lemma length_sort_insert {A} (before : A → A → bool) x l :
  length (JS.sort_insert before x l) = S (length l).
Proof.
  induction l as [|y l IH]; simpl; [done|].
  destruct (before y x); simpl; by rewrite ?IH.
Qed.

Lemma length_Array_sort {A} (before : A → A → bool) l :
  length (JS.Array_sort before l) = length l.
Proof.
  induction l as [|x l IH]; simpl; [done|].
  by rewrite length_sort_insert, IH.
Qed.

Lemma length_sort_products localeCompare sort products :
  length (sort_products localeCompare sort products) = length products.
Proof.
  unfold sort_products. repeat case_match; try done; apply length_Array_sort.
Qed.

(** [Math.ceil(total / pageSize)] is the least number of pages of
    [pageSize] items that hold [total] items. *)
Lemma Math_ceil_div_spec total pageSize :
  0 < pageSize →
  ∃ totalPages,
    JS.Math_ceil_div total pageSize = Some totalPages ∧
    (totalPages - 1) * pageSize < total ≤ totalPages * pageSize.
Proof.
  intros Hpos. unfold JS.Math_ceil_div.
  destruct (pageSize =? 0) eqn:Hz; [apply Z.eqb_eq in Hz; lia|].
  eexists. split; [done|].
  pose proof (Z.div_mod (- total) pageSize ltac:(lia)) as Hdm.
  pose proof (Z.mod_pos_bound (- total) pageSize Hpos) as Hb.
  nia.
Qed.

Lemma Array_slice_beyond {A} (l : list A) start stop :
  Z.of_nat (length l) ≤ start → JS.Array_slice l start stop = [].
Proof.
  intros Hstart. unfold JS.Array_slice, JS.slice_index.
  destruct (start <? 0) eqn:Hs; [apply Z.ltb_lt in Hs; lia|].
  rewrite (Z.min_r start) by lia. rewrite Nat2Z.id, drop_all. by rewrite take_nil.
Qed.

(** C6. For every product collection, filter combination, sort, positive
    page size and page number from 1: the answer is 200; [total] is the
    number of products that pass the filters; [totalPages] is
    ceil(total / pageSize); a page beyond [totalPages] has an empty product
    list; and [total] and [totalPages] are the same whatever page is asked
    for.  Nothing is written. *)
Theorem catalog_pagination localeCompare q sess d :
  let total := Z.of_nat (length (filter_products q (products_json d))) in
  let pageSize := default 12 (q_limit q) in
  let page := default 1 (q_page q) in
  0 < pageSize →
  1 ≤ page →
  ∃ products totalPages,
    get_products localeCompare q sess d =
      {| reply :=
           {| status := 200;
              body := BProducts products
                        {| pg_total := total; pg_page := page; pg_pageSize := pageSize;
                           pg_totalPages := Some totalPages |} |};
         session_after := sess; disk_after := d |} ∧
    (totalPages - 1) * pageSize < total ≤ totalPages * pageSize ∧
    (totalPages < page → products = []) ∧
    ∀ page', ∃ products',
      reply (get_products localeCompare (with_page q page') sess d) =
        {| status := 200;
           body := BProducts products'
                     {| pg_total := total; pg_page := page'; pg_pageSize := pageSize;
                        pg_totalPages := Some totalPages |} |}.
Proof.
  intros total pageSize page Hsize Hpage.
  destruct (Math_ceil_div_spec total pageSize Hsize) as (totalPages & Hceil & Hbounds).
  assert (Hlen : Z.of_nat (length (select_products localeCompare q (products_json d))) = total).
  { unfold select_products. by rewrite length_sort_products. }
  eexists _, totalPages. split; [|split; [exact Hbounds|split]].
  - unfold get_products, readData. rewrite Hlen. fold pageSize page.
    rewrite Hceil. reflexivity.
  - intros Hbeyond. apply Array_slice_beyond. rewrite Hlen. nia.
  - intros page'. eexists. unfold get_products, readData. simpl.
    change (select_products localeCompare (with_page q page') (products_json d))
      with (select_products localeCompare q (products_json d)).
    rewrite Hlen. fold pageSize. rewrite Hceil. reflexivity.
Qed.

Lemma catalog_pagination_witness :
  let q := Sample.query (Some "price-desc") (Some 2) (Some 3) in
  let sess := Sample.session [] in
  let d := Sample.disk Sample.catalog in
  let total := Z.of_nat (length (filter_products q (products_json d))) in
  ∃ products totalPages,
    get_products Sample.collate q sess d =
      {| reply :=
           {| status := 200;
              body := BProducts products
                        {| pg_total := total; pg_page := 3; pg_pageSize := 2;
                           pg_totalPages := Some totalPages |} |};
         session_after := sess; disk_after := d |} ∧
    (totalPages - 1) * 2 < total ≤ totalPages * 2 ∧
    (totalPages < 3 → products = []) ∧
    ∀ page', ∃ products',
      reply (get_products Sample.collate (with_page q page') sess d) =
        {| status := 200;
           body := BProducts products'
                     {| pg_total := total; pg_page := page'; pg_pageSize := 2;
                        pg_totalPages := Some totalPages |} |}.
Proof.
  intros q sess d total.
  apply (catalog_pagination Sample.collate q sess d); simpl; lia.
Defined.

(** The sample query selects four products, so with two per page there are
    two pages and page 3 is empty. *)
Example catalog_page_beyond_the_end :
  reply (get_products Sample.collate (Sample.query (Some "price-desc") (Some 2) (Some 3))
           (Sample.session []) (Sample.disk Sample.catalog))
  = {| status := 200;
       body := BProducts []
                 {| pg_total := 4; pg_page := 3; pg_pageSize := 2;
                    pg_totalPages := Some 2 |} |}.
Proof. vm_compute. reflexivity. Qed.

Example catalog_page_in_range :
  ∃ e b,
    reply (get_products Sample.collate (Sample.query (Some "price-desc") (Some 2) (Some 1))
             (Sample.session []) (Sample.disk Sample.catalog))
    = {| status := 200;
         body := BProducts [e; b]
                   {| pg_total := 4; pg_page := 1; pg_pageSize := 2;
                      pg_totalPages := Some 2 |} |} ∧
    product_id e = "E" ∧ product_id b = "B".
Proof. vm_compute. eexists _, _. repeat split. Qed.

End Pagination.


(** ** Order listing *)

Section SortFacts.
Context {A : Type} (before : A → A → bool) (R : A → A → Prop).
Hypothesis before_R : ∀ a b, before a b = true → R a b.
Hypothesis not_before_R : ∀ a b, before a b = false → R b a.
Hypothesis R_trans : ∀ a b c, R a b → R b c → R a c.

Lemma sort_insert_perm x l : JS.sort_insert before x l ≡ₚ x :: l.
Proof.
  induction l as [|y l IH]; simpl; [done|].
  destruct (before y x); [|done].
  rewrite IH. apply Permutation_swap.
Qed.

Lemma Array_sort_perm l : JS.Array_sort before l ≡ₚ l.
Proof.
  induction l as [|x l IH]; simpl; [done|].
  by rewrite sort_insert_perm, IH.
Qed.

Lemma sort_insert_sorted x l :
  StronglySorted R l → StronglySorted R (JS.sort_insert before x l).
Proof.
  induction l as [|y l IH]; simpl; intros Hs.
  - repeat constructor.
  - apply StronglySorted_inv in Hs as [Hl Hy].
    destruct (before y x) eqn:Hb.
    + constructor; [by apply IH|].
      rewrite sort_insert_perm. constructor; [by apply before_R|done].
    + apply not_before_R in Hb.
      constructor; [by constructor|].
      constructor; [done|].
      eapply Forall_impl; [exact Hy|]. intros z Hz. by eapply R_trans.
Qed.

Lemma Array_sort_sorted l : StronglySorted R (JS.Array_sort before l).
Proof.
  induction l as [|x l IH]; simpl; [constructor|].
  by apply sort_insert_sorted.
Qed.

Lemma filter_sorted (keep : A → bool) l :
  StronglySorted R l → StronglySorted R (List.filter keep l).
Proof.
  induction l as [|x l IH]; simpl; intros Hs; [constructor|].
  apply StronglySorted_inv in Hs as [Hl Hx].
  destruct (keep x); [|by apply IH].
  constructor; [by apply IH|].
  apply Forall_forall. intros y Hy.
  apply list_elem_of_In, filter_In in Hy as [Hy _].
  rewrite Forall_forall in Hx. by apply Hx, list_elem_of_In.
Qed.

End SortFacts.

Section OrderListing.
Import Helpers Orders.

Lemma elem_of_List_filter {A} (keep : A → bool) l x :
  x ∈ List.filter keep l ↔ x ∈ l ∧ keep x = true.
Proof. rewrite !list_elem_of_In. apply filter_In. Qed.

(** Which orders the listing returns. *)
Lemma list_orders_elem status user d o :
  o ∈ list_orders status user d ↔
    o ∈ orders_json d ∧
    (user_role user = "admin" ∨ order_userId o = user_id user) ∧
    (∀ s, status = Some s → s ≠ "" → order_status o = s).
Proof.
  unfold list_orders, readData.
  set (visible := if negb (String.eqb (user_role user) "admin")
                  then List.filter (λ o, String.eqb (order_userId o) (user_id user))
                         (orders_json d)
                  else orders_json d).
  assert (Hvis : ∀ o, o ∈ visible ↔
            o ∈ orders_json d ∧
            (user_role user = "admin" ∨ order_userId o = user_id user)).
  { intros o'. subst visible.
    destruct (String.eqb_spec (user_role user) "admin") as [Hadm|Hadm]; simpl.
    - naive_solver.
    - rewrite elem_of_List_filter, String.eqb_eq. naive_solver. }
  assert (Hsorted : ∀ o, o ∈ JS.Array_sort newer visible ↔ o ∈ visible).
  { intros o'. by rewrite Array_sort_perm. }
  destruct status as [s|].
  - unfold JS.truthy. destruct (String.eqb_spec s "") as [->|Hs]; simpl.
    + rewrite Hsorted, Hvis. naive_solver.
    + rewrite elem_of_List_filter, Hsorted, Hvis, String.eqb_eq. naive_solver.
  - rewrite Hsorted, Hvis. naive_solver.
Qed.

Lemma list_orders_sorted status user d : newest_first (list_orders status user d).
Proof.
  unfold list_orders, newest_first.
  set (visible := if negb _ then _ else _).
  assert (Hs : StronglySorted (λ a b, order_createdAt b ≤ order_createdAt a)
                 (JS.Array_sort newer visible)).
  { apply Array_sort_sorted; unfold newer; intros a b.
    - intros H%Z.ltb_lt. lia.
    - intros H%Z.ltb_ge. lia.
    - intros c ? ?. lia. }
  destruct status as [s|]; [|done].
  destruct (JS.truthy s); [|done].
  by apply filter_sorted.
Qed.

(** C7. For every order collection and every authenticated requester:
    a requester who is not an admin gets no order whose [userId] differs
    from the requester's id; an admin gets every order, whoever owns it
    (every order with the requested status when a status is given); in
    both cases the result runs from the newest to the oldest, and when a
    status is given every order in it has that status. *)
Theorem order_listing_visibility status user sess d :
  let result := list_orders status user d in
  get_orders status user sess d =
    {| reply := {| status := 200; body := BOrders result |};
       session_after := sess; disk_after := d |} ∧
  (user_role user ≠ "admin" → ∀ o, o ∈ result → order_userId o = user_id user) ∧
  (user_role user = "admin" →
     ∀ o, o ∈ orders_json d →
       (∀ s, status = Some s → s ≠ "" → order_status o = s) → o ∈ result) ∧
  newest_first result ∧
  (∀ s, status = Some s → s ≠ "" → ∀ o, o ∈ result → order_status o = s).
Proof.
  intros result. subst result. split; [done|]. repeat split.
  - intros Hrole o Ho. apply list_orders_elem in Ho. naive_solver.
  - intros Hrole o Ho Hst. apply list_orders_elem. naive_solver.
  - apply list_orders_sorted.
  - intros s Hs Hne o Ho. apply list_orders_elem in Ho. naive_solver.
Qed.

Example order_listing_sample :
  let orders := [Sample.order "o1" "u1" "pending" 10; Sample.order "o2" "u2" "pending" 30;
                 Sample.order "o3" "u1" "shipped" 20; Sample.order "o4" "u1" "pending" 40] in
  let d := {| products_json := []; orders_json := orders; journal := [] |} in
  order_id <$> list_orders None Sample.ann d = ["o4"; "o3"; "o1"] ∧
  order_id <$> list_orders (Some "pending") Sample.ann d = ["o4"; "o1"] ∧
  order_id <$> list_orders None
                 {| user_id := "u9"; user_name := "Root"; user_email := "root@example.org";
                    user_role := "admin" |} d
  = ["o4"; "o2"; "o3"; "o1"].
Proof. vm_compute. done. Qed.

End OrderListing.


(** ** Cart update *)

Section CartUpdate.
Import Helpers Cart.


Lemma alter_as_insert {A} (f : A → A) (l : list A) (i : nat) x :
  l !! i = Some x → alter f i l = <[i := f x]> l.
Proof.
  intros Hlook. apply list_eq. intros j.
  rewrite list_lookup_alter, list_lookup_insert.
  destruct (decide (i = j)) as [<-|Hne].
  - rewrite Hlook, decide_True; [done|].
    split; [done|]. by apply lookup_lt_Some in Hlook.
  - rewrite decide_False; [done|]. by intros [? _].
Qed.




(** The three cases on a cart of A x 1 and B x 2, with 5 of A and 2 of B in
    stock; and what the handler makes of a quantity that is no integer:
    2.9 passes the check against a stock of 5 and is stored as 2, ["3"] is
    compared as 3 and stored as 3, ["2 pieces"] is compared as NaN, which
    exceeds nothing, and stored as 2, [null] is 0 and removes the line, and
    ["abc"] is stored as NaN. *)
Example update_cart_samples :
  let sess := Sample.session [Sample.line "A" 1; Sample.line "B" 2] in
  let d := Sample.disk Sample.catalog in
  let upd pid q := update_cart {| upd_productId := JS.Str pid; upd_quantity := q |} sess d in
  let cart_after o :=
    match o with
    | Done r => session_cart (session_after r)
    | StoredNonInteger _ _ => None
    end in
  cart_after (upd "B" (JS.Num 0)) = Some [Sample.line "A" 1] ∧
  cart_after (upd "B" (JS.Num (-3))) = Some [Sample.line "A" 1] ∧
  answered (upd "B" (JS.Num 5)) = 400 ∧
  cart_after (upd "B" (JS.Num 5)) = Some [Sample.line "A" 1; Sample.line "B" 2] ∧
  cart_after (upd "A" (JS.Num 4)) = Some [Sample.line "A" 4; Sample.line "B" 2] ∧
  answered (upd "Z" (JS.Num 4)) = 404 ∧
  answered (upd "A" JS.Undefined) = 400 ∧
  cart_after (upd "A" (JS.Num 2.9)) = Some [Sample.line "A" 2; Sample.line "B" 2] ∧
  answered (upd "B" (JS.Num 2.9)) = 400 ∧
  cart_after (upd "A" (JS.Str "3")) = Some [Sample.line "A" 3; Sample.line "B" 2] ∧
  cart_after (upd "B" (JS.Str "2 pieces")) = Some [Sample.line "A" 1; Sample.line "B" 2] ∧
  cart_after (upd "B" (JS.Str "99x")) = Some [Sample.line "A" 1; Sample.line "B" 99] ∧
  cart_after (upd "B" JS.Null) = Some [Sample.line "A" 1] ∧
  upd "B" (JS.Str "abc") = StoredNonInteger "B" JS.NaN ∧
  upd "B" (JS.Bool true) = StoredNonInteger "B" JS.NaN ∧
  answered (upd "B" (JS.Object None)) = 500.
Proof. vm_compute. repeat split. Qed.

End CartUpdate.


(** ** Admin product update *)

Section ProductUpdate.
Import Helpers ProductAdmin.

Lemma set_key_lookup key v (o : gmap string Json) : set_key key v o !! key = v.
Proof.
  unfold set_key. destruct v; [apply lookup_insert_eq|apply lookup_delete_eq].
Qed.

Lemma set_key_lookup_ne key key' v (o : gmap string Json) :
  key ≠ key' → set_key key v o !! key' = o !! key'.
Proof.
  intros Hne. unfold set_key.
  destruct v; [by apply lookup_insert_ne|by apply lookup_delete_ne].
Qed.

(** C9. For every update of a stored product, whatever the request body
    holds: the answer is 200 with the updated product, which is put in the
    place of the stored one and handed to [writeData]; when that write
    succeeds the collection on disk is the old one with the updated product
    at the place of the stored one, and when it fails the collection on
    disk is the old one; the [id] and [createdAt] of the updated product
    are those of the stored product; its [updatedAt] is the current
    timestamp; and every other key has the value the body supplies for it,
    or the stored value when the body has none.  So the product at that
    place on disk has the [id] and the [createdAt] it had, whatever the
    request and whether or not the write succeeds. *)
Theorem update_product_keeps_id_and_createdAt env id reqBody d index stored :
  JS.Array_findIndex (id_is id) (products_file d) = Some index →
  products_file d !! index = Some stored →
  let r := update_product env id reqBody d in
  ∃ updated,
    a_status r = 200 ∧
    a_body r = AUpdated "Product updated successfully" updated ∧
    write_log (a_disk r) =
      write_log d ++ [(<[index := updated]> (products_file d),
                       write_ok env (filename PRODUCTS_FILE))] ∧
    products_file (a_disk r) =
      (if write_ok env (filename PRODUCTS_FILE)
       then <[index := updated]> (products_file d)
       else products_file d) ∧
    products_file (a_disk r) !! index =
      Some (if write_ok env (filename PRODUCTS_FILE) then updated else stored) ∧
    (∀ other, other ≠ index →
       products_file (a_disk r) !! other = products_file d !! other) ∧
    (∃ kept, products_file (a_disk r) !! index = Some kept ∧
             kept !! "id" = stored !! "id" ∧
             kept !! "createdAt" = stored !! "createdAt") ∧
    updated !! "id" = stored !! "id" ∧
    updated !! "createdAt" = stored !! "createdAt" ∧
    updated !! "updatedAt" = Some (JTimestamp (now env)) ∧
    ∀ key, key ≠ "id" → key ≠ "createdAt" → key ≠ "updatedAt" →
      updated !! key = match reqBody !! key with
                       | Some v => Some v
                       | None => stored !! key
                       end.
Proof.
  intros Hindex Hstored r. subst r. unfold update_product.
  rewrite Hindex, Hstored. eexists. cbn [a_status a_body a_disk].
  set (updated := <["updatedAt" := JTimestamp (getTimestamp env)]> _).
  assert (Hid : updated !! "id" = stored !! "id").
  { subst updated. rewrite lookup_insert_ne by done.
    rewrite set_key_lookup_ne by done. apply set_key_lookup. }
  assert (Hcreated : updated !! "createdAt" = stored !! "createdAt").
  { subst updated. rewrite lookup_insert_ne by done. apply set_key_lookup. }
  assert (Hlen : (index < length (products_file d))%nat).
  { by apply lookup_lt_Some in Hstored. }
  split; [done|]. split; [done|].
  unfold writeData. cbn [snd products_file write_log].
  split; [done|]. split; [done|].
  assert (Hat : (if write_ok env (filename PRODUCTS_FILE)
                 then <[index := updated]> (products_file d)
                 else products_file d) !! index =
                Some (if write_ok env (filename PRODUCTS_FILE) then updated else stored)).
  { destruct (write_ok env (filename PRODUCTS_FILE)); [|done].
    by apply list_lookup_insert_eq. }
  split; [exact Hat|].
  split.
  { intros other Hother. destruct (write_ok env (filename PRODUCTS_FILE)); [|done].
    by apply list_lookup_insert_ne. }
  split.
  { eexists. split; [exact Hat|].
    by destruct (write_ok env (filename PRODUCTS_FILE)). }
  split; [exact Hid|]. split; [exact Hcreated|].
  split.
  - subst updated. apply lookup_insert_eq.
  - intros key Hkid Hkcreated Hkupdated. subst updated.
    rewrite lookup_insert_ne by done. rewrite !set_key_lookup_ne by done.
    rewrite lookup_union. by destruct (reqBody !! key), (stored !! key).
Qed.

Lemma update_product_keeps_id_and_createdAt_witness :
  let stored : gmap string Json :=
    {[ "id" := JStr "p7"; "name" := JStr "Lamp"; "price" := JNum 20;
       "createdAt" := JTimestamp 1600000000000 ]} in
  let reqBody : gmap string Json :=
    {[ "id" := JStr "hacked"; "createdAt" := JTimestamp 0; "price" := JNum 25;
       "color" := JStr "red" ]} in
  let d := {| products_file := [ {[ "id" := JStr "p1" ]}; stored ]; write_log := [] |} in
  let r := update_product (Sample.env true true) "p7" reqBody d in
  ∃ updated,
    a_status r = 200 ∧
    a_body r = AUpdated "Product updated successfully" updated ∧
    write_log (a_disk r) =
      write_log d ++ [(<[1%nat := updated]> (products_file d), true)] ∧
    products_file (a_disk r) = <[1%nat := updated]> (products_file d) ∧
    products_file (a_disk r) !! 1%nat = Some updated ∧
    (∀ other, other ≠ 1%nat →
       products_file (a_disk r) !! other = products_file d !! other) ∧
    (∃ kept, products_file (a_disk r) !! 1%nat = Some kept ∧
             kept !! "id" = stored !! "id" ∧
             kept !! "createdAt" = stored !! "createdAt") ∧
    updated !! "id" = stored !! "id" ∧
    updated !! "createdAt" = stored !! "createdAt" ∧
    updated !! "updatedAt" = Some (JTimestamp 1700000000000) ∧
    ∀ key, key ≠ "id" → key ≠ "createdAt" → key ≠ "updatedAt" →
      updated !! key = match reqBody !! key with
                       | Some v => Some v
                       | None => stored !! key
                       end.
Proof.
  intros stored reqBody d.
  apply (update_product_keeps_id_and_createdAt (Sample.env true true) "p7" reqBody d
           1%nat stored).
  - vm_compute. reflexivity.
  - reflexivity.
Defined.

(** The same update when the products file cannot be written: the answer
    is 200 with the merged product, and the product on disk is the stored
    one, unchanged. *)
Example update_product_write_fails :
  let stored : gmap string Json :=
    {[ "id" := JStr "p7"; "price" := JNum 20; "createdAt" := JTimestamp 1600000000000 ]} in
  let d := {| products_file := [stored]; write_log := [] |} in
  let r := update_product (Sample.env false true) "p7" {[ "price" := JNum 25 ]} d in
  a_status r = 200 ∧ products_file (a_disk r) = [stored].
Proof. vm_compute. done. Qed.

End ProductUpdate.

(** ** Reading the cart *)

Section GetCart.
Import Helpers Cart.

Lemma enriched_lines products cart :
  ei_item <$> omap (enrich products) cart = List.filter (resolves products) cart.
Proof.
  induction cart as [|line cart IH]; [done|].
  simpl. unfold enrich at 1, resolves at 1.
  destruct (JS.Array_find _ products); simpl; [by f_equal|done].
Qed.

Lemma enrich_resolvable products cart :
  omap (enrich products) (List.filter (resolves products) cart)
  = omap (enrich products) cart.
Proof.
  induction cart as [|line cart IH]; [done|].
  cbn [List.filter]. destruct (resolves products line) eqn:Hr; csimpl.
  - by rewrite IH.
  - rewrite IH. unfold resolves in Hr. unfold enrich at 2.
    by destruct (JS.Array_find _ products).
Qed.

Lemma enriched_price products line item :
  enrich products line = Some item →
  ei_item item = line ∧ ep_price (ei_product item) = price_of products line.
Proof.
  unfold enrich, price_of.
  destruct (JS.Array_find _ products); [|done]. by intros [= <-].
Qed.

Lemma enriched_count products cart : ∀ start,
  fold_left (fun sum item => sum + item_quantity (ei_item item))
    (omap (enrich products) cart) start
  = fold_left (fun sum line => sum + item_quantity line)
      (List.filter (resolves products) cart) start.
Proof.
  induction cart as [|line cart IH]; intros start; [done|].
  simpl. unfold resolves at 1.
  destruct (enrich products line) as [item|] eqn:He.
  - destruct (enriched_price _ _ _ He) as [Hi _].
    unfold enrich in He.
    destruct (JS.Array_find _ products); [|done].
    simpl. rewrite Hi. apply IH.
  - unfold enrich in He. destruct (JS.Array_find _ products); [done|apply IH].
Qed.

Lemma enriched_subtotal products cart : ∀ start,
  fold_left
    (fun sum item =>
       (sum + ep_price (ei_product item) * JS.Z2float (item_quantity (ei_item item)))%float)
    (omap (enrich products) cart) start
  = cart_subtotal_from start products (List.filter (resolves products) cart).
Proof.
  unfold cart_subtotal_from.
  induction cart as [|line cart IH]; intros start; [done|].
  simpl. unfold resolves at 1.
  destruct (enrich products line) as [item|] eqn:He.
  - destruct (enriched_price _ _ _ He) as [Hi Hp].
    unfold enrich in He.
    destruct (JS.Array_find _ products); [|done].
    simpl. rewrite Hi, Hp. apply IH.
  - unfold enrich in He. destruct (JS.Array_find _ products); [done|apply IH].
Qed.

(** The cart page computes the shipping charge the way checkout does. *)
Lemma cart_summary_shipping sess d :
  let kept := List.filter (resolves (products_json d)) (default [] (session_cart sess)) in
  let subtotal := cart_subtotal (products_json d) kept in
  ∃ items summary,
    reply (get_cart sess d) = {| status := 200; body := BCart items summary |} ∧
    sum_shipping summary = Orders.shipping_of subtotal.
Proof.
  intros kept subtotal. unfold get_cart, ok, readData. simpl.
  eexists _, _. split; [done|].
  unfold summarize. simpl. rewrite enriched_subtotal.
  fold kept. fold (cart_subtotal (products_json d) kept). fold subtotal.
  unfold Orders.shipping_of.
  destruct (100 <? subtotal)%float; vm_compute; reflexivity.
Qed.

(** C10. Reading the cart changes neither the session nor the disk, so
    dangling lines stay in the session cart.  The returned items are the
    lines that resolve, in cart order, each with the details of its
    product; the item count and the subtotal are taken over those lines
    only; and the whole answer, shipping, tax and total included, is the
    one the cart without its dangling lines would get. *)
Theorem get_cart_skips_dangling_lines sess d :
  let cart := default [] (session_cart sess) in
  let products := products_json d in
  let kept := List.filter (resolves products) cart in
  let r := get_cart sess d in
  session_after r = sess ∧
  disk_after r = d ∧
  ∃ items summary,
    reply r = {| status := 200; body := BCart items summary |} ∧
    ei_item <$> items = kept ∧
    Forall (fun item => enrich products (ei_item item) = Some item) items ∧
    itemCount summary = cartCount kept ∧
    sum_subtotal summary = JS.round2 (cart_subtotal products kept) ∧
    reply (get_cart (with_cart sess kept) d) = reply r.
Proof.
  intros cart products kept r. subst r. unfold get_cart, ok, readData. simpl.
  fold cart products.
  split; [done|]. split; [done|]. eexists _, _. split; [done|].
  split; [apply enriched_lines|]. split; [|split; [|split]].
  - clear kept. induction cart as [|line cart IH]; simpl; [constructor|].
    destruct (enrich products line) as [item|] eqn:He; [|done].
    constructor; [|done].
    destruct (enriched_price _ _ _ He) as [-> _]. done.
  - unfold summarize, cartCount. simpl. apply enriched_count.
  - unfold summarize, cart_subtotal. simpl. f_equal. apply enriched_subtotal.
  - subst kept. by rewrite enrich_resolvable.
Qed.

Example get_cart_sample :
  let cart := [Sample.line "A" 1; Sample.line "GONE" 50; Sample.line "B" 2] in
  let r := get_cart (Sample.session cart) (Sample.disk Sample.catalog) in
  session_cart (session_after r) = Some cart ∧
  ∃ a b summary,
    body (reply r) = BCart [a; b] summary ∧
    ei_item a = Sample.line "A" 1 ∧
    ei_item b = Sample.line "B" 2 ∧
    itemCount summary = 3 ∧
    sum_subtotal summary = 110.99%float ∧
    sum_shipping summary = 0%float ∧
    sum_tax summary = 8.88%float ∧
    sum_total summary = 119.87%float.
Proof. vm_compute. split; [done|]. eexists _, _, _. repeat split. Qed.

End GetCart.

(** * Further properties of the handlers *)

(** ** Checkout: what a placed order does to the catalog *)

Section CheckoutEffects.
Import Helpers Orders.

Lemma update_found_sans_stock pid q products :
  sans_stock <$> JS.Array_update_found (has_id pid)
                   (fun p => with_stock p (product_stock p - q)) products
  = sans_stock <$> products.
Proof.
  induction products as [|p ps IH]; [done|].
  simpl. destruct (has_id pid p); csimpl; [done|]. by rewrite IH.
Qed.

Lemma walk_cart_sans_stock cart : ∀ products orderItems subtotal products' orderItems' subtotal',
  walk_cart cart products orderItems subtotal = inr (products', orderItems', subtotal') →
  sans_stock <$> products' = sans_stock <$> products.
Proof.
  induction cart as [|c rest IH];
    intros products orderItems subtotal products' orderItems' subtotal' Hw; simpl in Hw.
  - by injection Hw as <- _ _.
  - destruct (JS.Array_find _ products) as [product|]; [|done].
    destruct (product_stock product <? item_quantity c); [done|].
    apply IH in Hw. by rewrite Hw, update_found_sans_stock.
Qed.

Lemma update_found_Forall {A} (P : A → Prop) (f : A → bool) (g : A → A) l :
  Forall P l →
  (∀ x, JS.Array_find f l = Some x → P (g x)) →
  Forall P (JS.Array_update_found f g l).
Proof.
  unfold JS.Array_find.
  induction l as [|y l IH]; simpl; intros Hl Hg; [done|].
  apply Forall_cons in Hl as [Hy Hl].
  destruct (f y); constructor; auto.
Qed.

Lemma walk_cart_stock_nonnegative cart : ∀ products orderItems subtotal products' orderItems' subtotal',
  walk_cart cart products orderItems subtotal = inr (products', orderItems', subtotal') →
  stock_nonnegative products →
  stock_nonnegative products'.
Proof.
  unfold stock_nonnegative.
  induction cart as [|c rest IH];
    intros products orderItems subtotal products' orderItems' subtotal' Hw Hnn; simpl in Hw.
  - by injection Hw as <- _ _.
  - destruct (JS.Array_find _ products) as [product|] eqn:Hfind; [|done].
    destruct (product_stock product <? item_quantity c) eqn:Hlt; [done|].
    apply Z.ltb_ge in Hlt. eapply IH; [exact Hw|].
    apply update_found_Forall; [done|].
    intros x Hx. rewrite Hfind in Hx. injection Hx as <-. simpl. lia.
Qed.

(** What the loop leaves in memory, product by product, when the cart has
    one line per product. *)
Lemma walk_cart_stock cart : ∀ products orderItems subtotal products' orderItems' subtotal',
  walk_cart cart products orderItems subtotal = inr (products', orderItems', subtotal') →
  distinct_lines cart →
  (∀ line, line ∈ cart →
     ∃ p, JS.Array_find (has_id (item_productId line)) products = Some p ∧
          item_quantity line ≤ product_stock p ∧
          JS.Array_find (has_id (item_productId line)) products'
          = Some (with_stock p (product_stock p - item_quantity line))) ∧
  (∀ pid, pid ∉ item_productId <$> cart →
     JS.Array_find (has_id pid) products' = JS.Array_find (has_id pid) products).
Proof.
  unfold distinct_lines.
  induction cart as [|c rest IH];
    intros products orderItems subtotal products' orderItems' subtotal' Hw Hnd; simpl in Hw.
  - injection Hw as <- _ _. split; [|done]. intros line Hin. by apply elem_of_nil in Hin.
  - rewrite fmap_cons in Hnd. apply NoDup_cons in Hnd as [Hc Hnd].
    destruct (JS.Array_find _ products) as [product|] eqn:Hfind; [|done].
    destruct (product_stock product <? item_quantity c) eqn:Hlt; [done|].
    apply Z.ltb_ge in Hlt.
    destruct (IH _ _ _ _ _ _ Hw Hnd) as [Hin Hout]. split.
    + intros line [->|Hline]%elem_of_cons.
      * exists product. split; [done|]. split; [done|].
        rewrite Hout by done.
        apply (find_update_found (has_id (item_productId c))
                 (fun p => with_stock p (product_stock p - item_quantity c))
                 products product Hfind).
        unfold has_id. simpl. apply find_some in Hfind as [_ Hid]. exact Hid.
      * destruct (Hin line Hline) as (p & Hp & Hq & Hp').
        exists p. split; [|done].
        rewrite find_update_other in Hp; [done| |done].
        intros Heq. apply Hc. rewrite Heq. by apply list_elem_of_fmap_2.
    + intros pid Hpid. rewrite fmap_cons in Hpid.
      apply not_elem_of_cons in Hpid as [Hne Hpid].
      rewrite Hout by done. by apply find_update_other.
Qed.

(** X1. A checkout that is answered 201, for a cart with one line per
    product: in the products handed to [writeData], each product a cart
    line names has the stock it had on disk less the line's quantity (which
    the stock on disk covered), and a product no line names is found as it
    was.  When the write succeeds these are the products on disk. *)
Theorem checkout_decrements_stock_per_line env req user sess d cart :
  session_cart sess = Some cart →
  distinct_lines cart →
  status (reply (checkout env req user sess d)) = 201 →
  ∃ products',
    head (drop (length (journal d)) (journal (disk_after (checkout env req user sess d))))
      = Some (WroteProducts products' (write_ok env (filename PRODUCTS_FILE))) ∧
    products_json (disk_after (checkout env req user sess d))
      = (if write_ok env (filename PRODUCTS_FILE) then products' else products_json d) ∧
    (∀ line, line ∈ cart →
       ∃ p, JS.Array_find (has_id (item_productId line)) (products_json d) = Some p ∧
            item_quantity line ≤ product_stock p ∧
            JS.Array_find (has_id (item_productId line)) products'
            = Some (with_stock p (product_stock p - item_quantity line))) ∧
    (∀ pid, pid ∉ item_productId <$> cart →
       JS.Array_find (has_id pid) products' = JS.Array_find (has_id pid) (products_json d)).
Proof.
  intros Hcart Hnd H201.
  destruct (checkout_cases env req user sess d)
    as [(resp & Hs & Heq)|(cart' & address & products' & orderItems & subtotal
                            & Hc & Ha & Hw & Hsub & Heq)].
  - rewrite Heq in H201. simpl in H201. congruence.
  - simpl in Heq. rewrite Heq. rewrite Hcart in Hc. injection Hc as <-.
    exists products'. simpl.
    split; [by rewrite <- app_assoc, drop_app_length|].
    split; [done|]. by apply (walk_cart_stock _ _ _ _ _ _ _ Hw).
Qed.

Lemma checkout_decrements_stock_per_line_witness :
  let cart := [Sample.line "A" 3; Sample.line "B" 1] in
  let d := Sample.disk Sample.catalog in
  let r := checkout (Sample.env true true) Sample.request Sample.ann (Sample.session cart) d in
  ∃ products',
    head (drop (length (journal d)) (journal (disk_after r)))
      = Some (WroteProducts products' true) ∧
    products_json (disk_after r) = (if true then products' else products_json d) ∧
    (∀ line, line ∈ cart →
       ∃ p, JS.Array_find (has_id (item_productId line)) (products_json d) = Some p ∧
            item_quantity line ≤ product_stock p ∧
            JS.Array_find (has_id (item_productId line)) products'
            = Some (with_stock p (product_stock p - item_quantity line))) ∧
    (∀ pid, pid ∉ item_productId <$> cart →
       JS.Array_find (has_id pid) products' = JS.Array_find (has_id pid) (products_json d)).
Proof.
  intros cart d.
  apply (checkout_decrements_stock_per_line (Sample.env true true) Sample.request
           Sample.ann (Sample.session cart) d cart).
  - reflexivity.
  - apply (bool_decide_unpack _). vm_compute. exact I.
  - vm_compute. reflexivity.
Defined.

(** X2. Checkout never leaves a negative stock on disk: if no product on
    disk has a negative stock before the request, none has one after it,
    whatever the cart holds and however the request ends. *)
Theorem checkout_keeps_stock_nonnegative env req user sess d :
  stock_nonnegative (products_json d) →
  stock_nonnegative (products_json (disk_after (checkout env req user sess d))).
Proof.
  intros Hnn.
  destruct (checkout_cases env req user sess d)
    as [(resp & Hs & ->)|(cart & address & products' & orderItems & subtotal
                          & Hc & Ha & Hw & Hsub & Heq)].
  - done.
  - simpl in Heq. rewrite Heq. simpl.
    destruct (write_ok env "products.json"); [|done].
    by eapply walk_cart_stock_nonnegative.
Qed.

Lemma checkout_keeps_stock_nonnegative_witness :
  stock_nonnegative
    (products_json
       (disk_after
          (checkout (Sample.env true true) Sample.request Sample.ann
             (Sample.session [Sample.line "A" 5; Sample.line "B" 2])
             (Sample.disk Sample.catalog)))).
Proof.
  apply (checkout_keeps_stock_nonnegative (Sample.env true true) Sample.request Sample.ann
           (Sample.session [Sample.line "A" 5; Sample.line "B" 2])
           (Sample.disk Sample.catalog)).
  unfold stock_nonnegative. simpl. repeat constructor; simpl; lia.
Defined.

(** X3. Checkout changes nothing in the product collection but stocks:
    after the request, however it ends, the collection on disk has the
    same products in the same order, each with its id, name, price and
    every other field as before. *)
Theorem checkout_changes_only_stock env req user sess d :
  sans_stock <$> products_json (disk_after (checkout env req user sess d))
  = sans_stock <$> products_json d.
Proof.
  destruct (checkout_cases env req user sess d)
    as [(resp & Hs & ->)|(cart & address & products' & orderItems & subtotal
                          & Hc & Ha & Hw & Hsub & Heq)].
  - done.
  - simpl in Heq. rewrite Heq. simpl.
    destruct (write_ok env "products.json"); [|done].
    by eapply walk_cart_sans_stock.
Qed.

Lemma find_update_sans_stock pid pid' q products :
  sans_stock <$> JS.Array_find (has_id pid')
                   (JS.Array_update_found (has_id pid)
                      (fun p => with_stock p (product_stock p - q)) products)
  = sans_stock <$> JS.Array_find (has_id pid') products.
Proof.
  unfold JS.Array_find.
  induction products as [|p ps IH]; simpl; [done|].
  destruct (has_id pid p); simpl.
  - unfold has_id. simpl. by destruct (String.eqb (product_id p) pid').
  - destruct (has_id pid' p); [done|apply IH].
Qed.

Lemma order_line_sans_stock p p0 line :
  sans_stock p = sans_stock p0 → order_line p line = order_line p0 line.
Proof.
  intros H. change (order_line (sans_stock p) line = order_line (sans_stock p0) line).
  by rewrite H.
Qed.

(** The loop appends one order item per cart line, taken from the product
    the line resolves to on disk. *)
Lemma walk_cart_items cart : ∀ products0 products orderItems subtotal products' orderItems' subtotal',
  (∀ pid, sans_stock <$> JS.Array_find (has_id pid) products
          = sans_stock <$> JS.Array_find (has_id pid) products0) →
  walk_cart cart products orderItems subtotal = inr (products', orderItems', subtotal') →
  ∃ added,
    orderItems' = orderItems ++ added ∧
    Forall2 (fun line item =>
               ∃ p, JS.Array_find (has_id (item_productId line)) products0 = Some p ∧
                    item = order_line p line)
      cart added.
Proof.
  induction cart as [|c rest IH];
    intros products0 products orderItems subtotal products' orderItems' subtotal' Hsame Hw;
    simpl in Hw.
  - injection Hw as _ <- _. exists []. by rewrite app_nil_r.
  - destruct (JS.Array_find _ products) as [product|] eqn:Hfind; [|done].
    destruct (product_stock product <? item_quantity c); [done|].
    apply (IH products0) in Hw as (added & -> & Hall).
    + exists (order_line product c :: added). split; [by rewrite <- app_assoc|].
      constructor; [|done].
      specialize (Hsame (item_productId c)). rewrite Hfind in Hsame.
      destruct (JS.Array_find _ products0) as [p0|]; [|done].
      exists p0. split; [done|]. apply order_line_sans_stock.
      simpl in Hsame. congruence.
    + intros pid. by rewrite find_update_sans_stock.
Qed.

(** X4. The order of a checkout that is answered 201 is a snapshot of the
    cart against the catalog on disk: it has one item per cart line, in
    cart order, with the id, name and price of the product the line
    resolves to and the quantity of the line; it belongs to the requester
    and starts as pending with a single history entry. *)
Theorem checkout_order_snapshots_cart env req user sess d :
  status (reply (checkout env req user sess d)) = 201 →
  ∃ cart order,
    session_cart sess = Some cart ∧
    last (journal (disk_after (checkout env req user sess d)))
      = Some (WroteOrders (orders_json d ++ [order]) (write_ok env (filename ORDERS_FILE))) ∧
    Forall2 (fun line item =>
               ∃ p, JS.Array_find (has_id (item_productId line)) (products_json d) = Some p ∧
                    oi_productId item = product_id p ∧
                    oi_name item = product_name p ∧
                    oi_price item = product_price p ∧
                    oi_quantity item = item_quantity line)
      cart (order_items order) ∧
    order_userId order = user_id user ∧
    order_status order = "pending" ∧
    order_statusHistory order =
      [ {| se_status := "pending"; se_timestamp := now env; se_note := "Order placed" |} ].
Proof.
  intros H201.
  destruct (checkout_cases env req user sess d)
    as [(resp & Hs & Heq)|(cart & address & products' & orderItems & subtotal
                            & Hc & Ha & Hw & Hsub & Heq)].
  - rewrite Heq in H201. simpl in H201. congruence.
  - simpl in Heq. rewrite Heq. eexists cart, _.
    split; [done|]. split; [simpl; by rewrite last_snoc|].
    split; [|done]. simpl.
    destruct (walk_cart_items _ (products_json d) _ _ _ _ _ _ (fun _ => eq_refl) Hw)
      as (added & -> & Hall).
    simpl. eapply Forall2_impl; [exact Hall|].
    intros line item (p & Hp & ->). by exists p.
Qed.

Lemma checkout_order_snapshots_cart_witness :
  let cart0 := [Sample.line "A" 3; Sample.line "B" 1] in
  let d := Sample.disk Sample.catalog in
  let r := checkout (Sample.env true true) Sample.request Sample.ann (Sample.session cart0) d in
  ∃ cart order,
    session_cart (Sample.session cart0) = Some cart ∧
    last (journal (disk_after r)) = Some (WroteOrders (orders_json d ++ [order]) true) ∧
    Forall2 (fun line item =>
               ∃ p, JS.Array_find (has_id (item_productId line)) (products_json d) = Some p ∧
                    oi_productId item = product_id p ∧
                    oi_name item = product_name p ∧
                    oi_price item = product_price p ∧
                    oi_quantity item = item_quantity line)
      cart (order_items order) ∧
    order_userId order = user_id Sample.ann ∧
    order_status order = "pending" ∧
    order_statusHistory order =
      [ {| se_status := "pending"; se_timestamp := 1700000000000; se_note := "Order placed" |} ].
Proof.
  intros cart0 d.
  apply (checkout_order_snapshots_cart (Sample.env true true) Sample.request Sample.ann
           (Sample.session cart0) d).
  vm_compute. reflexivity.
Defined.

(** X5. An order that was placed and written shows up in its owner's
    listing: after a checkout answered 201 whose write of orders.json
    succeeded, the listing of the same user, with no status filter or with
    the filter "pending", contains an order with the id the checkout
    reported. *)
Theorem placed_order_is_listed env req user sess d :
  write_ok env (filename ORDERS_FILE) = true →
  status (reply (checkout env req user sess d)) = 201 →
  ∃ order msg orderNumber total,
    body (reply (checkout env req user sess d))
      = BOrderPlaced msg (order_id order) orderNumber total "pending" ∧
    order_userId order = user_id user ∧
    order ∈ list_orders None user (disk_after (checkout env req user sess d)) ∧
    order ∈ list_orders (Some "pending") user (disk_after (checkout env req user sess d)).
Proof.
  intros Hok H201.
  destruct (checkout_cases env req user sess d)
    as [(resp & Hs & Heq)|(cart & address & products' & orderItems & subtotal
                            & Hc & Ha & Hw & Hsub & Heq)].
  - rewrite Heq in H201. simpl in H201. congruence.
  - cbv zeta in Heq. rewrite Heq.
    set (order := new_order env user address (default "card" (paymentMethod req))
                    orderItems subtotal).
    set (d' := snd (writeData env ORDERS_FILE _ _)).
    assert (Horders : orders_json d' = orders_json d ++ [order]).
    { subst d'. simpl. simpl in Hok. by rewrite Hok. }
    assert (Hin : order ∈ orders_json d').
    { rewrite Horders. apply elem_of_app. right. by apply list_elem_of_singleton. }
    exists order. eexists _, _, _. cbn [reply body disk_after].
    split; [reflexivity|]. split; [reflexivity|].
    split; apply list_orders_elem.
    + split; [done|]. split; [by right|]. intros s Hs. done.
    + split; [done|]. split; [by right|]. intros s [= <-] _. done.
Qed.

Lemma placed_order_is_listed_witness :
  let r := checkout (Sample.env true true) Sample.request Sample.ann
             (Sample.session [Sample.line "A" 3; Sample.line "B" 1])
             (Sample.disk Sample.catalog) in
  ∃ order msg orderNumber total,
    body (reply r) = BOrderPlaced msg (order_id order) orderNumber total "pending" ∧
    order_userId order = user_id Sample.ann ∧
    order ∈ list_orders None Sample.ann (disk_after r) ∧
    order ∈ list_orders (Some "pending") Sample.ann (disk_after r).
Proof.
  apply (placed_order_is_listed (Sample.env true true) Sample.request Sample.ann
           (Sample.session [Sample.line "A" 3; Sample.line "B" 1])
           (Sample.disk Sample.catalog)).
  - reflexivity.
  - vm_compute. reflexivity.
Defined.

End CheckoutEffects.

(** ** Cart: adding, removing and counting *)

Section CartMore.
Import Helpers Cart.






Lemma alter_found {A} (f : A → bool) (g : A → A) l i :
  JS.Array_findIndex f l = Some i → alter g i l = JS.Array_update_found f g l.
Proof.
  revert i. induction l as [|y l IH]; intros i Hi; simpl in *; [done|].
  destruct (f y).
  - by injection Hi as <-.
  - destruct (JS.Array_findIndex f l) as [j|]; [|done].
    injection Hi as <-. change (alter g (S j) (y :: l)) with (y :: alter g j l).
    by rewrite (IH j).
Qed.

Lemma find_push_new {A} (f : A → bool) l x :
  JS.Array_findIndex f l = None → f x = true → JS.Array_find f (l ++ [x]) = Some x.
Proof.
  unfold JS.Array_find.
  induction l as [|y l IH]; simpl; intros Hnone Hx.
  - by rewrite Hx.
  - destruct (f y); [done|].
    destruct (JS.Array_findIndex f l); [done|]. by apply IH.
Qed.

Lemma findIndex_push_new {A} (f : A → bool) l x :
  JS.Array_findIndex f l = None → f x = true →
  JS.Array_findIndex f (l ++ [x]) = Some (length l).
Proof.
  induction l as [|y l IH]; simpl; intros Hnone Hx.
  - by rewrite Hx.
  - destruct (f y); [done|].
    destruct (JS.Array_findIndex f l); [done|]. by rewrite IH.
Qed.

Lemma with_cart_same sess cart : session_cart sess = Some cart → with_cart sess cart = sess.
Proof. destruct sess. simpl. by intros ->. Qed.

(** The two ways an add can be answered 200, whatever the request holds as
    quantity: the stock is compared with the Number the quantity converts
    to, and what is added is what [parseInt] makes of the quantity. *)
Lemma add_to_cart_cases env req sess d :
  answered (add_to_cart env req sess d) = 200 →
  ∃ productId product requested parsed,
    add_productId req = JS.Str productId ∧
    productId ≠ "" ∧
    JS.Array_find (has_id productId) (products_json d) = Some product ∧
    JS.ToNumber (JS.with_default (add_quantity req) (JS.Num 1)) = Some requested ∧
    JS.gt_Z requested (product_stock product) = false ∧
    JS.parseInt (JS.with_default (add_quantity req) (JS.Num 1)) = Some parsed ∧
    let cart := default [] (session_cart sess) in
    ((∃ existingIndex existing,
        JS.Array_findIndex (in_line productId) cart = Some existingIndex ∧
        cart !! existingIndex = Some existing ∧
        JS.Array_find (in_line productId) cart = Some existing ∧
        let newQuantity := JS.plus (item_quantity existing) parsed in
        JS.exceeds newQuantity (product_stock product) = false ∧
        add_to_cart env req sess d =
          match newQuantity with
          | JS.Finite n =>
              let cart' := alter (fun item => with_quantity item n) existingIndex cart in
              Done (ok {| status := 200;
                          body := BCartCount "Item added to cart" (cartCount cart') |}
                      (with_cart sess cart') d)
          | _ => StoredNonInteger productId newQuantity
          end) ∨
     (JS.Array_findIndex (in_line productId) cart = None ∧
      add_to_cart env req sess d =
        match parsed with
        | JS.Finite n =>
            let cart' :=
              cart ++ [ {| item_productId := productId; item_quantity := n;
                           item_addedAt := now env |} ] in
            Done (ok {| status := 200;
                        body := BCartCount "Item added to cart" (cartCount cart') |}
                    (with_cart sess cart') d)
        | _ => StoredNonInteger productId parsed
        end)).
Proof.
  unfold add_to_cart, readData. cbv zeta.
  destruct (add_productId req) as [| |b|x|productId|primitive];
    try (destruct (negb (JS.ToBoolean _)); cbn; discriminate).
  destruct (JS.truthy productId) eqn:Htruthy; cbn [negb]; [|cbn; discriminate].
  destruct (JS.Array_find (has_id productId) (products_json d)) as [product|] eqn:Hprod;
    [|cbn; discriminate].
  destruct (JS.ToNumber (JS.with_default (add_quantity req) (JS.Num 1)))
    as [requested|] eqn:Hnumber; [|cbn; discriminate].
  destruct (JS.gt_Z requested (product_stock product)) eqn:Hstock; [cbn; discriminate|].
  destruct (JS.parseInt (JS.with_default (add_quantity req) (JS.Num 1)))
    as [parsed|] eqn:Hparsed; [|cbn; discriminate].
  intros H200. exists productId, product, requested, parsed.
  split; [done|]. split.
  { intros ->. vm_compute in Htruthy. discriminate. }
  split; [done|]. split; [done|]. split; [done|]. split; [done|].
  destruct (JS.Array_findIndex (in_line productId) (default [] (session_cart sess)))
    as [existingIndex|] eqn:Hi.
  - destruct (findIndex_Some _ _ _ Hi) as (existing & Hlook & _ & Hfind).
    rewrite Hlook in *. cbn [from_option] in *.
    destruct (JS.exceeds (JS.plus (item_quantity existing) parsed) (product_stock product))
      eqn:Hnew; [cbn in H200; discriminate|].
    left. exists existingIndex, existing. by destruct (JS.plus _ _).
  - right. split; [done|]. by destruct parsed.
Qed.

(** An add that is not answered 200 returns before it has changed
    anything. *)
Lemma add_to_cart_rejected env req sess d :
  answered (add_to_cart env req sess d) ≠ 200 →
  ∃ r, add_to_cart env req sess d = Done r ∧ session_after r = sess ∧ disk_after r = d.
Proof.
  unfold add_to_cart, readData. cbv zeta.
  destruct (add_productId req) as [| |b|x|productId|primitive];
    try (destruct (negb (JS.ToBoolean _)); intros _; by eexists).
  destruct (negb (JS.truthy productId)); [intros _; by eexists|].
  destruct (JS.Array_find (has_id productId) (products_json d)) as [product|];
    [|intros _; by eexists].
  destruct (JS.ToNumber (JS.with_default (add_quantity req) (JS.Num 1)))
    as [requested|] eqn:Hnumber; [|intros _; by eexists].
  destruct (JS.gt_Z requested (product_stock product)); [intros _; by eexists|].
  destruct (parseInt_defined _ _ Hnumber) as [parsed ->].
  destruct (JS.Array_findIndex (in_line productId) (default [] (session_cart sess)))
    as [existingIndex|] eqn:Hi.
  - destruct (session_cart sess) as [cart|] eqn:Hcart; [|done]. cbn [default] in *.
    destruct (JS.exceeds _ _).
    + intros _. eexists. split; [done|]. split; [|done].
      cbn [session_after ok]. by apply with_cart_same.
    + by destruct (JS.plus _ _).
  - by destruct parsed.
Qed.

Lemma update_cart_rejected req sess d :
  answered (update_cart req sess d) ≠ 200 →
  ∃ r, update_cart req sess d = Done r ∧ session_after r = sess ∧ disk_after r = d.
Proof.
  unfold update_cart, readData. cbv zeta.
  destruct (negb (JS.ToBoolean (upd_productId req)) || is_undefined (upd_quantity req));
    [intros _; by eexists|].
  destruct (session_cart sess) as [cart|]; [|intros _; by eexists].
  destruct (upd_productId req) as [| |b|x|productId|primitive];
    try (intros _; by eexists).
  destruct (JS.Array_findIndex (in_line productId) cart) as [itemIndex|];
    [|intros _; by eexists].
  destruct (JS.ToNumber (upd_quantity req)) as [requested|] eqn:Hnumber;
    [|intros _; by eexists].
  destruct (JS.le_Z requested 0); [done|].
  destruct (match JS.Array_find (has_id productId) (products_json d) with
            | Some product => JS.gt_Z requested (product_stock product)
            | None => false
            end); [intros _; by eexists|].
  destruct (parseInt_defined _ _ Hnumber) as [parsed ->]. by destruct parsed.
Qed.

(** X6. An add that asks for an integer (or for nothing, which stands for
    1) and succeeds never puts more of a product in the cart than the
    catalog has in stock: the cart line of the product then holds a
    quantity that the product's stock on disk covers. *)
Theorem add_to_cart_stays_within_stock env req sess d n r :
  asks_for (JS.with_default (add_quantity req) (JS.Num 1)) n →
  add_to_cart env req sess d = Done r →
  status (reply r) = 200 →
  ∃ productId product cart' line,
    add_productId req = JS.Str productId ∧
    JS.Array_find (has_id productId) (products_json d) = Some product ∧
    session_cart (session_after r) = Some cart' ∧
    JS.Array_find (in_line productId) cart' = Some line ∧
    item_quantity line ≤ product_stock product.
Proof.
  intros (x & Hquantity & Hx & Hn) Hdone H200.
  assert (Hanswered : answered (add_to_cart env req sess d) = 200) by by rewrite Hdone.
  destruct (add_to_cart_cases env req sess d Hanswered)
    as (productId & product & requested & parsed & Hreq & Hne & Hprod & Hnumber & Hstock
        & Hparsed & Hcases).
  rewrite Hquantity in Hnumber, Hparsed. injection Hnumber as <-.
  rewrite (integer_parseInt x n Hx Hn) in Hparsed. injection Hparsed as <-.
  rewrite (integer_gt_Z x n _ Hx) in Hstock. apply Z.ltb_ge in Hstock.
  cbv zeta in Hcases. rewrite Hdone in Hcases.
  destruct Hcases as [(i & existing & Hi & Hlook & Hfind & Hnew & Hadd)|(Hi & Hadd)].
  - destruct (JS.plus (item_quantity existing) (JS.Finite n)) as [|negative|m]; try done.
    injection Hadd as ->. unfold JS.exceeds in Hnew. apply Z.ltb_ge in Hnew.
    eexists productId, product, _, _. split; [done|]. split; [done|].
    split; [reflexivity|]. rewrite (alter_found _ _ _ _ Hi).
    split.
    + apply (find_update_found _ _ _ _ Hfind).
      apply find_some in Hfind as [_ Hin]. exact Hin.
    + exact Hnew.
  - injection Hadd as ->.
    eexists productId, product, _, _. split; [done|]. split; [done|].
    split; [reflexivity|]. split.
    + apply find_push_new; [done|]. unfold in_line. simpl. apply String.eqb_refl.
    + exact Hstock.
Qed.

Lemma add_to_cart_stays_within_stock_witness :
  let req := {| add_productId := JS.Str "A"; add_quantity := JS.Num 2 |} in
  let sess := Sample.session [Sample.line "A" 3; Sample.line "B" 1] in
  let d := Sample.disk Sample.catalog in
  let r := ok {| status := 200; body := BCartCount "Item added to cart" 6 |}
             (Sample.session [Sample.line "A" 5; Sample.line "B" 1]) d in
  ∃ productId product cart' line,
    add_productId req = JS.Str productId ∧
    JS.Array_find (has_id productId) (products_json d) = Some product ∧
    session_cart (session_after r) = Some cart' ∧
    JS.Array_find (in_line productId) cart' = Some line ∧
    item_quantity line ≤ product_stock product.
Proof.
  intros req sess d r.
  apply (add_to_cart_stays_within_stock (Sample.env true true) req sess d 2 r).
  - exists 2%float. split; [reflexivity|]. split; vm_compute; reflexivity.
  - vm_compute. reflexivity.
  - reflexivity.
Defined.

(** What the stock check lets through when the quantity is no integer: it
    compares the Number the quantity converts to, and ["99x"] converts to
    NaN, which exceeds no stock, while [parseInt] reads 99 from it; of a
    product with 2 in stock the cart then holds 99.  A quantity of [null]
    is stored as NaN. *)
Example add_to_cart_unchecked_quantities :
  let sess := Sample.session [Sample.line "A" 3] in
  let d := Sample.disk Sample.catalog in
  let add pid q :=
    add_to_cart (Sample.env true true) {| add_productId := JS.Str pid; add_quantity := q |}
      sess d in
  let cart_after o :=
    match o with
    | Done r => session_cart (session_after r)
    | StoredNonInteger _ _ => None
    end in
  cart_after (add "B" (JS.Str "99x")) =
    Some [Sample.line "A" 3; {| item_productId := "B"; item_quantity := 99;
                                item_addedAt := 1700000000000 |}] ∧
  cart_after (add "A" (JS.Num 1.9)) = Some [Sample.line "A" 4] ∧
  cart_after (add "A" (JS.Str "2")) = Some [Sample.line "A" 5] ∧
  answered (add "A" (JS.Num 3)) = 400 ∧
  answered (add "B" (JS.Num 3)) = 400 ∧
  add "B" JS.Null = StoredNonInteger "B" JS.NaN ∧
  add "A" (JS.Str "") = StoredNonInteger "A" JS.NaN ∧
  answered (add "B" (JS.Object None)) = 500 ∧
  answered
    (add_to_cart (Sample.env true true)
       {| add_productId := JS.Num 7; add_quantity := JS.Num 1 |} sess d) = 404 ∧
  answered
    (add_to_cart (Sample.env true true)
       {| add_productId := JS.Null; add_quantity := JS.Num 1 |} sess d) = 400.
Proof. vm_compute. repeat split. Qed.

(** Beyond 2^53 a sum is rounded: one more of a product whose line holds
    2^53 is answered 200 and leaves the line, and the count, as they
    were. *)
Example add_to_cart_beyond_safe_integers :
  let big := 9007199254740992 in
  let sess := Sample.session [Sample.line "A" big] in
  let d := Sample.disk [Sample.product "A" 19.99 big] in
  add_to_cart (Sample.env true true)
    {| add_productId := JS.Str "A"; add_quantity := JS.Num 1 |} sess d =
  Done (ok {| status := 200; body := BCartCount "Item added to cart" big |} sess d).
Proof. vm_compute. reflexivity. Qed.



(** X8. A cart request that is not answered 200 changes nothing, whatever
    it holds: after a rejected add, update or remove the session, cart
    included, and the disk are what they were. *)
Theorem cart_rejections_change_nothing env sess d :
  (∀ req, answered (add_to_cart env req sess d) ≠ 200 →
     ∃ r, add_to_cart env req sess d = Done r ∧
          session_after r = sess ∧ disk_after r = d) ∧
  (∀ req, answered (update_cart req sess d) ≠ 200 →
     ∃ r, update_cart req sess d = Done r ∧
          session_after r = sess ∧ disk_after r = d) ∧
  (∀ productId, status (reply (remove_from_cart productId sess d)) ≠ 200 →
     session_after (remove_from_cart productId sess d) = sess ∧
     disk_after (remove_from_cart productId sess d) = d).
Proof.
  split; [|split].
  - intros req. apply add_to_cart_rejected.
  - intros req. apply update_cart_rejected.
  - intros productId. unfold remove_from_cart. repeat case_match; simpl; done.
Qed.

(** X9. Adding a product the cart does not hold and then removing it gives
    the cart back: the session after the two requests is the session
    before them. *)
Theorem add_then_remove_restores_cart env req sess d cart productId added :
  session_cart sess = Some cart →
  add_productId req = JS.Str productId →
  (∀ line, line ∈ cart → item_productId line ≠ productId) →
  add_to_cart env req sess d = Done added →
  status (reply added) = 200 →
  let removed := remove_from_cart productId (session_after added) (disk_after added) in
  status (reply removed) = 200 ∧
  session_after removed = sess ∧
  disk_after removed = d.
Proof.
  intros Hcart Hreq Hnew Hdone H200 removed.
  assert (Hanswered : answered (add_to_cart env req sess d) = 200) by by rewrite Hdone.
  destruct (add_to_cart_cases env req sess d Hanswered)
    as (productId' & product & requested & parsed & Hreq' & Hne & Hprod & Hnumber & Hstock
        & Hparsed & Hcases).
  rewrite Hreq in Hreq'. injection Hreq' as <-.
  cbv zeta in Hcases. rewrite Hcart, Hdone in Hcases. cbn [default] in Hcases.
  destruct Hcases as [(i & existing & Hi & Hlook & Hfind & _)|(Hi & Hadd)].
  - apply find_some in Hfind as [Hin Hline].
    apply list_elem_of_In, Hnew in Hin. unfold in_line in Hline.
    by apply String.eqb_eq in Hline.
  - destruct parsed as [|negative|n]; try done. injection Hadd as ->.
    subst removed. unfold remove_from_cart, ok. simpl.
    rewrite findIndex_push_new; [|done|unfold in_line; simpl; apply String.eqb_refl].
    simpl.
    assert (Hdel : ∀ (l : list CartItem) x, delete (length l) (l ++ [x]) = l).
    { intros l x. induction l as [|y l IH]; [done|]. simpl. f_equal. exact IH. }
    rewrite Hdel. split; [done|]. split; [|done].
    unfold with_cart. simpl. destruct sess. simpl in *. by rewrite Hcart.
Qed.

Lemma add_then_remove_restores_cart_witness :
  let req := {| add_productId := JS.Str "E"; add_quantity := JS.Num 2 |} in
  let sess := Sample.session [Sample.line "A" 3; Sample.line "B" 1] in
  let d := Sample.disk Sample.catalog in
  let added :=
    ok {| status := 200; body := BCartCount "Item added to cart" 6 |}
      (Sample.session
         [Sample.line "A" 3; Sample.line "B" 1;
          {| item_productId := "E"; item_quantity := 2; item_addedAt := 1700000000000 |}])
      d in
  let removed := remove_from_cart "E" (session_after added) (disk_after added) in
  status (reply removed) = 200 ∧
  session_after removed = sess ∧
  disk_after removed = d.
Proof.
  intros req sess d added.
  apply (add_then_remove_restores_cart (Sample.env true true) req sess d
           [Sample.line "A" 3; Sample.line "B" 1] "E" added).
  - reflexivity.
  - reflexivity.
  - intros line Hin.
    apply elem_of_cons in Hin as [->|Hin]; [discriminate|].
    apply elem_of_cons in Hin as [->|Hin]; [discriminate|].
    by apply elem_of_nil in Hin.
  - vm_compute. reflexivity.
  - reflexivity.
Defined.





(** X11. Every handler that touches the session cart keeps it at one line
    per product: if the cart has no two lines for the same product before
    an add, an update, a remove, a clear, a read or a checkout, it has none
    after it. *)
Theorem cart_handlers_keep_one_line_per_product env sess d :
  cart_invariant sess →
  (∀ req r, add_to_cart env req sess d = Done r → cart_invariant (session_after r)) ∧
  (∀ req r, update_cart req sess d = Done r → cart_invariant (session_after r)) ∧
  (∀ productId, cart_invariant (session_after (remove_from_cart productId sess d))) ∧
  cart_invariant (session_after (clear_cart sess d)) ∧
  cart_invariant (session_after (get_cart sess d)) ∧
  (∀ req user, cart_invariant (session_after (Orders.checkout env req user sess d))).
Proof.
  intros Hinv. repeat split.
  - intros req r. by apply add_to_cart_keeps_invariant.
  - intros req r. by apply update_cart_keeps_invariant.
  - intros productId. by apply remove_from_cart_keeps_invariant.
  - apply clear_cart_keeps_invariant.
  - exact Hinv.
  - intros req user. by apply checkout_keeps_invariant.
Qed.

Lemma cart_handlers_keep_one_line_per_product_witness :
  let sess := Sample.session [Sample.line "A" 3; Sample.line "B" 1] in
  let d := Sample.disk Sample.catalog in
  let env := Sample.env true true in
  (∀ req r, add_to_cart env req sess d = Done r → cart_invariant (session_after r)) ∧
  (∀ req r, update_cart req sess d = Done r → cart_invariant (session_after r)) ∧
  (∀ productId, cart_invariant (session_after (remove_from_cart productId sess d))) ∧
  cart_invariant (session_after (clear_cart sess d)) ∧
  cart_invariant (session_after (get_cart sess d)) ∧
  (∀ req user, cart_invariant (session_after (Orders.checkout env req user sess d))).
Proof.
  intros sess d env.
  apply (cart_handlers_keep_one_line_per_product env sess d).
  apply (bool_decide_unpack _). vm_compute. exact I.
Defined.

(** X12. A cart with no line that resolves, be it undefined, empty or
    holding only products that are gone, is shown with no items, a count
    and subtotal of 0, and still the flat shipping rate: a total of 9.99. *)
Theorem get_cart_without_resolvable_lines sess d :
  List.filter (resolves (products_json d)) (default [] (session_cart sess)) = [] →
  reply (get_cart sess d) =
    {| status := 200;
       body := BCart []
                 {| itemCount := 0; sum_subtotal := 0%float; sum_shipping := 9.99%float;
                    sum_tax := 0%float; sum_total := 9.99%float |} |}.
Proof.
  intros Hnone. unfold get_cart, ok, readData. simpl.
  assert (Hitems : omap (enrich (products_json d)) (default [] (session_cart sess)) = []).
  { apply fmap_nil_inv with (f := ei_item). by rewrite enriched_lines. }
  rewrite Hitems. vm_compute. reflexivity.
Qed.

Lemma get_cart_without_resolvable_lines_witness :
  reply (get_cart (Sample.session [Sample.line "GONE" 2; Sample.line "OLD" 1])
           (Sample.disk Sample.catalog)) =
    {| status := 200;
       body := BCart []
                 {| itemCount := 0; sum_subtotal := 0%float; sum_shipping := 9.99%float;
                    sum_tax := 0%float; sum_total := 9.99%float |} |}.
Proof.
  apply (get_cart_without_resolvable_lines
           (Sample.session [Sample.line "GONE" 2; Sample.line "OLD" 1])
           (Sample.disk Sample.catalog)).
  vm_compute. reflexivity.
Defined.

End CartMore.

(** ** Catalog: pages, filters and sorting *)

Section CatalogMore.
Import Helpers Products.

Lemma Array_slice_window {A} (l : list A) start size :
  0 ≤ start → 0 ≤ size →
  JS.Array_slice l start (start + size) = take (Z.to_nat size) (drop (Z.to_nat start) l).
Proof.
  intros Hstart Hsize. unfold JS.Array_slice, JS.slice_index.
  destruct (start <? 0) eqn:Hs; [apply Z.ltb_lt in Hs; lia|].
  destruct (start + size <? 0) eqn:Hs'; [apply Z.ltb_lt in Hs'; lia|].
  destruct (Z.le_gt_cases (Z.of_nat (length l)) start) as [Hbeyond|Hwithin].
  - rewrite (Z.min_r start) by lia. rewrite Nat2Z.id, drop_all.
    rewrite (drop_ge l (Z.to_nat start)) by lia. by rewrite !take_nil.
  - rewrite (Z.min_l start) by lia.
    destruct (Z.le_gt_cases (start + size) (Z.of_nat (length l))) as [Hfits|Hover].
    + rewrite Z.min_l by lia. f_equal. lia.
    + rewrite Z.min_r by lia.
      rewrite !take_ge; [done|rewrite length_drop; lia|rewrite length_drop; lia].
Qed.

Lemma concat_windows {A} (l : list A) (size : nat) : ∀ n : nat,
  concat ((fun k : nat => take size (drop (k * size) l)) <$> seq 0 n) = take (n * size) l.
Proof.
  induction n as [|n IH]; [by rewrite take_0|].
  rewrite seq_S, fmap_app, concat_app, IH. simpl. rewrite app_nil_r.
  rewrite take_take_drop. f_equal. lia.
Qed.

Lemma get_products_window localeCompare q sess d :
  0 < default 12 (q_limit q) →
  1 ≤ default 1 (q_page q) →
  page_products (get_products localeCompare q sess d)
  = take (Z.to_nat (default 12 (q_limit q)))
      (drop (Z.to_nat ((default 1 (q_page q) - 1) * default 12 (q_limit q)))
         (select_products localeCompare q (products_json d))).
Proof.
  intros Hsize Hpage. unfold page_products, get_products, readData. simpl.
  apply Array_slice_window; nia.
Qed.

(** X13. A catalog page is a window on the selection: for a positive page
    size and a page number from 1, the products returned are those at
    positions (page - 1) * pageSize and up in the filtered and sorted
    collection, at most pageSize of them. *)
Theorem catalog_page_is_a_window localeCompare q sess d :
  let pageSize := default 12 (q_limit q) in
  let page := default 1 (q_page q) in
  let selection := select_products localeCompare q (products_json d) in
  let products := page_products (get_products localeCompare q sess d) in
  0 < pageSize →
  1 ≤ page →
  Z.of_nat (length products) ≤ pageSize ∧
  ∀ i : nat,
    products !! i =
    if decide (Z.of_nat i < pageSize)
    then selection !! (Z.to_nat ((page - 1) * pageSize) + i)%nat
    else None.
Proof.
  intros pageSize page selection products Hsize Hpage.
  subst products. rewrite get_products_window by done.
  fold pageSize page selection. split.
  - rewrite length_take. lia.
  - intros i. destruct (decide (Z.of_nat i < pageSize)) as [Hlt|Hge].
    + rewrite lookup_take_lt by lia. by rewrite lookup_drop.
    + rewrite lookup_take_ge by lia. done.
Qed.

Lemma catalog_page_is_a_window_witness :
  let q := Sample.query (Some "newest") (Some 2) (Some 2) in
  let sess := Sample.session [] in
  let d := Sample.disk Sample.catalog in
  let selection := select_products Sample.collate q (products_json d) in
  let products := page_products (get_products Sample.collate q sess d) in
  Z.of_nat (length products) ≤ 2 ∧
  ∀ i : nat,
    products !! i =
    if decide (Z.of_nat i < 2)
    then selection !! (Z.to_nat ((2 - 1) * 2) + i)%nat
    else None.
Proof.
  intros q sess d.
  apply (catalog_page_is_a_window Sample.collate q sess d); simpl; lia.
Defined.

(** X14. The pages of a catalog query partition the selection: for a
    positive page size, the products of pages 1 to totalPages, one after
    the other, are the filtered and sorted collection, so no product is
    skipped and none shows twice. *)
Theorem catalog_pages_partition_selection localeCompare q sess d :
  let pageSize := default 12 (q_limit q) in
  let selection := select_products localeCompare q (products_json d) in
  0 < pageSize →
  ∃ totalPages,
    JS.Math_ceil_div (Z.of_nat (length selection)) pageSize = Some totalPages ∧
    concat ((fun k : nat =>
               page_products
                 (get_products localeCompare (with_page q (Z.of_nat k + 1)) sess d))
            <$> seq 0 (Z.to_nat totalPages))
    = selection.
Proof.
  intros pageSize selection Hsize.
  destruct (Math_ceil_div_spec (Z.of_nat (length selection)) pageSize Hsize)
    as (totalPages & Hceil & Hbounds).
  exists totalPages. split; [done|].
  transitivity (take (Z.to_nat totalPages * Z.to_nat pageSize) selection);
    [|apply take_ge; nia].
  rewrite <- concat_windows. f_equal. apply list_fmap_ext. intros _ k _.
  rewrite get_products_window; simpl; [|done|lia].
  fold pageSize.
  change (select_products localeCompare (with_page q (Z.of_nat k + 1)) (products_json d))
    with selection.
  f_equal. f_equal. nia.
Qed.

Lemma catalog_pages_partition_selection_witness :
  let q := Sample.query (Some "newest") (Some 3) None in
  let sess := Sample.session [] in
  let d := Sample.disk Sample.catalog in
  let selection := select_products Sample.collate q (products_json d) in
  ∃ totalPages,
    JS.Math_ceil_div (Z.of_nat (length selection)) 3 = Some totalPages ∧
    concat ((fun k : nat =>
               page_products
                 (get_products Sample.collate (with_page q (Z.of_nat k + 1)) sess d))
            <$> seq 0 (Z.to_nat totalPages))
    = selection.
Proof.
  intros q sess d.
  apply (catalog_pages_partition_selection Sample.collate q sess d). simpl. lia.
Defined.

Lemma elem_of_filter_if {A B} (param : option B) (keep : B → A → bool) l x :
  x ∈ filter_if param keep l ↔ x ∈ l ∧ ∀ v, param = Some v → keep v x = true.
Proof.
  unfold filter_if. destruct param as [v|].
  - rewrite elem_of_List_filter. naive_solver.
  - naive_solver.
Qed.

Lemma elem_of_filter_products q products p :
  p ∈ filter_products q products ↔
    p ∈ products ∧
    (∀ s, q_search q = Some s → matches_search s p = true) ∧
    (∀ c, q_category q = Some c → same_ci (product_category p) c = true) ∧
    (∀ c, q_subcategory q = Some c → same_ci (product_subcategory p) c = true) ∧
    (∀ c, q_brand q = Some c → same_ci (product_brand p) c = true) ∧
    (∀ m, q_minPrice q = Some m → (m <=? product_price p)%float = true) ∧
    (∀ m, q_maxPrice q = Some m → (product_price p <=? m)%float = true) ∧
    (q_featured q = Some "true" → product_featured p = true).
Proof.
  unfold filter_products.
  assert (Hfeat : ∀ l,
            p ∈ match q_featured q with
                | Some "true" => List.filter product_featured l
                | _ => l
                end ↔
            p ∈ l ∧ (q_featured q = Some "true" → product_featured p = true)).
  { intros l. destruct (q_featured q) as [f|]; [|naive_solver].
    destruct (decide (f = "true")) as [->|Hne].
    - rewrite elem_of_List_filter. naive_solver.
    - assert (match f with
              | "true" => List.filter product_featured l
              | _ => l
              end = l) as ->.
      { repeat (case_match; try done). }
      naive_solver. }
  rewrite Hfeat, !elem_of_filter_if. naive_solver.
Qed.

Lemma sort_products_perm localeCompare sort products :
  sort_products localeCompare sort products ≡ₚ products.
Proof.
  unfold sort_products. repeat case_match; try done; apply Array_sort_perm.
Qed.

Lemma elem_of_Array_slice {A} (l : list A) start stop x :
  x ∈ JS.Array_slice l start stop → x ∈ l.
Proof.
  unfold JS.Array_slice. intros Hx.
  eapply elem_of_sublist; [|apply sublist_drop].
  eapply elem_of_sublist; [exact Hx|apply sublist_take].
Qed.

(** X15. Every product a catalog query returns is in the collection on disk
    and passes each filter the query supplies: the search term occurs in
    its name, description or a tag; category, subcategory and brand match
    without regard to case; the price lies within the bounds; and it is
    featured when featured=true is asked for. *)
Theorem catalog_results_pass_the_filters localeCompare q sess d p :
  p ∈ page_products (get_products localeCompare q sess d) →
  p ∈ products_json d ∧
  (∀ s, q_search q = Some s →
     let t := JS.toLowerCase s in
     JS.includes (JS.toLowerCase (product_name p)) t = true ∨
     JS.includes (JS.toLowerCase (product_description p)) t = true ∨
     ∃ tag, tag ∈ product_tags p ∧ JS.includes (JS.toLowerCase tag) t = true) ∧
  (∀ c, q_category q = Some c →
     JS.toLowerCase (product_category p) = JS.toLowerCase c) ∧
  (∀ c, q_subcategory q = Some c →
     JS.toLowerCase (product_subcategory p) = JS.toLowerCase c) ∧
  (∀ c, q_brand q = Some c → JS.toLowerCase (product_brand p) = JS.toLowerCase c) ∧
  (∀ m, q_minPrice q = Some m → (m <=? product_price p)%float = true) ∧
  (∀ m, q_maxPrice q = Some m → (product_price p <=? m)%float = true) ∧
  (q_featured q = Some "true" → product_featured p = true).
Proof.
  unfold page_products, get_products, readData. simpl. intros Hp.
  apply elem_of_Array_slice in Hp. unfold select_products in Hp.
  rewrite sort_products_perm in Hp.
  apply elem_of_filter_products in Hp
    as (Hin & Hsearch & Hcat & Hsub & Hbrand & Hmin & Hmax & Hfeat).
  split; [done|]. split.
  { intros s Hs. cbv zeta. specialize (Hsearch s Hs). unfold matches_search in Hsearch.
    apply orb_true_iff in Hsearch as [Hsearch|Htags].
    - apply orb_true_iff in Hsearch as [?|?]; auto.
    - right. right. apply existsb_exists in Htags as (tag & Htag & Hinc).
      exists tag. split; [by apply list_elem_of_In|done]. }
  unfold same_ci in *.
  repeat split; try done; intros c Hc.
  - by apply String.eqb_eq, Hcat.
  - by apply String.eqb_eq, Hsub.
  - by apply String.eqb_eq, Hbrand.
Qed.

Lemma catalog_results_pass_the_filters_witness :
  let q := Sample.query (Some "newest") (Some 2) (Some 2) in
  let p := Sample.product "D" 12 0 in
  p ∈ products_json (Sample.disk Sample.catalog) ∧
  (∀ s, q_search q = Some s →
     let t := JS.toLowerCase s in
     JS.includes (JS.toLowerCase (product_name p)) t = true ∨
     JS.includes (JS.toLowerCase (product_description p)) t = true ∨
     ∃ tag, tag ∈ product_tags p ∧ JS.includes (JS.toLowerCase tag) t = true) ∧
  (∀ c, q_category q = Some c →
     JS.toLowerCase (product_category p) = JS.toLowerCase c) ∧
  (∀ c, q_subcategory q = Some c →
     JS.toLowerCase (product_subcategory p) = JS.toLowerCase c) ∧
  (∀ c, q_brand q = Some c → JS.toLowerCase (product_brand p) = JS.toLowerCase c) ∧
  (∀ m, q_minPrice q = Some m → (m <=? product_price p)%float = true) ∧
  (∀ m, q_maxPrice q = Some m → (product_price p <=? m)%float = true) ∧
  (q_featured q = Some "true" → product_featured p = true).
Proof.
  intros q p.
  apply (catalog_results_pass_the_filters Sample.collate q (Sample.session [])
           (Sample.disk Sample.catalog) p).
  vm_compute. do 1 constructor.
Defined.

(** Letters beyond A to Z are matched without regard to case as well: a
    query for the category CAFÉ returns the product filed under café. *)
Example catalog_category_beyond_ascii :
  let p := with_stock (Sample.product "K" 3 1) 1 in
  let coffee :=
    {| product_id := "K"; product_name := "Espresso"; product_description := "";
       product_price := 3; product_originalPrice := 3; product_category := Sample.cafe;
       product_subcategory := ""; product_brand := ""; product_images := [];
       product_stock := 1; product_rating := 0; product_featured := false;
       product_tags := [Sample.cafe]; product_createdAt := 0 |} in
  let q category search :=
    {| q_search := search; q_category := category; q_subcategory := None;
       q_brand := None; q_minPrice := None; q_maxPrice := None; q_sort := None;
       q_featured := None; q_limit := None; q_page := None |} in
  let found q :=
    page_products
      (get_products Sample.collate q (Sample.session []) (Sample.disk [p; coffee])) in
  same_ci Sample.CAFE Sample.cafe = true ∧
  found (q (Some Sample.CAFE) None) = [coffee] ∧
  found (q None (Some Sample.CAFE)) = [coffee] ∧
  found (q (Some "CAFE") None) = [].
Proof. vm_compute. done. Qed.

(** X16. Sorting only reorders: whatever the sort key, the selection is a
    permutation of the products that pass the filters; with no key or a key
    the handler does not know it is those products in their order on disk;
    and with the key "newest" it runs from the newest product to the
    oldest. *)
Theorem catalog_sort_only_reorders localeCompare q d :
  let filtered := filter_products q (products_json d) in
  let selection := select_products localeCompare q (products_json d) in
  selection ≡ₚ filtered ∧
  (q_sort q = None → selection = filtered) ∧
  (∀ key, q_sort q = Some key → key ∉ known_sorts → selection = filtered) ∧
  (q_sort q = Some "newest" → newest_product_first selection).
Proof.
  intros filtered selection. subst selection. unfold select_products. fold filtered.
  split; [apply sort_products_perm|]. split; [by intros ->|]. split.
  - intros key -> Hkey. unfold sort_products.
    repeat (case_match; try done); subst; exfalso; apply Hkey;
      unfold known_sorts; set_solver.
  - intros ->. unfold sort_products, newest_product_first.
    apply Array_sort_sorted; intros a b.
    + intros H%Z.ltb_lt. lia.
    + intros H%Z.ltb_ge. lia.
    + intros c ? ?. lia.
Qed.

End CatalogMore.

(** ** Orders: reading one order and updating its status *)

Section OrderRoutesFacts.
Import Helpers OrderRoutes.

Lemma find_None_iff {A} (f : A → bool) l :
  JS.Array_find f l = None ↔ ∀ x, x ∈ l → f x = false.
Proof.
  unfold JS.Array_find. split.
  - intros Hnone x Hx. apply list_elem_of_In in Hx.
    by apply (find_none f l Hnone).
  - intros Hall. induction l as [|y l IH]; simpl; [done|].
    rewrite (Hall y) by constructor. apply IH. intros x Hx. apply Hall. by constructor.
Qed.

(** X17. Reading one order never shows it to a stranger and never writes:
    an order is returned only if it is on disk under the requested id and
    the requester owns it or is an admin; the owner and an admin do get the
    first order stored under that id; a stranger gets 403; and an id that
    no stored order has gets 404. *)
Theorem get_order_access id user d :
  let r := get_order id user d in
  o_disk r = d ∧
  (∀ order, o_body r = OOrder order →
     order ∈ orders_json d ∧ order_id order = id ∧
     (order_userId order = user_id user ∨ user_role user = "admin")) ∧
  (∀ order, JS.Array_find (has_order_id id) (orders_json d) = Some order →
     if decide (order_userId order = user_id user ∨ user_role user = "admin")
     then o_status r = 200 ∧ o_body r = OOrder order
     else o_status r = 403) ∧
  ((∀ o, o ∈ orders_json d → order_id o ≠ id) → o_status r = 404).
Proof.
  intros r. subst r. unfold get_order, readData.
  destruct (JS.Array_find (has_order_id id) (orders_json d)) as [order|] eqn:Hfind.
  - pose proof Hfind as Hsome. apply find_some in Hsome as [Hin Hid].
    apply list_elem_of_In in Hin. unfold has_order_id in Hid. apply String.eqb_eq in Hid.
    destruct (String.eqb_spec (order_userId order) (user_id user)) as [Hown|Hown];
      destruct (String.eqb_spec (user_role user) "admin") as [Hadm|Hadm]; simpl.
    all: split; [done|]; split; [try (intros o [= <-]; auto); done|]; split.
    all: try (intros o [= <-]; case_decide; naive_solver).
    all: intros Hnone; by apply Hnone in Hin.
  - split; [done|]. split; [done|]. split; [done|]. done.
Qed.

(** The order that a status update puts in place of the one it finds. *)
Lemma update_status_cases env id req d :
  (o_status (update_status env id req d) ≠ 200 ∧ o_disk (update_status env id req d) = d) ∨
  (∃ status orderIndex order,
     sb_status req = Some status ∧
     is_valid_status status = true ∧
     JS.Array_findIndex (has_order_id id) (orders_json d) = Some orderIndex ∧
     orders_json d !! orderIndex = Some order ∧
     let entry := {| se_status := status; se_timestamp := now env;
                     se_note := note_or_default (sb_note req) status |} in
     let updated := with_new_status status entry (now env) order in
     update_status env id req d =
       {| o_status := 200;
          o_body := OUpdated "Order status updated" (Some updated);
          o_disk := snd (writeData env ORDERS_FILE
                           (<[orderIndex := updated]> (orders_json d)) d) |}).
Proof.
  unfold update_status, readData.
  destruct (sb_status req) as [status|]; [|by left].
  destruct (is_valid_status status) eqn:Hvalid; simpl; [|by left].
  destruct (JS.Array_findIndex (has_order_id id) (orders_json d)) as [orderIndex|] eqn:Hi;
    [|by left].
  destruct (findIndex_Some _ _ _ Hi) as (order & Hlook & _ & _).
  right. exists status, orderIndex, order. repeat (split; [done|]). cbv zeta.
  rewrite (alter_as_insert _ _ _ _ Hlook).
  rewrite list_lookup_insert_eq by (by eapply lookup_lt_Some). done.
Qed.

(** X18. A status update with a valid status for a stored order appends one
    entry to the order's history, sets its status and update time, and
    leaves its id, owner, items, totals and creation time alone; the
    updated order takes the place of the old one in the collection handed
    to [writeData], and is the one in the reply. *)
Theorem update_status_appends_history env id req d status orderIndex order :
  sb_status req = Some status →
  status ∈ validStatuses →
  JS.Array_findIndex (has_order_id id) (orders_json d) = Some orderIndex →
  orders_json d !! orderIndex = Some order →
  let r := update_status env id req d in
  ∃ updated,
    o_status r = 200 ∧
    o_body r = OUpdated "Order status updated" (Some updated) ∧
    journal (o_disk r) =
      journal d ++ [WroteOrders (<[orderIndex := updated]> (orders_json d))
                      (write_ok env (filename ORDERS_FILE))] ∧
    order_status updated = status ∧
    order_statusHistory updated =
      order_statusHistory order ++
      [ {| se_status := status; se_timestamp := now env;
           se_note := match sb_note req with
                      | Some (String c n) => String c n
                      | _ => ("Status updated to " ++ status)%string
                      end |} ] ∧
    order_updatedAt updated = now env ∧
    order_id updated = order_id order ∧
    order_userId updated = order_userId order ∧
    order_items updated = order_items order ∧
    order_total updated = order_total order ∧
    order_createdAt updated = order_createdAt order.
Proof.
  intros Hstatus Hvalid Hi Hlook r. subst r.
  destruct (update_status_cases env id req d) as [[Hne _]|Hcase].
  - exfalso. apply Hne. unfold update_status, readData.
    rewrite Hstatus, Hi.
    assert (is_valid_status status = true) as ->; [|done].
    unfold is_valid_status. apply existsb_exists. exists status.
    split; [by apply list_elem_of_In|apply String.eqb_refl].
  - destruct Hcase as (status' & i' & order' & Hs' & _ & Hi' & Hlook' & Heq).
    rewrite Hstatus in Hs'. injection Hs' as <-.
    rewrite Hi in Hi'. injection Hi' as <-.
    rewrite Hlook in Hlook'. injection Hlook' as <-.
    cbv zeta in Heq. rewrite Heq. eexists. split; [done|]. split; [done|].
    split; [done|]. split; [done|]. split; [|done].
    simpl. do 3 f_equal. unfold note_or_default.
    destruct (sb_note req) as [[|c n]|]; done.
Qed.

Lemma update_status_appends_history_witness :
  let o1 := Sample.order "o1" "u1" "pending" 10 in
  let o2 := Sample.order "o2" "u2" "pending" 30 in
  let d := {| products_json := []; orders_json := [o1; o2]; journal := [] |} in
  let req := {| sb_status := Some "shipped"; sb_note := None |} in
  let r := update_status (Sample.env true true) "o2" req d in
  ∃ updated,
    o_status r = 200 ∧
    o_body r = OUpdated "Order status updated" (Some updated) ∧
    journal (o_disk r) =
      journal d ++ [WroteOrders (<[1%nat := updated]> (orders_json d)) true] ∧
    order_status updated = "shipped" ∧
    order_statusHistory updated =
      order_statusHistory o2 ++
      [ {| se_status := "shipped"; se_timestamp := 1700000000000;
           se_note := match sb_note req with
                      | Some (String c n) => String c n
                      | _ => ("Status updated to " ++ "shipped")%string
                      end |} ] ∧
    order_updatedAt updated = 1700000000000 ∧
    order_id updated = order_id o2 ∧
    order_userId updated = order_userId o2 ∧
    order_items updated = order_items o2 ∧
    order_total updated = order_total o2 ∧
    order_createdAt updated = order_createdAt o2.
Proof.
  intros o1 o2 d req.
  apply (update_status_appends_history (Sample.env true true) "o2" req d "shipped" 1%nat o2).
  - reflexivity.
  - unfold validStatuses. do 4 constructor.
  - vm_compute. reflexivity.
  - reflexivity.
Defined.

(** X19. A status update that is not answered 200 writes nothing, and the
    status is checked before the order is looked up: a missing status, or
    one outside the six known ones, is answered 400 whether or not the
    order exists. *)
Theorem update_status_rejections_write_nothing env id req d :
  let r := update_status env id req d in
  (o_status r = 200 ∨ o_disk r = d) ∧
  ((∀ status, sb_status req = Some status → status ∉ validStatuses) →
   o_status r = 400 ∧ o_disk r = d) ∧
  (∀ status, sb_status req = Some status → status ∈ validStatuses →
     (∀ o, o ∈ orders_json d → order_id o ≠ id) →
     o_status r = 404 ∧ o_disk r = d).
Proof.
  intros r. subst r. split; [|split].
  - destruct (update_status_cases env id req d) as [[_ Hd]|Hcase]; [by right|].
    destruct Hcase as (? & ? & ? & _ & _ & _ & _ & Heq). cbv zeta in Heq.
    rewrite Heq. by left.
  - intros Hinvalid. unfold update_status.
    destruct (sb_status req) as [status|]; [|done].
    assert (is_valid_status status = false) as ->; [|done].
    apply not_true_is_false. intros Hv. apply (Hinvalid status eq_refl).
    unfold is_valid_status in Hv. apply existsb_exists in Hv as (s & Hin & Heq).
    apply String.eqb_eq in Heq as ->. by apply list_elem_of_In.
  - intros status Hs Hvalid Hnone. unfold update_status, readData. rewrite Hs.
    assert (is_valid_status status = true) as ->.
    { unfold is_valid_status. apply existsb_exists. exists status.
      split; [by apply list_elem_of_In|apply String.eqb_refl]. }
    simpl.
    destruct (JS.Array_findIndex (has_order_id id) (orders_json d)) as [i|] eqn:Hi; [|done].
    destruct (findIndex_Some _ _ _ Hi) as (o & Hlook & Hid & _).
    exfalso. apply (Hnone o); [by eapply list_elem_of_lookup_2|].
    unfold has_order_id in Hid. by apply String.eqb_eq in Hid.
Qed.

(** X20. A status update never shortens a history and never touches what
    was ordered: whatever the request, the order collection on disk keeps
    its length, and each order keeps its place, id, owner, items and total,
    with its old status history as a prefix of the new one. *)
Theorem status_history_only_grows env id req d :
  let orders' := orders_json (o_disk (update_status env id req d)) in
  length orders' = length (orders_json d) ∧
  ∀ (i : nat) o, orders_json d !! i = Some o →
    ∃ o', orders' !! i = Some o' ∧
          order_id o' = order_id o ∧
          order_userId o' = order_userId o ∧
          order_items o' = order_items o ∧
          order_total o' = order_total o ∧
          order_statusHistory o `prefix_of` order_statusHistory o'.
Proof.
  intros orders'. subst orders'.
  destruct (update_status_cases env id req d) as [[_ ->]|Hcase].
  - split; [done|]. intros i o Ho. exists o. by repeat split.
  - destruct Hcase as (status & orderIndex & order & _ & _ & _ & Hlook & Heq).
    cbv zeta in Heq. rewrite Heq. simpl.
    destruct (write_ok env "orders.json").
    + split; [apply length_insert|]. intros i o Ho.
      destruct (decide (orderIndex = i)) as [<-|Hne].
      * rewrite Hlook in Ho. injection Ho as <-.
        eexists. rewrite list_lookup_insert_eq by (by eapply lookup_lt_Some).
        split; [done|]. simpl. repeat split. by apply prefix_app_r.
      * exists o. rewrite list_lookup_insert_ne by done. by repeat split.
    + split; [done|]. intros i o Ho. exists o. by repeat split.
Qed.

End OrderRoutesFacts.

(** ** Products: categories, related products, deletion and update *)

Section CatalogRoutesFacts.
Import Helpers CatalogRoutes.

Lemma Set_values_from values : ∀ seen,
  NoDup seen →
  let result :=
    fold_left
      (fun seen v => if existsb (String.eqb v) seen then seen else seen ++ [v])
      values seen in
  NoDup result ∧ ∀ x, x ∈ result ↔ x ∈ seen ∨ x ∈ values.
Proof.
  induction values as [|v values IH]; intros seen Hnd; simpl.
  - split; [done|]. intros x. rewrite elem_of_nil. naive_solver.
  - destruct (existsb (String.eqb v) seen) eqn:Hv.
    + destruct (IH seen Hnd) as [Hnd' Hin]. split; [done|].
      intros x. rewrite Hin, elem_of_cons.
      apply existsb_exists in Hv as (y & Hy & Heq). apply String.eqb_eq in Heq as <-.
      apply list_elem_of_In in Hy. naive_solver.
    + assert (Hnotin : v ∉ seen).
      { intros Hin. apply list_elem_of_In in Hin.
        assert (existsb (String.eqb v) seen = true); [|congruence].
        apply existsb_exists. exists v. split; [done|apply String.eqb_refl]. }
      destruct (IH (seen ++ [v])) as [Hnd' Hin].
      { apply NoDup_app. split; [done|]. split; [|apply NoDup_singleton].
        intros x Hx Hxv. apply list_elem_of_singleton in Hxv as ->. done. }
      split; [done|]. intros x.
      rewrite Hin, elem_of_app, list_elem_of_singleton, elem_of_cons. naive_solver.
Qed.

Lemma Set_values_spec values :
  NoDup (Set_values values) ∧ ∀ x, x ∈ Set_values values ↔ x ∈ values.
Proof.
  destruct (Set_values_from values [] (NoDup_nil_2 (A:=string))) as [Hnd Hin].
  split; [done|]. intros x. unfold Set_values. rewrite Hin, elem_of_nil. naive_solver.
Qed.

(** X21. The category listing names each category, subcategory and brand
    of the catalog once: the three lists have no repeats, and a value is
    listed exactly when some product on disk carries it. *)
Theorem categories_listed_once d :
  let r := get_categories d in
  NoDup (categories r) ∧ NoDup (subcategories r) ∧ NoDup (brands r) ∧
  (∀ c, c ∈ categories r ↔ ∃ p, p ∈ products_json d ∧ product_category p = c) ∧
  (∀ c, c ∈ subcategories r ↔ ∃ p, p ∈ products_json d ∧ product_subcategory p = c) ∧
  (∀ c, c ∈ brands r ↔ ∃ p, p ∈ products_json d ∧ product_brand p = c).
Proof.
  intros r. subst r. unfold get_categories, readData. simpl.
  pose proof (Set_values_spec (product_category <$> products_json d)) as [Hc1 Hc2].
  pose proof (Set_values_spec (product_subcategory <$> products_json d)) as [Hs1 Hs2].
  pose proof (Set_values_spec (product_brand <$> products_json d)) as [Hb1 Hb2].
  repeat split; try done.
  all: try (intros Hin; first [apply Hc2 in Hin|apply Hs2 in Hin|apply Hb2 in Hin];
            apply list_elem_of_fmap in Hin as (p & -> & Hp); by exists p).
  - intros (p & Hp & <-). apply Hc2. by apply list_elem_of_fmap_2.
  - intros (p & Hp & <-). apply Hs2. by apply list_elem_of_fmap_2.
  - intros (p & Hp & <-). apply Hb2. by apply list_elem_of_fmap_2.
Qed.

Example categories_sample :
  Set_values ["lamps"; "desks"; "lamps"; "chairs"; "desks"] = ["lamps"; "desks"; "chairs"].
Proof. reflexivity. Qed.

(** X22. The product page shows the product stored under the requested id
    with up to four related products, each of them on disk, of the same
    category, and never the product itself. *)
Theorem related_products_share_category id d product related :
  p_body (get_product id d) = PProduct product related →
  p_status (get_product id d) = 200 ∧
  JS.Array_find (Orders.has_id id) (products_json d) = Some product ∧
  product_id product = id ∧
  (length related ≤ 4)%nat ∧
  ∀ p, p ∈ related →
    p ∈ products_json d ∧
    product_category p = product_category product ∧
    product_id p ≠ id.
Proof.
  unfold get_product, readData.
  destruct (JS.Array_find (Orders.has_id id) (products_json d)) as [found|] eqn:Hfind;
    simpl; [|done].
  intros [= <- <-]. split; [done|]. split; [done|].
  apply find_some in Hfind as [_ Hid]. unfold Orders.has_id in Hid.
  apply String.eqb_eq in Hid. split; [done|]. split.
  - unfold JS.Array_slice, JS.slice_index. rewrite length_take.
    change (4 <? 0) with false. change (0 <? 0) with false. cbv iota. lia.
  - intros p Hp. apply elem_of_Array_slice, elem_of_List_filter in Hp as [Hin Hkeep].
    apply andb_true_iff in Hkeep as [Hcat Hne].
    apply String.eqb_eq in Hcat. apply negb_true_iff, String.eqb_neq in Hne.
    split; [done|]. split; [done|]. congruence.
Qed.

Lemma related_products_share_category_witness :
  let d := Sample.disk Sample.catalog in
  let product := Sample.product "B" 45.5 2 in
  let related := [Sample.product "A" 19.99 5; Sample.product "C" 5 1;
                  Sample.product "D" 12 0; Sample.product "E" 99 7] in
  p_status (get_product "B" d) = 200 ∧
  JS.Array_find (Orders.has_id "B") (products_json d) = Some product ∧
  product_id product = "B" ∧
  (length related ≤ 4)%nat ∧
  ∀ p, p ∈ related →
    p ∈ products_json d ∧
    product_category p = product_category product ∧
    product_id p ≠ "B".
Proof.
  intros d product related.
  apply (related_products_share_category "B" d product related).
  vm_compute. reflexivity.
Defined.

(** An id that no product has is answered 404. *)
Lemma get_product_unknown id d :
  (∀ p, p ∈ products_json d → product_id p ≠ id) →
  p_status (get_product id d) = 404.
Proof.
  intros Hnone. unfold get_product, readData.
  destruct (JS.Array_find (Orders.has_id id) (products_json d)) as [found|] eqn:Hfind;
    [|done].
  apply find_some in Hfind as [Hin Hid]. unfold Orders.has_id in Hid.
  apply String.eqb_eq in Hid. apply list_elem_of_In in Hin. by apply Hnone in Hin.
Qed.

End CatalogRoutesFacts.

Section ProductAdminFacts.
Import Helpers ProductAdmin ProductDelete.

Lemma id_is_lookup id (p : gmap string Json) :
  id_is id p = true ↔ p !! "id" = Some (JStr id).
Proof.
  unfold id_is. destruct (p !! "id") as [[]|]; try (split; done).
  rewrite String.eqb_eq. split; [by intros ->|by intros [= ->]].
Qed.

Lemma delete_found_keeps_others id (products : list (gmap string Json)) i :
  distinct_ids products →
  JS.Array_findIndex (id_is id) products = Some i →
  delete i products = List.filter (fun p => negb (id_is id p)) products.
Proof.
  unfold distinct_ids. revert i.
  induction products as [|y products IH]; intros i Hnd Hi; [done|].
  rewrite fmap_cons in Hnd. apply NoDup_cons in Hnd as [Hy Hnd].
  simpl in *. destruct (id_is id y) eqn:Hline; simpl.
  - injection Hi as <-. simpl. apply id_is_lookup in Hline.
    clear IH Hnd. induction products as [|z products IH]; [done|].
    rewrite fmap_cons in Hy. apply not_elem_of_cons in Hy as [Hne Hy]. simpl.
    destruct (id_is id z) eqn:Hz; simpl.
    + apply id_is_lookup in Hz. congruence.
    + f_equal. by apply IH.
  - destruct (JS.Array_findIndex (id_is id) products) as [j|]; [|done].
    injection Hi as <-. simpl. f_equal. by apply IH.
Qed.

(** X23. Deleting a product of a collection with distinct ids, when the
    write succeeds, removes that product and nothing else: the answer is
    200, no product on disk has the id any more, and the products with
    other ids are all there, in their order.  An id that no product has is
    answered 404, and nothing is written. *)
Theorem delete_product_removes_one env id d :
  distinct_ids (products_file d) →
  write_ok env (filename PRODUCTS_FILE) = true →
  let r := delete_product env id d in
  if JS.Array_findIndex (id_is id) (products_file d) is Some index
  then del_status r = 200 ∧
       products_file (del_disk r)
       = List.filter (fun p => negb (id_is id p)) (products_file d) ∧
       JS.Array_findIndex (id_is id) (products_file (del_disk r)) = None ∧
       write_log (del_disk r) = write_log d ++ [(delete index (products_file d), true)]
  else del_status r = 404 ∧ del_disk r = d.
Proof.
  intros Hnd Hok r. subst r. unfold delete_product.
  destruct (JS.Array_findIndex (id_is id) (products_file d)) as [index|] eqn:Hi; [|done].
  simpl. simpl in Hok. rewrite Hok.
  rewrite (delete_found_keeps_others _ _ _ Hnd Hi).
  split; [done|]. split; [done|]. split; [|done].
  destruct (JS.Array_findIndex _ (List.filter _ _)) as [j|] eqn:Hj; [|done].
  destruct (findIndex_Some _ _ _ Hj) as (x & Hx & Hid & _).
  apply list_elem_of_lookup_2, elem_of_List_filter in Hx as [_ Hx].
  rewrite Hid in Hx. done.
Qed.

Lemma delete_product_removes_one_witness :
  let p1 : gmap string Json := {[ "id" := JStr "p1"; "name" := JStr "Desk" ]} in
  let p7 : gmap string Json := {[ "id" := JStr "p7"; "name" := JStr "Lamp" ]} in
  let d := {| products_file := [p1; p7]; write_log := [] |} in
  let r := delete_product (Sample.env true true) "p1" d in
  if JS.Array_findIndex (id_is "p1") (products_file d) is Some index
  then del_status r = 200 ∧
       products_file (del_disk r)
       = List.filter (fun p => negb (id_is "p1" p)) (products_file d) ∧
       JS.Array_findIndex (id_is "p1") (products_file (del_disk r)) = None ∧
       write_log (del_disk r) = write_log d ++ [(delete index (products_file d), true)]
  else del_status r = 404 ∧ del_disk r = d.
Proof.
  intros p1 p7 d.
  apply (delete_product_removes_one (Sample.env true true) "p1" d).
  - unfold distinct_ids. simpl. apply NoDup_cons. split.
    + intros Hin. apply list_elem_of_singleton in Hin. vm_compute in Hin. discriminate.
    + apply NoDup_singleton.
  - reflexivity.
Defined.

Lemma findIndex_insert_found {A} (f : A → bool) l i y :
  JS.Array_findIndex f l = Some i → f y = true →
  JS.Array_findIndex f (<[i := y]> l) = Some i.
Proof.
  revert i. induction l as [|x l IH]; intros i Hi Hy; simpl in *; [done|].
  destruct (f x) eqn:Hx.
  - injection Hi as <-. simpl. by rewrite Hy.
  - destruct (JS.Array_findIndex f l) as [j|]; [|done].
    injection Hi as <-. simpl. by rewrite Hx, (IH j).
Qed.

(** X24. An update leaves the collection in shape: after an update of a
    stored product whose write succeeds, the id still resolves to the same
    place, where the updated product now is; the collection has the same
    length; and the products at the other places are untouched. *)
Theorem update_product_keeps_the_collection env id reqBody d index :
  JS.Array_findIndex (id_is id) (products_file d) = Some index →
  write_ok env (filename PRODUCTS_FILE) = true →
  let r := update_product env id reqBody d in
  let products' := products_file (a_disk r) in
  ∃ updated,
    a_body r = AUpdated "Product updated successfully" updated ∧
    JS.Array_findIndex (id_is id) products' = Some index ∧
    products' !! index = Some updated ∧
    length products' = length (products_file d) ∧
    ∀ j : nat, j ≠ index → products' !! j = products_file d !! j.
Proof.
  intros Hi Hok r products'. subst products' r. unfold update_product.
  destruct (findIndex_Some _ _ _ Hi) as (stored & Hlook & Hid & _).
  rewrite Hi, Hlook. simpl. simpl in Hok. rewrite Hok.
  eexists. split; [done|].
  assert (Hlt : (index < length (products_file d))%nat) by (by eapply lookup_lt_Some).
  split; [|split; [by apply list_lookup_insert_eq|split; [apply length_insert|]]].
  - apply findIndex_insert_found; [done|]. apply id_is_lookup.
    rewrite lookup_insert_ne by done. rewrite set_key_lookup_ne by done.
    rewrite set_key_lookup. by apply id_is_lookup.
  - intros j Hj. by apply list_lookup_insert_ne.
Qed.

Lemma update_product_keeps_the_collection_witness :
  let p1 : gmap string Json := {[ "id" := JStr "p1"; "name" := JStr "Desk" ]} in
  let p7 : gmap string Json := {[ "id" := JStr "p7"; "name" := JStr "Lamp" ]} in
  let reqBody : gmap string Json := {[ "id" := JStr "p1"; "price" := JNum 25 ]} in
  let d := {| products_file := [p1; p7]; write_log := [] |} in
  let r := update_product (Sample.env true true) "p7" reqBody d in
  let products' := products_file (a_disk r) in
  ∃ updated,
    a_body r = AUpdated "Product updated successfully" updated ∧
    JS.Array_findIndex (id_is "p7") products' = Some 1%nat ∧
    products' !! 1%nat = Some updated ∧
    length products' = length (products_file d) ∧
    ∀ j : nat, j ≠ 1%nat → products' !! j = products_file d !! j.
Proof.
  intros p1 p7 reqBody d.
  apply (update_product_keeps_the_collection (Sample.env true true) "p7" reqBody d 1%nat).
  - vm_compute. reflexivity.
  - reflexivity.
Defined.

(** X25. The admin routes do nothing for anyone else: when the session has
    no user the status update, the product update and the product deletion
    answer 401, when it has a user who is not an admin they answer 403, and
    in both cases the disk is left as it was. *)
Theorem admin_routes_refuse_other_users env id sess :
  (∀ u, session_user sess = Some u → user_role u ≠ "admin") →
  let code := if session_user sess is Some _ then 403 else 401 in
  (∀ req d,
     OrderRoutes.o_status (OrderRoutes.put_status env id req sess d) = code ∧
     OrderRoutes.o_disk (OrderRoutes.put_status env id req sess d) = d) ∧
  (∀ reqBody d,
     a_status (put_product env id reqBody sess d) = code ∧
     a_disk (put_product env id reqBody sess d) = d) ∧
  (∀ d,
     del_status (delete_route env id sess d) = code ∧
     del_disk (delete_route env id sess d) = d).
Proof.
  intros Hnot code. subst code.
  unfold OrderRoutes.put_status, OrderRoutes.requireAdmin, put_product, requireAdmin,
    delete_route.
  destruct (session_user sess) as [u|]; [|done].
  specialize (Hnot u eq_refl).
  destruct (String.eqb_spec (user_role u) "admin") as [Hadm|_]; done.
Qed.

Lemma admin_routes_refuse_other_users_witness :
  let code := if session_user (Sample.session []) is Some _ then 403 else 401 in
  (∀ req d,
     OrderRoutes.o_status
       (OrderRoutes.put_status (Sample.env true true) "o1" req (Sample.session []) d) = code ∧
     OrderRoutes.o_disk
       (OrderRoutes.put_status (Sample.env true true) "o1" req (Sample.session []) d) = d) ∧
  (∀ reqBody d,
     a_status (put_product (Sample.env true true) "o1" reqBody (Sample.session []) d) = code ∧
     a_disk (put_product (Sample.env true true) "o1" reqBody (Sample.session []) d) = d) ∧
  (∀ d,
     del_status (delete_route (Sample.env true true) "o1" (Sample.session []) d) = code ∧
     del_disk (delete_route (Sample.env true true) "o1" (Sample.session []) d) = d).
Proof.
  apply (admin_routes_refuse_other_users (Sample.env true true) "o1" (Sample.session [])).
  intros u [= <-]. discriminate.
Defined.

End ProductAdminFacts.

(** ** The regular expression matcher *)

Section RegexFacts.
Import Regex.

Lemma nullable_lang r : nullable r = true ↔ lang r [].
Proof.
  split.
  - induction r; simpl; intros Hn; try done.
    + constructor.
    + apply andb_true_iff in Hn as [H1 H2].
      change (@nil ascii) with (@nil ascii ++ []). constructor; auto.
    + apply orb_true_iff in Hn as [H1|H2]; [apply lang_alt_l|apply lang_alt_r]; auto.
    + constructor.
  - intros Hl. remember [] as s eqn:Hs. induction Hl; simpl; try done.
    + apply app_eq_nil in Hs as [-> ->]. rewrite IHHl1, IHHl2; done.
    + rewrite IHHl; done.
    + rewrite IHHl, orb_true_r; done.
Qed.

Lemma lang_cat_inv r s l :
  lang (Cat r s) l ↔ ∃ u v, l = u ++ v ∧ lang r u ∧ lang s v.
Proof.
  split.
  - intros Hl. inversion Hl; subst. eauto.
  - intros (u & v & -> & Hu & Hv). by constructor.
Qed.

Lemma lang_alt_inv r s l : lang (Alt r s) l ↔ lang r l ∨ lang s l.
Proof.
  split.
  - intros Hl. inversion Hl; subst; auto.
  - intros [H|H]; [by apply lang_alt_l|by apply lang_alt_r].
Qed.

Lemma lang_class_inv p l : lang (Class p) l ↔ ∃ c, l = [c] ∧ p c = true.
Proof.
  split.
  - intros Hl. inversion Hl; subst. eauto.
  - intros (c & -> & Hc). by constructor.
Qed.

Lemma lang_star_cons r c s :
  lang (Star r) (c :: s) → ∃ u v, s = u ++ v ∧ lang r (c :: u) ∧ lang (Star r) v.
Proof.
  intros Hl. remember (Star r) as sr eqn:Hr. remember (c :: s) as l eqn:Hl'.
  induction Hl; try done. injection Hr as ->.
  destruct u as [|c' u]; simpl in Hl'.
  - by apply IHHl2.
  - injection Hl' as Hc Hs. subst. eauto.
Qed.

Lemma deriv_lang c r : ∀ s, lang (deriv c r) s ↔ lang r (c :: s).
Proof.
  induction r as [| |p|r1 IH1 r2 IH2|r1 IH1 r2 IH2|r IH]; intros s; simpl.
  - split; intros H; inversion H.
  - split; intros H; inversion H.
  - destruct (p c) eqn:Hp.
    + split; intros H; inversion H; subst; [by constructor|constructor].
    + split; intros H; inversion H; subst. congruence.
  - assert (Hcat : lang (Cat (deriv c r1) r2) s ↔
                   ∃ u v, s = u ++ v ∧ lang r1 (c :: u) ∧ lang r2 v).
    { rewrite lang_cat_inv. by setoid_rewrite IH1. }
    assert (Hfull : lang (Cat r1 r2) (c :: s) ↔
                    (∃ u v, s = u ++ v ∧ lang r1 (c :: u) ∧ lang r2 v) ∨
                    (lang r1 [] ∧ lang r2 (c :: s))).
    { rewrite lang_cat_inv. split.
      - intros ([|c' u] & v & Heq & Hu & Hv); simpl in Heq.
        + right. by subst.
        + injection Heq as Hc Hs. subst. left. eauto.
      - intros [(u & v & -> & Hu & Hv)|[Hu Hv]].
        + by exists (c :: u), v.
        + by exists [], (c :: s). }
    rewrite Hfull. destruct (nullable r1) eqn:Hn.
    + rewrite lang_alt_inv, Hcat, IH2. apply nullable_lang in Hn. naive_solver.
    + rewrite Hcat. split; [auto|]. intros [H|[Hnil _]]; [done|].
      apply nullable_lang in Hnil. congruence.
  - rewrite !lang_alt_inv, IH1, IH2. done.
  - rewrite lang_cat_inv. setoid_rewrite IH. split.
    + intros (u & v & -> & Hu & Hv).
      change (c :: u ++ v) with ((c :: u) ++ v). by constructor.
    + apply lang_star_cons.
Qed.

(** The matcher decides the language of the expression. *)
Lemma test_lang s : ∀ r, test r s = true ↔ lang r s.
Proof.
  induction s as [|c s IH]; intros r; simpl.
  - apply nullable_lang.
  - rewrite IH. apply deriv_lang.
Qed.

Lemma lang_star_class p l :
  lang (Star (Class p)) l ↔ Forall (fun c => p c = true) l.
Proof.
  split.
  - intros Hl. remember (Star (Class p)) as sr eqn:Hr.
    induction Hl; try done. injection Hr as ->.
    apply lang_class_inv in Hl1 as (c & -> & Hc). simpl. constructor; auto.
  - induction 1 as [|c l Hc Hl IH]; [constructor|].
    change (c :: l) with ([c] ++ l). constructor; [by constructor|done].
Qed.

Lemma lang_plus_class p l :
  lang (Plus (Class p)) l ↔ l ≠ [] ∧ Forall (fun c => p c = true) l.
Proof.
  unfold Plus. rewrite lang_cat_inv. split.
  - intros (u & v & -> & Hu & Hv).
    apply lang_class_inv in Hu as (c & -> & Hc). apply lang_star_class in Hv.
    split; [done|]. simpl. by constructor.
  - intros [Hne Hall]. destruct l as [|c l]; [done|].
    apply Forall_cons in Hall as [Hc Hl].
    exists [c], l. split; [done|]. split; [by constructor|by apply lang_star_class].
Qed.

Lemma lang_chr c l : lang (Chr c) l ↔ l = [c].
Proof.
  unfold Chr. rewrite lang_class_inv. split.
  - intros (x & -> & Hx). apply Ascii.eqb_eq in Hx. by subst.
  - intros ->. exists c. split; [done|apply Ascii.eqb_refl].
Qed.

End RegexFacts.

(** ** Registration and login *)

Section EmailFacts.
Import AuthRoutes.

(** The language of the email expression, spelled out. *)
Lemma email_lang (l : list ascii) :
  Regex.lang emailRegex l ↔
  ∃ local domain tld : list ascii,
    l = local ++ "@"%char :: domain ++ "."%char :: tld ∧
    local ≠ [] ∧ domain ≠ [] ∧ tld ≠ [] ∧
    Forall (fun c => not_space_or_at c = true) local ∧
    Forall (fun c => not_space_or_at c = true) domain ∧
    Forall (fun c => not_space_or_at c = true) tld.
Proof.
  unfold emailRegex. rewrite lang_cat_inv. split.
  - intros (local & rest1 & Heq & Hlocal & Hrest1).
    apply lang_plus_class in Hlocal as [Hl1 Hl2].
    apply lang_cat_inv in Hrest1 as (at_ & rest2 & -> & Hat & Hrest2).
    apply lang_chr in Hat as ->.
    apply lang_cat_inv in Hrest2 as (domain & rest3 & -> & Hdomain & Hrest3).
    apply lang_plus_class in Hdomain as [Hd1 Hd2].
    apply lang_cat_inv in Hrest3 as (dot & tld & -> & Hdot & Htld).
    apply lang_chr in Hdot as ->.
    apply lang_plus_class in Htld as [Ht1 Ht2].
    exists local, domain, tld. rewrite Heq. simpl. done.
  - intros (local & domain & tld & Heq & Hl & Hd & Ht & Hl' & Hd' & Ht').
    exists local, ("@"%char :: domain ++ "."%char :: tld). split; [done|].
    split; [by apply lang_plus_class|].
    apply lang_cat_inv. exists ["@"%char], (domain ++ "."%char :: tld).
    split; [done|]. split; [by apply lang_chr|].
    apply lang_cat_inv. exists domain, ("."%char :: tld).
    split; [done|]. split; [by apply lang_plus_class|].
    apply lang_cat_inv. exists ["."%char], tld.
    split; [done|]. split; [by apply lang_chr|by apply lang_plus_class].
Qed.

(** X26. The email check accepts exactly the strings of the form
    local@domain.tld in which the three parts are non-empty and hold
    neither whitespace nor "@" (the domain and the tld may hold further
    dots). *)
Theorem isValidEmail_shape email :
  isValidEmail email = true ↔
  ∃ local domain tld : list ascii,
    list_ascii_of_string email = local ++ "@"%char :: domain ++ "."%char :: tld ∧
    local ≠ [] ∧ domain ≠ [] ∧ tld ≠ [] ∧
    Forall (fun c => not_space_or_at c = true) local ∧
    Forall (fun c => not_space_or_at c = true) domain ∧
    Forall (fun c => not_space_or_at c = true) tld.
Proof. unfold isValidEmail. rewrite test_lang. apply email_lang. Qed.

Example isValidEmail_samples :
  isValidEmail "ann@example.org" = true ∧
  isValidEmail "a@b.c.d" = true ∧
  isValidEmail "ann@example" = false ∧
  isValidEmail "ann example@x.org" = false ∧
  isValidEmail " ann@example.org" = false ∧
  isValidEmail "ann@@example.org" = false ∧
  isValidEmail "@example.org" = false ∧
  isValidEmail "ann@example." = false ∧
  isValidEmail "" = false.
Proof. vm_compute. done. Qed.

Lemma lower_unit_idempotent c : JS.lower_unit (JS.lower_unit c) = JS.lower_unit c.
Proof. destruct c as [[] [] [] [] [] [] [] []]; reflexivity. Qed.

Lemma toLowerCase_idempotent s : JS.toLowerCase (JS.toLowerCase s) = JS.toLowerCase s.
Proof.
  unfold JS.toLowerCase. induction s as [|c s IH]; simpl; [done|].
  by rewrite lower_unit_idempotent, IH.
Qed.

Lemma is_space_lower_unit c : Text.is_space (JS.lower_unit c) = Text.is_space c.
Proof. destruct c as [[] [] [] [] [] [] [] []]; reflexivity. Qed.

Lemma chars_toLowerCase s :
  list_ascii_of_string (JS.toLowerCase s) = JS.lower_unit <$> list_ascii_of_string s.
Proof.
  unfold JS.toLowerCase. induction s as [|c s IH]; simpl; [done|]. by rewrite IH.
Qed.

Lemma trim_without_spaces s :
  Forall (fun c => Text.is_space c = false) (list_ascii_of_string s) → Text.trim s = s.
Proof.
  intros Hall. unfold Text.trim.
  assert (Text.trimStart s = s) as ->.
  { destruct s as [|c s]; [done|]. simpl in *.
    apply Forall_cons in Hall as [-> _]. done. }
  induction s as [|c s IH]; [done|]. simpl in *.
  apply Forall_cons in Hall as [Hc Hs]. rewrite (IH Hs), Hc. by destruct s.
Qed.

Lemma valid_email_has_no_space email :
  isValidEmail email = true →
  Forall (fun c => Text.is_space c = false) (list_ascii_of_string email).
Proof.
  unfold isValidEmail. rewrite test_lang.
  intros (local & domain & tld & -> & _ & _ & _ & Hl & Hd & Ht)%email_lang.
  assert (Hok : ∀ l, Forall (fun c => not_space_or_at c = true) l →
                     Forall (fun c => Text.is_space c = false) l).
  { intros l Hall. eapply Forall_impl; [exact Hall|]. intros c Hc.
    unfold not_space_or_at in Hc.
    apply andb_true_iff in Hc as [Hc _]. by apply negb_true_iff in Hc. }
  apply Forall_app. split; [auto|]. constructor; [done|].
  apply Forall_app. split; [auto|]. constructor; [done|auto].
Qed.

(** An accepted email is stored as typed, in lower case: trimming it
    changes nothing. *)
Lemma trim_valid_email email :
  isValidEmail email = true →
  Text.trim (JS.toLowerCase email) = JS.toLowerCase email.
Proof.
  intros Hvalid. apply trim_without_spaces. rewrite chars_toLowerCase.
  apply Forall_fmap. eapply Forall_impl; [by apply valid_email_has_no_space|].
  intros c Hc. simpl. by rewrite is_space_lower_unit.
Qed.

End EmailFacts.

Section AuthFacts.
Import Helpers AuthRoutes.

Lemma missing_false x : missing x = false ↔ ∃ s, x = Some s ∧ s ≠ "".
Proof.
  unfold missing, JS.truthy. destruct x as [s|].
  - destruct (String.eqb_spec s ""); simpl; naive_solver.
  - naive_solver.
Qed.

Section Register.
Context (bcrypt_hash : string → string).

(** How a registration ends. *)
Lemma register_cases env req sess d :
  (∃ code err msg,
     (code = 400 ∨ code = 409) ∧
     register bcrypt_hash env req sess d = refuse code err msg sess d) ∨
  (∃ name email password newUser,
     reg_name req = Some name ∧
     reg_email req = Some email ∧
     reg_password req = Some password ∧
     isValidEmail email = true ∧
     (6 ≤ String.length password)%nat ∧
     JS.Array_find (same_email email) (users_json d) = None ∧
     u_email newUser = JS.toLowerCase email ∧
     u_password newUser = bcrypt_hash password ∧
     u_role newUser = (if users_json d is [] then "admin" else "customer") ∧
     register bcrypt_hash env req sess d =
       {| auth_status := 201;
          auth_body := AuthUser "Registration successful" (session_view newUser);
          auth_session := {| session_user := Some (session_view newUser);
                             session_cart := Some [] |};
          auth_disk := snd (writeUsers env (users_json d ++ [newUser]) d) |}).
Proof.
  unfold register.
  destruct (missing (reg_name req)) eqn:Hname; simpl; [left; eexists _, _, _; eauto|].
  destruct (missing (reg_email req)) eqn:Hemail; simpl; [left; eexists _, _, _; eauto|].
  destruct (missing (reg_password req)) eqn:Hpass; simpl; [left; eexists _, _, _; eauto|].
  apply missing_false in Hname as (name & -> & _).
  apply missing_false in Hemail as (email & -> & _).
  apply missing_false in Hpass as (password & -> & _). simpl.
  destruct (isValidEmail email) eqn:Hvalid; simpl; [|left; eexists _, _, _; eauto].
  destruct (String.length password <? 6)%nat eqn:Hlen; [left; eexists _, _, _; eauto|].
  apply Nat.ltb_ge in Hlen.
  destruct (bool_decide (reg_confirmPassword req = Some password)); simpl;
    [|left; eexists _, _, _; eauto].
  destruct (JS.Array_find (same_email email) (users_json d)) eqn:Hfind;
    [left; eexists _, _, _; eauto|].
  right. eexists name, email, password, _.
  repeat (split; [done|]).
  split; [|split; [|split; [|reflexivity]]].
  - simpl. by apply trim_valid_email.
  - done.
  - simpl. by destruct (users_json d).
Qed.

(** X27. A registration that is answered 201 appends one user to the
    collection handed to [writeData]: an admin if the collection was empty
    and a customer otherwise, with the email in lower case and the hash of
    the password, never the password itself; and it logs that user in with
    an empty cart. *)
Theorem register_makes_first_user_admin env req sess d :
  auth_status (register bcrypt_hash env req sess d) = 201 →
  ∃ email password newUser,
    reg_email req = Some email ∧
    reg_password req = Some password ∧
    users_journal (auth_disk (register bcrypt_hash env req sess d))
      = users_journal d ++ [(users_json d ++ [newUser], write_ok env USERS_FILE)] ∧
    u_role newUser = (if users_json d is [] then "admin" else "customer") ∧
    u_email newUser = JS.toLowerCase email ∧
    u_password newUser = bcrypt_hash password ∧
    auth_session (register bcrypt_hash env req sess d)
      = {| session_user := Some (session_view newUser); session_cart := Some [] |}.
Proof.
  intros H201.
  destruct (register_cases env req sess d)
    as [(code & err & msg & Hcode & Heq)
       |(name & email & password & newUser & _ & He & Hp & _ & _ & _ & Hem & Hpw & Hrole & Heq)].
  - rewrite Heq in H201. simpl in H201. lia.
  - rewrite Heq. by exists email, password, newUser.
Qed.

(** X28. Registration keeps emails unique without regard to case: if no two
    users on disk share an email up to the case of its letters, the same
    holds after any registration request. *)
Theorem register_keeps_emails_unique env req sess d :
  emails_unique (users_json d) →
  emails_unique (users_json (auth_disk (register bcrypt_hash env req sess d))).
Proof.
  intros Huniq.
  destruct (register_cases env req sess d)
    as [(code & err & msg & Hcode & ->)
       |(name & email & password & newUser & _ & _ & _ & _ & _ & Hfind & Hem & _ & _ & ->)].
  - done.
  - simpl. destruct (write_ok env USERS_FILE); [|done].
    unfold emails_unique in *. rewrite fmap_app. simpl.
    apply NoDup_app. split; [done|]. split; [|apply NoDup_singleton].
    intros x Hx Hnew. apply list_elem_of_singleton in Hnew as ->.
    apply list_elem_of_fmap in Hx as (u & Hu & Hin).
    rewrite Hem, toLowerCase_idempotent in Hu.
    apply list_elem_of_In in Hin.
    pose proof (find_none _ _ Hfind u Hin) as Hne.
    unfold same_email in Hne. rewrite <- Hu, String.eqb_refl in Hne. done.
Qed.

End Register.

Lemma toLowerCase_empty s : JS.toLowerCase s = "" → s = "".
Proof. by destruct s. Qed.

Lemma find_after_push {A} (f : A → bool) l x :
  JS.Array_find f l = None → f x = true → JS.Array_find f (l ++ [x]) = Some x.
Proof.
  unfold JS.Array_find. induction l as [|y l IH]; simpl; intros Hnone Hx.
  - by rewrite Hx.
  - destruct (f y); [done|]. by apply IH.
Qed.

Section Login.
Context (bcrypt_hash : string → string) (bcrypt_compare : string → string → bool).

(** X29. Whoever has registered can log in, typing the email in any case:
    after a registration answered 201 whose write succeeded, a login with
    an email equal to the registered one up to case and with the same
    password is answered 200 and puts the registered user in the session,
    provided the hashing library accepts the password against the hash it
    made of it. *)
Theorem register_then_login env req sess d email password typed sess' :
  reg_email req = Some email →
  reg_password req = Some password →
  write_ok env USERS_FILE = true →
  bcrypt_compare password (bcrypt_hash password) = true →
  JS.toLowerCase typed = JS.toLowerCase email →
  auth_status (register bcrypt_hash env req sess d) = 201 →
  let registered := register bcrypt_hash env req sess d in
  let r := login bcrypt_compare
             {| login_email := Some typed; login_password := Some password |}
             sess' (auth_disk registered) in
  auth_status r = 200 ∧
  session_user (auth_session r) = session_user (auth_session registered) ∧
  session_cart (auth_session r) = Some (default [] (session_cart sess')) ∧
  auth_disk r = auth_disk registered.
Proof.
  intros He Hp Hok Hcmp Htyped H201 registered r. subst r registered.
  destruct (register_cases bcrypt_hash env req sess d)
    as [(code & err & msg & Hcode & Heq)
       |(name & email' & password' & newUser & _ & He' & Hp' & Hvalid & Hlen & Hfind
         & Hem & Hpw & _ & Heq)].
  { rewrite Heq in H201. simpl in H201. lia. }
  rewrite He in He'. injection He' as <-. rewrite Hp in Hp'. injection Hp' as <-.
  rewrite Heq. simpl. rewrite Hok. unfold login. simpl.
  assert (Htyped_ne : JS.truthy typed = true).
  { unfold JS.truthy. destruct (String.eqb_spec typed "") as [->|]; [|done].
    symmetry in Htyped. apply toLowerCase_empty in Htyped as ->.
    vm_compute in Hvalid. discriminate. }
  assert (Hpass_ne : JS.truthy password = true).
  { unfold JS.truthy. destruct (String.eqb_spec password "") as [->|]; [|done].
    simpl in Hlen. lia. }
  rewrite Htyped_ne, Hpass_ne. simpl.
  assert (Hfound : JS.Array_find (same_email typed) (users_json d ++ [newUser])
                   = Some newUser).
  { apply find_after_push.
    - unfold same_email in *. by rewrite Htyped.
    - unfold same_email. rewrite Hem, toLowerCase_idempotent, Htyped.
      apply String.eqb_refl. }
  rewrite Hfound, Hpw, Hcmp. done.
Qed.

End Login.

Section LoginOnly.
Context (bcrypt_compare : string → string → bool).

(** X30. A login never writes, changes the session only when it succeeds,
    and does not tell an unknown email from a wrong password: it succeeds
    only for a stored user with that email, up to case, whose hash the
    library accepts for the password; and with both fields filled in, every
    failure is the same 401 reply. *)
Theorem login_failures_look_alike req sess d :
  let r := login bcrypt_compare req sess d in
  auth_disk r = d ∧
  (auth_status r = 200 ∨ auth_session r = sess) ∧
  (auth_status r = 200 →
     ∃ email password user,
       login_email req = Some email ∧
       login_password req = Some password ∧
       user ∈ users_json d ∧
       JS.toLowerCase (u_email user) = JS.toLowerCase email ∧
       bcrypt_compare password (u_password user) = true ∧
       auth_session r = {| session_user := Some (session_view user);
                           session_cart := Some (default [] (session_cart sess)) |}) ∧
  (∀ email password,
     login_email req = Some email → email ≠ "" →
     login_password req = Some password → password ≠ "" →
     auth_status r = 200 ∨
     r = refuse 401 "Invalid credentials" "Invalid email or password" sess d).
Proof.
  intros r. subst r. unfold login.
  destruct (missing (login_email req)) eqn:Hemail; simpl.
  { split; [done|]. split; [by right|]. split; [done|].
    intros email password He Hne. exfalso.
    assert (missing (login_email req) = false); [|congruence].
    apply missing_false. eauto. }
  destruct (missing (login_password req)) eqn:Hpass; simpl.
  { split; [done|]. split; [by right|]. split; [done|].
    intros email password _ _ Hp Hne. exfalso.
    assert (missing (login_password req) = false); [|congruence].
    apply missing_false. eauto. }
  apply missing_false in Hemail as (email & -> & _).
  apply missing_false in Hpass as (password & -> & _). simpl.
  destruct (JS.Array_find (same_email email) (users_json d)) as [user|] eqn:Hfind.
  - destruct (bcrypt_compare password (u_password user)) eqn:Hcmp; simpl.
    + split; [done|]. split; [by left|]. split; [|by left].
      intros _. exists email, password, user.
      apply find_some in Hfind as [Hin Hsame]. unfold same_email in Hsame.
      apply String.eqb_eq in Hsame. apply list_elem_of_In in Hin. done.
    + split; [done|]. split; [by right|]. split; [done|]. by right.
  - split; [done|]. split; [by right|]. split; [done|]. by right.
Qed.

End LoginOnly.

End AuthFacts.

Section AuthWitnesses.
Import Helpers AuthRoutes.


Lemma register_makes_first_user_admin_witness :
  let req := SampleAuth.form "Ann" "Ann@Example.org" "secret1" in
  let d := SampleAuth.disk [] in
  let r := register SampleAuth.hash (Sample.env true true) req SampleAuth.anonymous d in
  ∃ email password newUser,
    reg_email req = Some email ∧
    reg_password req = Some password ∧
    users_journal (auth_disk r) = users_journal d ++ [(users_json d ++ [newUser], true)] ∧
    u_role newUser = (if users_json d is [] then "admin" else "customer") ∧
    u_email newUser = JS.toLowerCase email ∧
    u_password newUser = SampleAuth.hash password ∧
    auth_session r = {| session_user := Some (session_view newUser); session_cart := Some [] |}.
Proof.
  intros req d.
  apply (register_makes_first_user_admin SampleAuth.hash (Sample.env true true) req
           SampleAuth.anonymous d).
  vm_compute. reflexivity.
Defined.

Lemma register_keeps_emails_unique_witness :
  emails_unique
    (users_json
       (auth_disk
          (register SampleAuth.hash (Sample.env true true)
             (SampleAuth.form "Bob" "bob@example.org" "hunter22") SampleAuth.anonymous
             (SampleAuth.disk [SampleAuth.user "u1" "ann@example.org" "admin"])))).
Proof.
  apply (register_keeps_emails_unique SampleAuth.hash (Sample.env true true)
           (SampleAuth.form "Bob" "bob@example.org" "hunter22") SampleAuth.anonymous
           (SampleAuth.disk [SampleAuth.user "u1" "ann@example.org" "admin"])).
  unfold emails_unique. simpl. apply NoDup_singleton.
Defined.

Lemma register_then_login_witness :
  let req := SampleAuth.form "Ann" "Ann@Example.org" "secret1" in
  let d := SampleAuth.disk [SampleAuth.user "u0" "root@example.org" "admin"] in
  let registered :=
    register SampleAuth.hash (Sample.env true true) req SampleAuth.anonymous d in
  let r := login SampleAuth.compare
             {| login_email := Some "ANN@example.ORG"; login_password := Some "secret1" |}
             SampleAuth.anonymous (auth_disk registered) in
  auth_status r = 200 ∧
  session_user (auth_session r) = session_user (auth_session registered) ∧
  session_cart (auth_session r) = Some (default [] (session_cart SampleAuth.anonymous)) ∧
  auth_disk r = auth_disk registered.
Proof.
  intros req d.
  apply (register_then_login SampleAuth.hash SampleAuth.compare (Sample.env true true) req
           SampleAuth.anonymous d "Ann@Example.org" "secret1" "ANN@example.ORG"
           SampleAuth.anonymous); vm_compute; reflexivity.
Defined.

End AuthWitnesses.
